(** * PancakeSwap V3 trading tool: a shallow embedding of [pancakeSwapWeb3.js]

    The development follows the source file top to bottom: the nonce cache,
    [safeBN], fee-tier discovery, path encoding, unit conversion, the honeypot
    heuristic, pool validation and the four order entry points.

    Conventions.
    - A JavaScript [throw] is the [Throw] constructor of [Outcome]; [try/catch]
      is [try_catch].
    - [BN] values are [Z]; [BN.div] truncates toward zero ([Z.quot]) and
      raises on a zero divisor.
    - A JavaScript number that reaches [safeBN] or [toBN] is a binary64
      [float]; its string form is [Number_toString], written after
      ECMAScript's Number::toString.
    - Everything the node or the web3 library answers is a field of [World].
      A request to the node carries its number in the order of requests, so
      that the same request can be answered differently later; [State] holds
      the count, the nonce cache, the wallet and the transactions handed to
      the node.
    - web3, bn.js and the JavaScript runtime are not part of the repository.
      What the code needs of them is written out where it can be computed
      ([Number_toString], [numberToBN], [ethjs_toWei],
      [eip55_toChecksumAddress]) and is a field of [World] otherwise.
    - Logging ([debugLog], [debugError], [console.error]) has no effect on
      control flow and is left out, except where building the message can
      raise ([fromWei_in_log]).  [inspect] serves log messages only;
      [getDeadline] and the helper [getGasPrice] are called by no entry
      point.  The three are left out too. *)

From Stdlib Require Import ZArith NArith List Bool Ascii String Lia.
From Stdlib Require Import Cyclic.Int63.Uint63 Floats.PrimFloat Floats.FloatOps Floats.SpecFloat.
From stdpp Require Import gmap strings.

Local Open Scope string_scope.
Local Open Scope Z_scope.

(** ** Errors and outcomes *)

(** What a [throw] carries.  Template literals keep their fixed text; the
    interpolated values are dropped, except the wrapped error. *)
Inductive Error : Type :=
| LibError (what : string)
| ReferenceError (ident : string)
| JsError (message : string)
| JsErrorWith (message : string) (cause : Error).

Inductive Outcome (A : Type) : Type :=
| Ok (a : A)
| Throw (e : Error).
Arguments Ok {A} a.
Arguments Throw {A} e.

Definition obind {A B} (m : Outcome A) (k : A -> Outcome B) : Outcome B :=
  match m with Ok a => k a | Throw e => Throw e end.

Definition try_catch {A} (body : Outcome A) (handler : Error -> Outcome A) : Outcome A :=
  match body with Ok a => Ok a | Throw e => handler e end.

Definition is_ok {A} (m : Outcome A) : bool :=
  match m with Ok _ => true | Throw _ => false end.

#[global] Instance Outcome_ret : MRet Outcome := fun _ a => Ok a.
#[global] Instance Outcome_bind : MBind Outcome := fun _ _ k m => obind m k.

(** ** JavaScript strings *)

Definition is_digit (c : ascii) : bool :=
  let n := nat_of_ascii c in (48 <=? n)%nat && (n <=? 57)%nat.

Fixpoint all_chars (p : ascii -> bool) (s : string) : bool :=
  match s with
  | EmptyString => true
  | String c s' => p c && all_chars p s'
  end.

(** [s.includes(t)] *)
Fixpoint includes (t s : string) : bool :=
  String.prefix t s ||
  match s with
  | EmptyString => false
  | String _ s' => includes t s'
  end.

(** [s.split(c)] for a one-character separator. *)
Fixpoint split (c : ascii) (s : string) : list string :=
  match s with
  | EmptyString => [EmptyString]
  | String a s' =>
      if Ascii.eqb a c then EmptyString :: split c s'
      else match split c s' with
           | h :: t => String a h :: t
           | [] => [String a EmptyString]
           end
  end.

(** [parts[i]] where the element is known to be a string. *)
Definition part (i : nat) (parts : list string) : string := nth i parts EmptyString.

(** [s.replace(/^0+/, '')] *)
Fixpoint strip_leading_zeros (s : string) : string :=
  match s with
  | String "0" s' => strip_leading_zeros s'
  | _ => s
  end.

(** [s || d] on strings: the empty string is falsy. *)
Definition or_default (s d : string) : string :=
  match s with EmptyString => d | _ => s end.

(** ['0'.repeat(n)] *)
Fixpoint zeros (n : nat) : string :=
  match n with O => EmptyString | S n' => String "0" (zeros n') end.

(** [while (s.length < n) s += '0'] *)
Definition pad_end (s : string) (n : nat) : string :=
  s ++ zeros (n - String.length s).

(** [while (s.length <= n) s = '0' + s] *)
Definition pad_start_past (s : string) (n : nat) : string :=
  zeros (S n - String.length s) ++ s.

(** [s.substring(from)] *)
Fixpoint drop (n : nat) (s : string) : string :=
  match n, s with
  | O, _ => s
  | S n', String _ s' => drop n' s'
  | S _, EmptyString => EmptyString
  end.

(** Does the whole of [s] match [/^\.?0+$/] ? *)
Definition dot_zeros_to_end (s : string) : bool :=
  let zs := match s with String "." s' => s' | _ => s end in
  negb (String.eqb zs EmptyString) && all_chars (Ascii.eqb "0") zs.

(** [s.replace(/\.?0+$/, '')]: the match is the leftmost suffix of the
    form "optional point, then one or more zeros". *)
Fixpoint trim_trailing_zeros (s : string) : string :=
  if dot_zeros_to_end s then EmptyString
  else match s with
       | EmptyString => EmptyString
       | String c s' => String c (trim_trailing_zeros s')
       end.

(** [s.trim()] on the left, then on the right. *)
Definition is_space (c : ascii) : bool :=
  let n := nat_of_ascii c in (n =? 32)%nat || ((9 <=? n)%nat && (n <=? 13)%nat).

Fixpoint trim_start (s : string) : string :=
  match s with
  | String c s' => if is_space c then trim_start s' else s
  | EmptyString => EmptyString
  end.

Fixpoint trim_end (s : string) : string :=
  match s with
  | EmptyString => EmptyString
  | String c s' =>
      match trim_end s' with
      | EmptyString => if is_space c then EmptyString else String c EmptyString
      | t => String c t
      end
  end.

Definition trim (s : string) : string := trim_end (trim_start s).

Definition to_lower (c : ascii) : ascii :=
  let n := nat_of_ascii c in
  if (65 <=? n)%nat && (n <=? 90)%nat then ascii_of_nat (n + 32) else c.

Definition to_upper (c : ascii) : ascii :=
  let n := nat_of_ascii c in
  if (97 <=? n)%nat && (n <=? 122)%nat then ascii_of_nat (n - 32) else c.

Fixpoint map_chars (f : ascii -> ascii) (s : string) : string :=
  match s with
  | EmptyString => EmptyString
  | String c s' => String (f c) (map_chars f s')
  end.

(** ** Decimal and hexadecimal numerals *)

Definition hex_value (c : ascii) : option Z :=
  let n := Z.of_nat (nat_of_ascii c) in
  if (48 <=? n) && (n <=? 57) then Some (n - 48)
  else if (97 <=? n) && (n <=? 102) then Some (n - 87)
  else if (65 <=? n) && (n <=? 70) then Some (n - 55)
  else None.

Definition is_hex (c : ascii) : bool :=
  match hex_value c with Some _ => true | None => false end.

(** The number a digit string denotes in base [b], most significant first. *)
Fixpoint numeral_acc (b : Z) (acc : Z) (s : string) : Z :=
  match s with
  | EmptyString => acc
  | String c s' =>
      numeral_acc b (acc * b + match hex_value c with Some v => v | None => 0 end) s'
  end.

Definition decimal_value (s : string) : Z := numeral_acc 10 0 s.
Definition hexadecimal_value (s : string) : Z := numeral_acc 16 0 s.

Definition digit_char (d : Z) : ascii := ascii_of_nat (Z.to_nat (48 + d)).

Definition hex_char (d : Z) : ascii :=
  if d <? 10 then ascii_of_nat (Z.to_nat (48 + d)) else ascii_of_nat (Z.to_nat (87 + d)).

(** Digits of a natural number in base [b], most significant first, without
    leading zeros: the empty string for zero.  [fuel] bounds their number. *)
Fixpoint digits (b : Z) (chr : Z -> ascii) (fuel : nat) (n : Z) : string :=
  match fuel with
  | O => EmptyString
  | S fuel' =>
      if n <=? 0 then EmptyString
      else digits b chr fuel' (n / b) ++ String (chr (n mod b)) EmptyString
  end.

Definition digits_of (b : Z) (chr : Z -> ascii) (n : Z) : string :=
  digits b chr (S (Z.to_nat (Z.log2 n))) n.

(** [bn.toString(10)] *)
Definition BN_toString (n : Z) : string :=
  if n =? 0 then "0"
  else if n <? 0 then String "-" (digits_of 10 digit_char (- n))
  else digits_of 10 digit_char n.

(** [n.toString(16)] for an integer. *)
Definition toString16 (n : Z) : string :=
  if n =? 0 then "0"
  else if n <? 0 then String "-" (digits_of 16 hex_char (- n))
  else digits_of 16 hex_char n.

(** [BN.div]: truncating division, an assertion failure on a zero divisor. *)
Definition BN_div (a b : Z) : Outcome Z :=
  if b =? 0 then Throw (LibError "Assertion failed") else Ok (Z.quot a b).

(** [BN.pow]: bn.js reads the exponent's magnitude bit by bit and never looks
    at its sign. *)
Definition BN_pow (a e : Z) : Z := a ^ Z.abs e.

(** ** Unit conversion (lines 322-432) *)

Definition standard_decimals : list nat := [3; 6; 9; 12; 15; 18]%nat.

Definition is_standard (decimals : nat) : bool :=
  existsb (Nat.eqb decimals) standard_decimals.

Definition getEtherUnit (decimals : nat) : string :=
  match decimals with
  | 3%nat => "kwei"
  | 6%nat => "mwei"
  | 9%nat => "gwei"
  | 12%nat => "microether"
  | 15%nat => "milliether"
  | 18%nat => "ether"
  | _ => if (decimals <? 18)%nat then "wei" else "ether"
  end.

(** The manual branch of [toTokenUnits], lines 336-366. *)
Definition toTokenUnits_manual (amount : string) (decimals : nat) : string :=
  let amountStr := amount in
  if includes "." amountStr then
    let parts := split "." amountStr in
    let whole := part 0 parts in
    let fractional := part 1 parts in
    let fractional :=
      if (decimals <? String.length fractional)%nat
      then String.substring 0 decimals fractional
      else pad_end fractional decimals in
    let trimmedWhole := or_default (strip_leading_zeros whole) "0" in
    let result := trimmedWhole ++ fractional in
    or_default (strip_leading_zeros result) "0"
  else
    let result := amountStr ++ zeros decimals in
    or_default (strip_leading_zeros result) "0".

(** [toTokenUnits(amount, decimals)]; [amount] is the string
    [amount.toString()], [toWei] is [web3.utils.toWei]. *)
Definition toTokenUnits (toWei : string -> string -> Outcome string)
    (amount : string) (decimals : nat) : Outcome string :=
  try_catch
    (if is_standard decimals then toWei amount (getEtherUnit decimals)
     else Ok (toTokenUnits_manual amount decimals))
    (fun _ => Throw (JsError "Failed to convert amount to token units")).

(** The manual branch of [fromTokenUnits], lines 390-405. *)
Definition fromTokenUnits_manual (amount : string) (decimals : nat) : string :=
  let amountStr := amount in
  if String.eqb amountStr "0" then "0"
  else
    let paddedAmount := pad_start_past amountStr decimals in
    let decimalPos := (String.length paddedAmount - decimals)%nat in
    let result :=
      String.substring 0 decimalPos paddedAmount ++ "." ++ drop decimalPos paddedAmount in
    trim_trailing_zeros result.

(** [fromTokenUnits(amount, decimals)]; [fromWei] is [web3.utils.fromWei]. *)
Definition fromTokenUnits (fromWei : string -> string -> Outcome string)
    (amount : string) (decimals : nat) : string :=
  match
    (if is_standard decimals then fromWei amount (getEtherUnit decimals)
     else Ok (fromTokenUnits_manual amount decimals))
  with
  | Ok r => r
  | Throw _ => amount
  end.

(** *** The library's [toWei]

    [web3.utils.toWei] (web3 1.x) is not part of the repository.  It hands a
    string to ethjs-unit, whose [toWei] is transcribed here: the input must
    match [/^-?[0-9.]+$/], it is split at the point, and a fraction longer
    than the unit's number of decimals is refused. *)

Definition unit_decimals (unit : string) : option nat :=
  if String.eqb unit "wei" then Some 0%nat
  else if String.eqb unit "kwei" then Some 3%nat
  else if String.eqb unit "mwei" then Some 6%nat
  else if String.eqb unit "gwei" then Some 9%nat
  else if String.eqb unit "microether" then Some 12%nat
  else if String.eqb unit "milliether" then Some 15%nat
  else if String.eqb unit "ether" then Some 18%nat
  else None.

Definition ethjs_toWei (etherInput : string) (unit : string) : Outcome string :=
  match unit_decimals unit with
  | None => Throw (LibError "This unit doesn't exist")
  | Some decimals =>
      let baseLength := match decimals with O => 1%nat | _ => decimals end in
      let negative := String.prefix "-" etherInput in
      let ether := if negative then drop 1 etherInput else etherInput in
      if String.eqb ether "" || negb (all_chars (fun c => is_digit c || Ascii.eqb c ".") ether)
      then Throw (LibError "invalid number value")
      else
        if String.eqb ether "." then Throw (LibError "invalid value")
        else
          let comps := split "." ether in
          if (2 <? List.length comps)%nat then Throw (LibError "too many decimal points")
          else
            let whole := or_default (part 0 comps) "0" in
            let fraction := or_default (part 1 comps) "0" in
            if (baseLength <? String.length fraction)%nat
            then Throw (LibError "too many decimal places")
            else
              let fraction := pad_end fraction baseLength in
              let wei := decimal_value whole * 10 ^ Z.of_nat decimals + decimal_value fraction in
              Ok (BN_toString (if negative then - wei else wei))
  end.

(** ** JavaScript numbers as strings

    [Number_toString x] is [x.toString()] (equally [String(x)] and the
    interpolation of [x] in a template), after ECMAScript's Number::toString:
    the shortest digit string [s] of [k] digits with [s * 10^(n-k)] rounding
    to [x], the nearest to [x] among those, then laid out by the size of [n]. *)

Definition pos_part (t : Z) : Z := Z.max t 0.
Definition neg_part (t : Z) : Z := Z.max (- t) 0.

(** Compare [s * 10^p] with [c * 2^q]. *)
Definition cmp_dec_bin (s p c q : Z) : comparison :=
  Z.compare (s * 10 ^ pos_part p * 2 ^ neg_part q) (c * 2 ^ pos_part q * 10 ^ neg_part p).

(** Does [s * 10^p] round to the double [m * 2^e]?  The interval ends are the
    midpoints to the neighbouring doubles, in units of [2^(e-2)]; an end is
    included when [m] is even. *)
Definition rounds_to (m e : Z) (s p : Z) : bool :=
  let q := e - 2 in
  let lo := if (m =? 2 ^ 52) && (-1074 <? e) then 4 * m - 1 else 4 * m - 2 in
  let hi := 4 * m + 2 in
  match cmp_dec_bin s p lo q, cmp_dec_bin s p hi q with
  | Gt, Lt => true
  | Eq, _ | _, Eq => Z.even m
  | _, _ => false
  end.

(** The least [n], counting up from [n], with [m * 2^e < 10^n]. *)
Fixpoint decimal_exponent (fuel : nat) (m e n : Z) : Z :=
  match fuel with
  | O => n
  | S fuel' =>
      match cmp_dec_bin 1 n (4 * m) (e - 2) with
      | Gt => n
      | _ => decimal_exponent fuel' m e (n + 1)
      end
  end.

(** The digits and the exponent [n] of the double [m * 2^e], trying
    [k], [k+1], ... digits. *)
Fixpoint shortest_digits (fuel : nat) (m e n0 k : Z) : string * Z :=
  match fuel with
  | O => (EmptyString, n0)
  | S fuel' =>
      let p := n0 - k in
      let q := e - 2 in
      let s_lo := (4 * m * 2 ^ pos_part q * 10 ^ neg_part p) / (10 ^ pos_part p * 2 ^ neg_part q) in
      let s_hi := s_lo + 1 in
      let ok_lo := rounds_to m e s_lo p in
      let ok_hi := rounds_to m e s_hi p in
      let pick_hi :=
        if s_hi =? 10 ^ k then (String "1" (zeros (Z.to_nat (k - 1))), n0 + 1)
        else (digits_of 10 digit_char s_hi, n0) in
      let pick_lo := (digits_of 10 digit_char s_lo, n0) in
      match ok_lo, ok_hi with
      | false, false => shortest_digits fuel' m e n0 (k + 1)
      | true, false => pick_lo
      | false, true => pick_hi
      | true, true =>
          match cmp_dec_bin (s_lo + s_hi) p (8 * m) q with
          | Gt => pick_lo
          | Lt => pick_hi
          | Eq => if Z.even s_lo then pick_lo else pick_hi
          end
      end
  end.

Definition layout_digits (d : string) (n : Z) : string :=
  let k := Z.of_nat (String.length d) in
  if (k <=? n) && (n <=? 21) then d ++ zeros (Z.to_nat (n - k))
  else if (0 <? n) && (n <=? 21) then
    String.substring 0 (Z.to_nat n) d ++ "." ++ drop (Z.to_nat n) d
  else if (-6 <? n) && (n <=? 0) then "0." ++ zeros (Z.to_nat (- n)) ++ d
  else
    let e := n - 1 in
    let exponent := (if e <? 0 then "-" else "+") ++ BN_toString (Z.abs e) in
    if k =? 1 then d ++ "e" ++ exponent
    else String.substring 0 1 d ++ "." ++ drop 1 d ++ "e" ++ exponent.

Definition Number_toString (x : float) : string :=
  match Prim2SF x with
  | S754_nan => "NaN"
  | S754_zero _ => "0"
  | S754_infinity s => if s then "-Infinity" else "Infinity"
  | S754_finite s m e =>
      let m := Z.pos m in
      let n0 := decimal_exponent 8 m e ((Z.log2 m + e) * 30103 / 100000 - 2) in
      let '(d, n) := shortest_digits 18 m e n0 1 in
      (if s then "-" else "") ++ layout_digits d n
  end.

(** The double of a small natural number, as [parseInt] returns it. *)
Definition Number_of_nat (n : nat) : float := PrimFloat.of_uint63 (Uint63.of_Z (Z.of_nat n)).

(** ** Values handed to [toBN] and [safeBN] (lines 94-159) *)

Inductive JsValue : Type :=
| JsUndefined
| JsNull
| JsNumber (x : float)
| JsString (s : string)
| JsBN (n : Z)
| JsBigNumber (text text10 : string)
| JsQuoterObject (amountOut : JsValue)
| JsObject.

(** [JsBigNumber] is an object whose [_isBigNumber] is set; it carries what
    its [toString()] and its [toString(10)] return.  The two differ for
    bignumber.js from 1e21 on, where the first is in exponential notation. *)

(** [strip-hex-prefix] *)
Definition stripHexPrefix (s : string) : string :=
  if String.prefix "0x" s then drop 2 s else s.

(** Does [s] match [/^-?[0-9]+$/] ? *)
Definition is_integer_literal (s : string) : bool :=
  let body := if String.prefix "-" s then drop 1 s else s in
  negb (String.eqb body "") && all_chars is_digit body.

Definition is_hex_literal (s : string) : bool :=
  negb (String.eqb s "") && all_chars is_hex s.

Definition is_hex_letters (s : string) : bool :=
  negb (String.eqb s "") && all_chars (fun c => is_hex c && negb (is_digit c)) s.

(** [new BN(s, 10)] for a string matching [/^-?[0-9]+$/]. *)
Definition BN_of_decimal (s : string) : Z :=
  if String.prefix "-" s then - decimal_value (drop 1 s) else decimal_value s.

(** [web3.utils.toBN] on a string: the number-to-bn package, which web3 1.x
    wraps.  It is not part of the repository; this is its string branch. *)
Definition numberToBN (arg : string) : Outcome Z :=
  let formattedString := trim (map_chars to_lower arg) in
  let isHexPrefixed := String.prefix "0x" formattedString || String.prefix "-0x" formattedString in
  let stringArg := stripHexPrefix formattedString in
  let '(stringArg, multiplier) :=
    if String.prefix "-" stringArg then (stripHexPrefix (drop 1 stringArg), -1)
    else (stringArg, 1) in
  let stringArg := if String.eqb stringArg "" then "0" else stringArg in
  if (negb (is_integer_literal stringArg) && is_hex_literal stringArg)
     || is_hex_letters stringArg
     || (isHexPrefixed && is_hex_literal stringArg)
  then Ok (hexadecimal_value stringArg * multiplier)
  else if is_integer_literal stringArg && negb isHexPrefixed
  then Ok (BN_of_decimal stringArg * multiplier)
  else Throw (LibError "[number-to-bn] invalid number value").

(** [web3.utils.toBN]: strings and numbers by their text; an object by its
    [toString(10)], which must match [/^-?[0-9]+$/]. *)
Definition toBN (value : JsValue) : Outcome Z :=
  match value with
  | JsString s => numberToBN s
  | JsNumber x => numberToBN (Number_toString x)
  | JsBN n => Ok n
  | JsBigNumber _ text10 =>
      if is_integer_literal text10 then Ok (BN_of_decimal text10)
      else Throw (LibError "[number-to-bn] invalid number value")
  | _ => Throw (LibError "[number-to-bn] invalid number value")
  end.

(** [safeBN(value)]; every caller leaves [defaultValue] at ["0"]. *)
Definition safeBN_text (text : string) : Z :=
  let strValue := trim text in
  let strValue := if includes "." strValue then part 0 (split "." strValue) else strValue in
  match
    (if String.prefix "0x" strValue then numberToBN strValue else numberToBN strValue)
  with
  | Ok n => n
  | Throw _ => 0
  end.

Fixpoint safeBN (value : JsValue) : Z :=
  match value with
  | JsUndefined | JsNull => 0
  | JsBigNumber text _ =>
      match numberToBN text with
      | Ok n => n
      | Throw _ => 0
      end
  | JsBN n => n
  | JsQuoterObject JsUndefined => 0
  | JsQuoterObject amountOut => safeBN amountOut
  | JsObject => 0
  | JsString s => safeBN_text s
  | JsNumber x => safeBN_text (Number_toString x)
  end.

(** ** Addresses

    [web3.utils.toChecksumAddress] is the EIP-55 spelling of an address: the
    forty hex digits in lower case, a letter turned to upper case when the
    matching hex digit of the Keccak-256 hash of those forty characters is 8
    or more.  The library is not part of the repository; Keccak-256 is
    written out so that the spelling of a given address can be computed. *)

Definition mask64 : Z := 2 ^ 64 - 1.

Definition rotl64 (v : Z) (n : Z) : Z :=
  Z.land (Z.lor (Z.shiftl v n) (Z.shiftr v (64 - n))) mask64.

Definition lane (st : list Z) (x y : nat) : Z := nth (x mod 5 + 5 * (y mod 5)) st 0.

Definition keccak_rotations : list Z :=
  [ 0;  1; 62; 28; 27;
   36; 44;  6; 55; 20;
    3; 10; 43; 25; 39;
   41; 45; 15; 21;  8;
   18;  2; 61; 56; 14].

Definition keccak_round_constants : list Z :=
  [0x0000000000000001; 0x0000000000008082; 0x800000000000808A; 0x8000000080008000;
   0x000000000000808B; 0x0000000080000001; 0x8000000080008081; 0x8000000000008009;
   0x000000000000008A; 0x0000000000000088; 0x0000000080008009; 0x000000008000000A;
   0x000000008000808B; 0x800000000000008B; 0x8000000000008089; 0x8000000000008003;
   0x8000000000008002; 0x8000000000000080; 0x000000000000800A; 0x800000008000000A;
   0x8000000080008081; 0x8000000000008080; 0x0000000080000001; 0x8000000080008008].

Definition coords : list (nat * nat) :=
  flat_map (fun y => map (fun x => (x, y)) (seq 0 5)) (seq 0 5).

Definition keccak_theta (st : list Z) : list Z :=
  let c x := fold_left Z.lxor (map (fun y => lane st x y) (seq 0 5)) 0 in
  let d x := Z.lxor (c (x + 4)%nat) (rotl64 (c (x + 1)%nat) 1) in
  map (fun '(x, y) => Z.lxor (lane st x y) (d x)) coords.

(** B[y, 2x+3y] = rot(A[x, y]); read backwards: B[X, Y] comes from
    x = (X + 3Y) mod 5, y = X. *)
Definition keccak_rho_pi (st : list Z) : list Z :=
  map (fun '(X, Y) =>
         let x := ((X + 3 * Y) mod 5)%nat in
         let y := X in
         rotl64 (lane st x y) (nth (x + 5 * y) keccak_rotations 0)) coords.

Definition keccak_chi (st : list Z) : list Z :=
  map (fun '(x, y) =>
         Z.lxor (lane st x y)
                (Z.land (Z.lxor (lane st (x + 1) y) mask64) (lane st (x + 2) y))) coords.

Definition keccak_iota (rc : Z) (st : list Z) : list Z :=
  match st with
  | a :: rest => Z.lxor a rc :: rest
  | [] => []
  end.

Definition keccak_f (st : list Z) : list Z :=
  fold_left (fun st rc => keccak_iota rc (keccak_chi (keccak_rho_pi (keccak_theta st))))
            keccak_round_constants st.

(** Little-endian lanes of one padded 136-byte block. *)
Fixpoint le_value (bytes : list Z) : Z :=
  match bytes with
  | [] => 0
  | b :: rest => b + 256 * le_value rest
  end.

Fixpoint chunks8 (n : nat) (bytes : list Z) : list Z :=
  match n with
  | O => []
  | S n' => le_value (firstn 8 bytes) :: chunks8 n' (skipn 8 bytes)
  end.

(** Keccak-256 of a message shorter than one block (135 bytes at most),
    as 64 hex digits. *)
Definition keccak256_hex (message : string) : string :=
  let bytes := map (fun c => Z.of_nat (nat_of_ascii c)) (list_ascii_of_string message) in
  let padded := (bytes ++ [1] ++ repeat 0 (134 - List.length bytes))%list in
  let block := (firstn 135 padded ++ [Z.lor (nth 135 padded 0) 128])%list in
  let st := keccak_f (chunks8 17 block ++ repeat 0 8)%list in
  let out := flat_map (fun l => map (fun i => Z.land (Z.shiftr l (8 * Z.of_nat i)) 255) (seq 0 8))
                      (firstn 4 st) in
  string_of_list_ascii
    (flat_map (fun b => [hex_char (b / 16); hex_char (b mod 16)]) out).

Definition is_address_shape (address : string) : bool :=
  let body := if String.prefix "0x" (map_chars to_lower address) then drop 2 address else address in
  (String.length body =? 40)%nat && all_chars is_hex body.

Fixpoint checksum_case (address hash : string) : string :=
  match address, hash with
  | String c address', String h hash' =>
      String (match hex_value h with
              | Some v => if 7 <? v then to_upper c else c
              | None => c
              end) (checksum_case address' hash')
  | _, _ => EmptyString
  end.

Definition eip55_toChecksumAddress (address : string) : Outcome string :=
  if negb (is_address_shape address)
  then Throw (LibError "Given address is not a valid Ethereum address.")
  else
    let lower := map_chars to_lower address in
    let address := if String.prefix "0x" lower then drop 2 lower else lower in
    let addressHash := keccak256_hex address in
    Ok ("0x" ++ checksum_case address addressHash).

(** The number an address denotes. *)
Definition address_value (address : string) : Z :=
  hexadecimal_value (stripHexPrefix (map_chars to_lower address)).

(** JavaScript's [<] on strings: by code unit, a proper prefix first. *)
Fixpoint string_lt (a b : string) : bool :=
  match a, b with
  | _, EmptyString => false
  | EmptyString, String _ _ => true
  | String x a', String y b' =>
      let nx := nat_of_ascii x in
      let ny := nat_of_ascii y in
      if (nx <? ny)%nat then true
      else if (ny <? nx)%nat then false
      else string_lt a' b'
  end.

(** [Math.floor] of a finite double. *)
Definition Math_floor (x : float) : float :=
  match Prim2SF x with
  | S754_finite s m e =>
      if 0 <=? e then x
      else
        let q := Z.pos m / 2 ^ (- e) in
        let r := Z.pos m mod 2 ^ (- e) in
        let magnitude := if s && negb (r =? 0) then q + 1 else q in
        let y := PrimFloat.of_uint63 (Uint63.of_Z magnitude) in
        if s then (- y)%float else y
  | _ => x
  end.

(** ** Constants ([utils/constants.js]) *)

Definition PANCAKESWAP_ROUTER_ADDRESS : string := "0x13f4EA83D0bd40E75C8222255bc855a974568Dd4".
Definition PANCAKESWAP_FACTORY_ADDRESS : string := "0x0BFbCF9fa4f9C56B0F40a671Ad40E0805A091865".
Definition PANCAKESWAP_QUOTER_ADDRESS : string := "0xB048Bbc1Ee6b733FFfCFb9e9CeF7375518e25997".
Definition WBNB_ADDRESS : string := "0xbb4CdB9CBd36B01bD1cBaEBF2De08d9173bc095c".
Definition ZERO_ADDRESS : string := "0x0000000000000000000000000000000000000000".

Definition FEE_TIERS_LOWEST : Z := 100.
Definition FEE_TIERS_LOW : Z := 500.
Definition FEE_TIERS_MEDIUM : Z := 2500.
Definition FEE_TIERS_HIGH : Z := 10000.

Definition feeTiers : list Z :=
  [FEE_TIERS_LOWEST; FEE_TIERS_LOW; FEE_TIERS_MEDIUM; FEE_TIERS_HIGH].

(** ** What the node and the library answer *)

Record TokenInfo : Type := {
  address : option string;
  symbol : string;
  name : string;
  decimals : nat
}.

Definition BNB_TOKEN_INFO : TokenInfo :=
  {| address := None; symbol := "BNB"; name := "Binance Coin"; decimals := 18 |}.

Record Slot0 : Type := { sqrtPriceX96 : string }.

(** The shapes of a quoter answer that lines 613-619 tell apart. *)
Inductive QuoteResult : Type :=
| QuoteObject (amountOut : option string)
| QuoteString (s : string)
| QuoteNumber (x : float)
| QuoteOther.

Record SwapParams : Type := {
  path : string;
  recipient : string;
  deadline : Z;
  amountIn : string;
  amountOutMinimum : string
}.

Record Transaction : Type := {
  tx_from : string;
  tx_to : string;
  tx_data : SwapParams;
  tx_value : option string;
  tx_gas : float;
  tx_gasPrice : string;
  tx_nonce : Z
}.

Record Approval : Type := {
  ap_token : string;
  ap_spender : string;
  ap_amount : string;
  ap_from : string;
  ap_gas : Z;
  ap_gasPrice : string;
  ap_nonce : Z
}.

Inductive Submission : Type :=
| SubmitSwap (tx : Transaction)
| SubmitApproval (ap : Approval).

(** Requests to the node carry the number of the request ([nat]): the same
    request may be answered differently later.  The library's pure functions
    carry none.  [exactInput_encodeABI] is
    [router.methods.exactInput(params).encodeABI()]: the call data, or the
    coder's refusal of the parameters; the router's ABI ([utils/abi]) is not
    among the sources. *)
Record World : Type := {
  privateKeyToAccount : string -> Outcome string;
  isAddress : string -> bool;
  toChecksumAddress : string -> Outcome string;
  toWei : string -> string -> Outcome string;
  Date_now : Z;
  getBalance : nat -> string -> Outcome string;
  getTransactionCount : nat -> string -> Outcome Z;
  getCode : nat -> string -> Outcome string;
  getGasPrice : nat -> Outcome string;
  erc20_symbol : nat -> string -> Outcome string;
  erc20_name : nat -> string -> Outcome string;
  erc20_decimals : nat -> string -> Outcome nat;
  erc20_totalSupply : nat -> string -> Outcome string;
  erc20_balanceOf : nat -> string -> string -> Outcome string;
  erc20_allowance : nat -> string -> string -> string -> Outcome string;
  erc20_approve : nat -> Approval -> Outcome string;
  factory_getPool : nat -> string -> string -> Z -> Outcome string;
  pool_liquidity : nat -> string -> Outcome string;
  pool_slot0 : nat -> string -> Outcome Slot0;
  quoter_quoteExactInput : nat -> string -> string -> Outcome QuoteResult;
  exactInput_encodeABI : SwapParams -> Outcome string;
  router_estimateGas : nat -> SwapParams -> string -> option string -> Outcome float;
  sendTransaction : nat -> Transaction -> Outcome string
}.

(** ** Process state and the monad of asynchronous code *)

Record State : Type := {
  clock : nat;
  nonceCache : gmap string Z;
  wallet : list string;
  submitted : list Submission
}.

Definition initial_state : State :=
  {| clock := 0; nonceCache := ∅; wallet := []; submitted := [] |}.

Record M (A : Type) : Type := mkM { run : State -> Outcome A * State }.
Arguments mkM {A} run.
Arguments run {A} m s.

#[global] Instance M_ret : MRet M := fun _ a => mkM (fun s => (Ok a, s)).
#[global] Instance M_bind : MBind M := fun _ _ k m =>
  mkM (fun s => match run m s with
                | (Ok a, s') => run (k a) s'
                | (Throw e, s') => (Throw e, s')
                end).

Definition throw {A} (e : Error) : M A := mkM (fun s => (Throw e, s)).

(** A synchronous computation inside asynchronous code. *)
Definition lift {A} (o : Outcome A) : M A := mkM (fun s => (o, s)).

Definition try_catchM {A} (body : M A) (handler : Error -> M A) : M A :=
  mkM (fun s => match run body s with
                | (Ok a, s') => (Ok a, s')
                | (Throw e, s') => run (handler e) s'
                end).

Definition tick (s : State) : State :=
  {| clock := S (clock s); nonceCache := nonceCache s;
     wallet := wallet s; submitted := submitted s |}.

(** [await] of one request to the node. *)
Definition await {A} (request : nat -> Outcome A) : M A :=
  mkM (fun s => (request (clock s), tick s)).

(** [await Promise.all([a, b, c])]: the three requests are issued, the first
    failure in order is the failure of the whole. *)
Definition await_all3 {A B C} (a : nat -> Outcome A) (b : nat -> Outcome B)
    (c : nat -> Outcome C) : M (A * B * C) :=
  mkM (fun s =>
         let t := clock s in
         (x ← a t; y ← b (S t); z ← c (S (S t)); Ok (x, y, z),
          tick (tick (tick s)))).

Definition get_nonceCache : M (gmap string Z) := mkM (fun s => (Ok (nonceCache s), s)).

Definition set_nonceCache (address : string) (n : Z) : M unit :=
  mkM (fun s => (Ok tt, {| clock := clock s; nonceCache := <[address := n]> (nonceCache s);
                           wallet := wallet s; submitted := submitted s |})).

Definition wallet_add (account : string) : M unit :=
  mkM (fun s => (Ok tt, {| clock := clock s; nonceCache := nonceCache s;
                           wallet := account :: wallet s; submitted := submitted s |})).

Definition wallet_remove (account : string) : M unit :=
  mkM (fun s => (Ok tt, {| clock := clock s; nonceCache := nonceCache s;
                           wallet := filter (fun a => a ≠ account) (wallet s);
                           submitted := submitted s |})).

(** A transaction handed to the node is recorded whether or not the node
    accepts it. *)
Definition submit {A} (what : Submission) (request : nat -> Outcome A) : M A :=
  mkM (fun s => (request (clock s),
                 {| clock := S (clock s); nonceCache := nonceCache s; wallet := wallet s;
                    submitted := (submitted s ++ [what])%list |})).

Section Engine.

Variable w : World.

(** ** [getNextNonce] (lines 43-65) *)

Definition getNextNonce (address : string) : M Z :=
  try_catchM
    (onChainNonce ← await (fun t => getTransactionCount w t address);
     cache ← get_nonceCache;
     let next :=
       match cache !! address with
       | None => onChainNonce
       | Some cached => if cached <? onChainNonce then onChainNonce else cached + 1
       end in
     set_nonceCache address next;;
     mret next)
    (fun _ =>
       nonce ← await (fun t => getTransactionCount w t address);
       mret nonce).

(** ** [getTokenInfo] (lines 166-196) *)

Definition getTokenInfo (tokenAddress : string) : M TokenInfo :=
  if String.eqb (map_chars to_lower tokenAddress) "bnb" then mret BNB_TOKEN_INFO
  else
    try_catchM
      (if negb (isAddress w tokenAddress) then throw (JsError "Invalid token address")
       else
         '(symbol, name, decimals) ←
           await_all3 (fun t => erc20_symbol w t tokenAddress)
                      (fun t => erc20_name w t tokenAddress)
                      (fun t => erc20_decimals w t tokenAddress);
         mret {| address := Some tokenAddress; symbol := symbol;
                 name := name; decimals := decimals |})
      (fun error => throw (JsErrorWith "Failed to get token info" error)).

(** ** [findBestFeeTier] (lines 204-281) *)

Record TierSearch : Type := {
  bestFeeTier : Z;
  maxLiquidity : Z;
  poolsFound : bool
}.

(** The body of the first loop, lines 215-244. *)
Definition checkFeeTier (tokenA tokenB : string) (st : TierSearch) (fee : Z) : M TierSearch :=
  try_catchM
    (poolAddress ← await (fun t => factory_getPool w t tokenA tokenB fee);
     if negb (String.eqb poolAddress ZERO_ADDRESS) then
       let st := {| bestFeeTier := bestFeeTier st; maxLiquidity := maxLiquidity st;
                    poolsFound := true |} in
       try_catchM
         (liquidityStr ← await (fun t => pool_liquidity w t poolAddress);
          let liquidity := safeBN (JsString liquidityStr) in
          if maxLiquidity st <? liquidity
          then mret {| bestFeeTier := fee; maxLiquidity := liquidity;
                       poolsFound := poolsFound st |}
          else mret st)
         (fun _ => mret st)
     else mret st)
    (fun _ => mret st).

Fixpoint checkFeeTiers (tokenA tokenB : string) (st : TierSearch) (fees : list Z) : M TierSearch :=
  match fees with
  | [] => mret st
  | fee :: rest =>
      st' ← checkFeeTier tokenA tokenB st fee;
      checkFeeTiers tokenA tokenB st' rest
  end.

(** The second loop, lines 258-272. *)
Fixpoint firstExistingPool (tokenA tokenB : string) (fees : list Z) : M Z :=
  match fees with
  | [] => mret FEE_TIERS_MEDIUM
  | fee :: rest =>
      found ← try_catchM
                (poolAddress ← await (fun t => factory_getPool w t tokenA tokenB fee);
                 mret (negb (String.eqb poolAddress ZERO_ADDRESS)))
                (fun _ => mret false);
      if (found : bool) then mret fee else firstExistingPool tokenA tokenB rest
  end.

Definition findBestFeeTier (tokenA tokenB : string) : M Z :=
  try_catchM
    (st ← checkFeeTiers tokenA tokenB
            {| bestFeeTier := FEE_TIERS_MEDIUM; maxLiquidity := safeBN (JsString "0");
               poolsFound := false |} feeTiers;
     if maxLiquidity st =? 0 then firstExistingPool tokenA tokenB feeTiers
     else mret (bestFeeTier st))
    (fun _ => mret FEE_TIERS_MEDIUM).

(** ** [encodePath] (lines 289-302) *)

Definition padStart (n : nat) (s : string) : string := zeros (n - String.length s) ++ s.

Fixpoint encodeHops (tokenAddresses : list string) (fees : list Z) : string :=
  match fees, tokenAddresses with
  | fee :: fees', token :: tokenAddresses' =>
      drop 2 token ++ padStart 6 (toString16 fee) ++ encodeHops tokenAddresses' fees'
  | _, _ => EmptyString
  end.

Definition encodePath (tokenAddresses : list string) (fees : list Z) : Outcome string :=
  if negb (List.length tokenAddresses =? List.length fees + 1)%nat
  then Throw (JsError "tokenAddresses.length must be equal to fees.length + 1")
  else Ok ("0x" ++ encodeHops tokenAddresses fees ++ drop 2 (List.last tokenAddresses EmptyString)).

(** ** [checkForHoneypot] (lines 440-462) *)

(** [new web3.eth.Contract(abi, address)] on an address the caller supplied:
    web3 refuses an address that [isAddress] rejects.  (A pool address decoded
    from the factory's answer is well formed.) *)
Definition newContract (address : string) : M unit :=
  if isAddress w address then mret tt
  else throw (LibError "Provided address is invalid").

Definition checkForHoneypot (tokenAddress : string) : M bool :=
  try_catchM
    (newContract tokenAddress;;
     code ← await (fun t => getCode w t tokenAddress);
     let unusualCodeSize := 50000 <? Z.of_nat (String.length code) in
     totalSupply ← try_catchM (await (fun t => erc20_totalSupply w t tokenAddress))
                              (fun _ => mret "0");
     let hasIndicators :=
       includes "owner" code && includes "blacklist" code && includes "swap" code in
     mret (unusualCodeSize || hasIndicators))
    (fun _ => mret false).

(** ** [validatePancakeV3Pool] (lines 470-522) *)

(** The pair as lines 473-475 order it (the same text at 630-632, 899-901,
    1182-1184 and 1407-1409). *)
Definition sortedTokens (tokenAddress : string) : Outcome (string * string) :=
  a ← toChecksumAddress w tokenAddress;
  b ← toChecksumAddress w WBNB_ADDRESS;
  Ok (if string_lt a b then (tokenAddress, WBNB_ADDRESS) else (WBNB_ADDRESS, tokenAddress)).

Definition validatePancakeV3Pool (tokenAddress : string) (feeTier : Z) : M bool :=
  try_catchM
    ('(token0, token1) ← lift (sortedTokens tokenAddress);
     poolAddress ← await (fun t => factory_getPool w t token0 token1 feeTier);
     if String.eqb poolAddress ZERO_ADDRESS then mret false
     else
       liquidity ← await (fun t => pool_liquidity w t poolAddress);
       low ← lift (l ← toBN (JsString liquidity);
                   threshold ← toBN (JsString "1000000");
                   Ok (l <=? threshold));
       if (low : bool) then mret false
       else
         try_catchM
           (slot0 ← await (fun t => pool_slot0 w t poolAddress);
            if String.eqb (sqrtPriceX96 slot0) "0" then mret false else mret true)
           (fun _ => mret false))
    (fun _ => mret false).

(** ** Blocks shared by the four entry points *)

(** Retry over the other fee tiers, lines 567-587 and 842-862. *)
Fixpoint firstValidPool (tokenAddress : string) (fees : list Z) : M (option Z) :=
  match fees with
  | [] => mret None
  | alternativeFee :: rest =>
      valid ← validatePancakeV3Pool tokenAddress alternativeFee;
      if (valid : bool) then mret (Some alternativeFee)
      else firstValidPool tokenAddress rest
  end.

Definition validOrAlternativeFeeTier (tokenAddress : string) (feeTier : Z) : M Z :=
  isPoolValid ← validatePancakeV3Pool tokenAddress feeTier;
  if negb isPoolValid then
    found ← firstValidPool tokenAddress
              (List.filter (fun fee => negb (fee =? feeTier)) feeTiers);
    match found with
    | Some alternativeFee => mret alternativeFee
    | None => throw (JsError "No valid PancakeSwap V3 pool found with sufficient liquidity. Trading may not be possible at this time.")
    end
  else mret feeTier.

(** The first level of quoting, lines 602-621 (and 871-890, 1154-1173,
    1379-1398). *)
Definition quoterAttempt (path amountIn : string) : M string :=
  quoteResult ← await (fun t => quoter_quoteExactInput w t path amountIn);
  match quoteResult with
  | QuoteObject (Some amountOut) =>
      if String.eqb amountOut EmptyString
      then throw (JsError "Unexpected quoter response format")
      else mret amountOut
  | QuoteObject None => throw (JsError "Unexpected quoter response format")
  | QuoteString s => mret s
  | QuoteNumber x => mret (Number_toString x)
  | QuoteOther => throw (JsError "Unexpected quoter response format")
  end.

Definition Q96 : Z := 2 ^ 96.

(** The price calculation of the buy side, lines 644-681 (and 1196-1233). *)
Definition estimateFromPool_buy (tokenInfo : TokenInfo) (bnbAmountWei : string)
    (token0 : string) (slot0 : Slot0) : Outcome string :=
  let sqrtPrice := safeBN (JsString (sqrtPriceX96 slot0)) in
  price ← (if String.eqb token0 WBNB_ADDRESS then
             let sqrtPriceSquared := sqrtPrice * sqrtPrice in
             if sqrtPriceSquared =? 0
             then Throw (JsError "Price calculation failed: sqrtPriceSquared is zero")
             else BN_div (Q96 * Q96) sqrtPriceSquared
           else BN_div (sqrtPrice * sqrtPrice) (Q96 * Q96));
  exponent ← toBN (JsNumber (18 - Number_of_nat (decimals tokenInfo))%float);
  let decimalAdjustment := BN_pow 10 exponent in
  let price := price * decimalAdjustment in
  let inputAmount := safeBN (JsString bnbAmountWei) in
  let divisionFactor := BN_pow (safeBN (JsNumber 10)) (safeBN (JsNumber 18)) in
  if divisionFactor =? 0 then Throw (JsError "Division by zero error in price calculation")
  else
    roughOutputAmount ← BN_div (inputAmount * price) divisionFactor;
    roughOutputAmount ← BN_div (roughOutputAmount * safeBN (JsNumber 90)) (safeBN (JsNumber 100));
    Ok (BN_toString roughOutputAmount).

(** The price calculation of the sell side, lines 913-950 (and 1421-1458). *)
Definition estimateFromPool_sell (tokenAddress : string) (tokenInfo : TokenInfo)
    (tokenAmountInUnits : string) (token0 : string) (slot0 : Slot0) : Outcome string :=
  let sqrtPrice := safeBN (JsString (sqrtPriceX96 slot0)) in
  price ← (if String.eqb token0 tokenAddress then
             let sqrtPriceSquared := sqrtPrice * sqrtPrice in
             if sqrtPriceSquared =? 0
             then Throw (JsError "Price calculation failed: sqrtPriceSquared is zero")
             else BN_div (Q96 * Q96) sqrtPriceSquared
           else BN_div (sqrtPrice * sqrtPrice) (Q96 * Q96));
  exponent ← toBN (JsNumber (Number_of_nat (decimals tokenInfo) - 18)%float);
  let decimalAdjustment := BN_pow 10 exponent in
  let price := price * decimalAdjustment in
  let inputAmount := safeBN (JsString tokenAmountInUnits) in
  let divisionFactor :=
    BN_pow (safeBN (JsNumber 10)) (safeBN (JsNumber (Number_of_nat (decimals tokenInfo)))) in
  if divisionFactor =? 0 then Throw (JsError "Division by zero error in price calculation")
  else
    roughOutputAmount ← BN_div (inputAmount * price) divisionFactor;
    roughOutputAmount ← BN_div (roughOutputAmount * safeBN (JsNumber 90)) (safeBN (JsNumber 100));
    Ok (BN_toString roughOutputAmount).

Definition MINIMAL_FALLBACK : string := "1000".

(** The three levels of [buyToken] and [sellToken], lines 599-703 and
    868-972; [estimate] is the price calculation of the side. *)
Definition expectedOutput (estimate : string -> Slot0 -> Outcome string)
    (tokenAddress : string) (feeTier : Z) (path amountIn : string) : M string :=
  try_catchM
    (quoterAttempt path amountIn)
    (fun quoteError =>
       try_catchM
         ('(token0, token1) ← lift (sortedTokens tokenAddress);
          poolAddress ← await (fun t => factory_getPool w t token0 token1 feeTier);
          if negb (String.eqb poolAddress ZERO_ADDRESS) then
            slot0 ← await (fun t => pool_slot0 w t poolAddress);
            lift (try_catch (estimate token0 slot0) (fun calcError => Ok MINIMAL_FALLBACK))
          else mret MINIMAL_FALLBACK)
         (fun fallbackError => mret MINIMAL_FALLBACK)).

(** The same block in [buyTokenWithFeeTier] and [sellTokenWithFeeTier],
    lines 1151-1247 and 1376-1472. *)
Definition expectedOutput_pinned (estimate : string -> Slot0 -> Outcome string)
    (tokenAddress : string) (feeTier : Z) (path amountIn : string) : M string :=
  try_catchM
    (quoterAttempt path amountIn)
    (fun quoteError =>
       try_catchM
         ('(token0, token1) ← lift (sortedTokens tokenAddress);
          poolAddress ← await (fun t => factory_getPool w t token0 token1 feeTier);
          if negb (String.eqb poolAddress ZERO_ADDRESS) then
            slot0 ← await (fun t => pool_slot0 w t poolAddress);
            lift (try_catch (estimate token0 slot0) (fun calcError => Ok MINIMAL_FALLBACK))
          else throw (JsError "No pool exists for this token with the fee tier. Try using the auto-select option instead."))
         (fun fallbackError => throw (JsErrorWith "Could not estimate price for fee tier" fallbackError))).

(** The slippage factor, [10000 - slippagePercent * 100] in doubles. *)
Definition slippageFactor (slippagePercent : float) : float :=
  (10000 - slippagePercent * 100)%float.

(** Minimum output in [buyToken] and [sellToken], lines 705-725 and 974-994. *)
Definition amountOutMin_guarded (expectedOutputAmount : string) (slippagePercent : float) : string :=
  let bnExpectedOutput := safeBN (JsString expectedOutputAmount) in
  let bnSlippageFactor := safeBN (JsNumber (slippageFactor slippagePercent)) in
  let bnDivisor := safeBN (JsNumber 10000) in
  match
    (if bnDivisor =? 0 then Ok (BN_toString bnExpectedOutput)
     else q ← BN_div (bnExpectedOutput * bnSlippageFactor) bnDivisor; Ok (BN_toString q))
  with
  | Ok amountOutMin => amountOutMin
  | Throw _ => "1"
  end.

(** Minimum output in the tier-pinned entry points, lines 1249-1253 and
    1474-1478. *)
Definition amountOutMin_pinned (expectedOutputAmount : string) (slippagePercent : float)
    : Outcome string :=
  e ← toBN (JsString expectedOutputAmount);
  f ← toBN (JsNumber (slippageFactor slippagePercent));
  d ← toBN (JsNumber 10000);
  q ← BN_div (e * f) d;
  Ok (BN_toString q).

(** [web3.utils.fromWei(text, unit)] inside a log line: its value is not
    used, but it raises when [text] is not an integer. *)
Definition fromWei_in_log (text : string) : M unit :=
  _ ← lift (numberToBN text); mret tt.

(** Allowance check and approval, lines 1006-1035 and 1490-1519. *)
Definition approveIfNeeded (tokenAddress walletAddress tokenAmountInUnits : string)
    (nonce : Z) : M Z :=
  try_catchM
    (allowance ← await (fun t => erc20_allowance w t tokenAddress walletAddress
                                   PANCAKESWAP_ROUTER_ADDRESS);
     short ← lift (a ← toBN (JsString allowance);
                   b ← toBN (JsString tokenAmountInUnits);
                   Ok (a <? b));
     if (short : bool) then
       let approveAmount := BN_toString (2 ^ 256 - 1) in
       gasPrice ← await (getGasPrice w);
       let approval := {| ap_token := tokenAddress; ap_spender := PANCAKESWAP_ROUTER_ADDRESS;
                          ap_amount := approveAmount; ap_from := walletAddress;
                          ap_gas := 200000; ap_gasPrice := gasPrice; ap_nonce := nonce |} in
       approveTx ← submit (SubmitApproval approval) (fun t => erc20_approve w t approval);
       mret (nonce + 1)
     else mret nonce)
    (fun error => throw (JsErrorWith "Token approval failed" error)).

(** Building and sending the swap, lines 737-782 (and 1037-1080, 1265-1310,
    1521-1564); [value] is present on the buy side only.  The literal is the
    double [1.1].  [encodeABI] raises on parameters that the ABI coder
    refuses, before the gas estimate and outside its [catch].  The data of
    the transaction is [swapData], which the library computes from
    [swapParams]; [tx_data] keeps the parameters it encodes. *)
Definition executeSwap (walletAddress path amountIn amountOutMin : string)
    (value : option string) (nonce : Z) : M string :=
  let recipient := walletAddress in
  let deadline := Date_now w / 1000 + 60 * 20 in
  gasPrice ← await (getGasPrice w);
  let swapParams := {| path := path; recipient := recipient; deadline := deadline;
                       amountIn := amountIn; amountOutMinimum := amountOutMin |} in
  swapData ← lift (exactInput_encodeABI w swapParams);
  estimatedGas ← try_catchM
                   (await (fun t => router_estimateGas w t swapParams walletAddress value))
                   (fun _ => mret 500000%float);
  fromWei_in_log gasPrice;;
  transactionHash ←
    (let tx := {| tx_from := walletAddress; tx_to := PANCAKESWAP_ROUTER_ADDRESS;
                  tx_data := swapParams; tx_value := value;
                  tx_gas := Math_floor (estimatedGas * 0x1.199999999999ap+0)%float;
                  tx_gasPrice := gasPrice; tx_nonce := nonce |} in
     submit (SubmitSwap tx) (fun t => sendTransaction w t tx));
  wallet_remove walletAddress;;
  mret transactionHash.

(** The [catch] of every entry point: drop the key from the wallet, ignore a
    failure of that, and raise the error again. *)
Definition cleanup_and_rethrow {A} (privateKey : string) (error : Error) : M A :=
  try_catchM
    (account ← lift (privateKeyToAccount w privateKey); wallet_remove account)
    (fun _ => mret tt);;
  throw error.

(** Identifiers: a name that no enclosing scope declares raises a
    [ReferenceError] when it is evaluated. *)
Definition module_scope : list string :=
  ["Web3"; "axios"; "erc20Abi"; "routerAbiV3"; "factoryAbiV3"; "poolAbiV3"; "quoterAbiV3";
   "BSC_RPC_URL"; "PANCAKESWAP_ROUTER_ADDRESS"; "PANCAKESWAP_FACTORY_ADDRESS";
   "PANCAKESWAP_QUOTER_ADDRESS"; "WBNB_ADDRESS"; "BNB_TOKEN_INFO"; "DEFAULT_SLIPPAGE";
   "DEFAULT_DEADLINE_MINUTES"; "MAX_UINT256"; "GAS_MULTIPLIER"; "FEE_TIERS"; "DEBUG_MODE";
   "web3"; "router"; "factory"; "quoter"; "nonceCache"; "getNextNonce"; "debugLog";
   "debugError"; "safeBN"; "inspect"; "getTokenInfo"; "findBestFeeTier"; "encodePath";
   "getDeadline"; "getGasPrice"; "toTokenUnits"; "fromTokenUnits"; "getEtherUnit";
   "checkForHoneypot"; "validatePancakeV3Pool"; "buyToken"; "sellToken";
   "buyTokenWithFeeTier"; "sellTokenWithFeeTier"].

Definition sellToken_scope : list string :=
  (["privateKey"; "tokenAddress"; "tokenAmount"; "slippagePercent"; "account";
    "walletAddress"; "tokenInfo"; "tokenAmountInUnits"; "tokenBalance"; "feeTier";
    "isPoolValid"; "path"; "expectedOutputAmount"; "usedFallback"; "amountOutMin"; "nonce";
    "recipient"; "deadline"; "gasPrice"; "swapParams"; "swapData"; "estimatedGas"; "tx"]
   ++ module_scope)%list.

Definition sellTokenWithFeeTier_scope : list string :=
  (["privateKey"; "tokenAddress"; "tokenAmount"; "slippagePercent"; "specificFeeTier";
    "account"; "walletAddress"; "tokenInfo"; "tokenContract"; "tokenAmountInUnits";
    "tokenBalance"; "feeTier"; "isPoolValid"; "path"; "expectedOutputAmount";
    "usedFallback"; "amountOutMin"; "nonce"; "recipient"; "deadline"; "gasPrice";
    "swapParams"; "swapData"; "estimatedGas"; "tx"]
   ++ module_scope)%list.

Definition resolve (scope : list string) (ident : string) : M unit :=
  if existsb (String.eqb ident) scope then mret tt else throw (ReferenceError ident).

(** ** [buyToken] (lines 532-796) *)

Definition buyToken (privateKey tokenAddress bnbAmount : string) (slippagePercent : float)
    : M string :=
  try_catchM
    (account ← lift (privateKeyToAccount w privateKey);
     wallet_add account;;
     let walletAddress := account in
     bnbBalance ← await (fun t => getBalance w t walletAddress);
     bnbAmountWei ← lift (try_catch (toWei w bnbAmount "ether")
                            (fun _ => Throw (JsError "Invalid BNB amount. Please provide a valid number.")));
     fromWei_in_log bnbBalance;;
     short ← lift (a ← toBN (JsString bnbBalance);
                   b ← toBN (JsString bnbAmountWei);
                   Ok (a <? b));
     if (short : bool) then throw (JsError "Insufficient BNB balance")
     else
       tokenInfo ← getTokenInfo tokenAddress;
       feeTier ← findBestFeeTier WBNB_ADDRESS tokenAddress;
       feeTier ← validOrAlternativeFeeTier tokenAddress feeTier;
       isHoneypot ← checkForHoneypot tokenAddress;
       if (isHoneypot : bool)
       then throw (JsError "This token appears to be a potential honeypot. Transaction aborted for your safety.")
       else
         path ← lift (encodePath [WBNB_ADDRESS; tokenAddress] [feeTier]);
         expectedOutputAmount ←
           expectedOutput (estimateFromPool_buy tokenInfo bnbAmountWei)
                          tokenAddress feeTier path bnbAmountWei;
         let amountOutMin := amountOutMin_guarded expectedOutputAmount slippagePercent in
         nonce ← getNextNonce walletAddress;
         executeSwap walletAddress path bnbAmountWei amountOutMin (Some bnbAmountWei) nonce)
    (cleanup_and_rethrow privateKey).

(** ** [sellToken] (lines 806-1094) *)

Definition sellToken (privateKey tokenAddress tokenAmount : string) (slippagePercent : float)
    : M string :=
  try_catchM
    (account ← lift (privateKeyToAccount w privateKey);
     wallet_add account;;
     let walletAddress := account in
     tokenInfo ← getTokenInfo tokenAddress;
     tokenAmountInUnits ←
       lift (try_catch (toTokenUnits (toWei w) tokenAmount (decimals tokenInfo))
               (fun _ => Throw (JsError "Invalid token amount. Please provide a valid number.")));
     resolve sellToken_scope "tokenContract";;
     tokenBalance ← await (fun t => erc20_balanceOf w t tokenAddress walletAddress);
     short ← lift (a ← toBN (JsString tokenBalance);
                   b ← toBN (JsString tokenAmountInUnits);
                   Ok (a <? b));
     if (short : bool) then throw (JsError "Insufficient token balance")
     else
       feeTier ← findBestFeeTier tokenAddress WBNB_ADDRESS;
       feeTier ← validOrAlternativeFeeTier tokenAddress feeTier;
       path ← lift (encodePath [tokenAddress; WBNB_ADDRESS] [feeTier]);
       expectedOutputAmount ←
         expectedOutput (estimateFromPool_sell tokenAddress tokenInfo tokenAmountInUnits)
                        tokenAddress feeTier path tokenAmountInUnits;
       let amountOutMin := amountOutMin_guarded expectedOutputAmount slippagePercent in
       fromWei_in_log expectedOutputAmount;;
       fromWei_in_log amountOutMin;;
       nonce ← getNextNonce walletAddress;
       resolve sellToken_scope "tokenContract";;
       nonce ← approveIfNeeded tokenAddress walletAddress tokenAmountInUnits nonce;
       executeSwap walletAddress path tokenAmountInUnits amountOutMin None nonce)
    (cleanup_and_rethrow privateKey).

(** ** [buyTokenWithFeeTier] (lines 1105-1324) *)

Definition buyTokenWithFeeTier (privateKey tokenAddress bnbAmount : string)
    (slippagePercent : float) (specificFeeTier : Z) : M string :=
  try_catchM
    (account ← lift (privateKeyToAccount w privateKey);
     wallet_add account;;
     let walletAddress := account in
     bnbBalance ← await (fun t => getBalance w t walletAddress);
     bnbAmountWei ← lift (toWei w bnbAmount "ether");
     fromWei_in_log bnbBalance;;
     short ← lift (a ← toBN (JsString bnbBalance);
                   b ← toBN (JsString bnbAmountWei);
                   Ok (a <? b));
     if (short : bool) then throw (JsError "Insufficient BNB balance")
     else
       tokenInfo ← getTokenInfo tokenAddress;
       let feeTier := specificFeeTier in
       isPoolValid ← validatePancakeV3Pool tokenAddress feeTier;
       if negb isPoolValid
       then throw (JsError "No valid PancakeSwap V3 pool with this fee tier found. Try using the auto-select option instead.")
       else
         isHoneypot ← checkForHoneypot tokenAddress;
         if (isHoneypot : bool)
         then throw (JsError "This token appears to be a potential honeypot. Transaction aborted for your safety.")
         else
           path ← lift (encodePath [WBNB_ADDRESS; tokenAddress] [feeTier]);
           expectedOutputAmount ←
             expectedOutput_pinned (estimateFromPool_buy tokenInfo bnbAmountWei)
                                   tokenAddress feeTier path bnbAmountWei;
           amountOutMin ← lift (amountOutMin_pinned expectedOutputAmount slippagePercent);
           nonce ← getNextNonce walletAddress;
           executeSwap walletAddress path bnbAmountWei amountOutMin (Some bnbAmountWei) nonce)
    (cleanup_and_rethrow privateKey).

(** ** [sellTokenWithFeeTier] (lines 1335-1578) *)

Definition sellTokenWithFeeTier (privateKey tokenAddress tokenAmount : string)
    (slippagePercent : float) (specificFeeTier : Z) : M string :=
  try_catchM
    (account ← lift (privateKeyToAccount w privateKey);
     wallet_add account;;
     let walletAddress := account in
     tokenInfo ← getTokenInfo tokenAddress;
     newContract tokenAddress;;
     tokenAmountInUnits ← lift (toTokenUnits (toWei w) tokenAmount (decimals tokenInfo));
     resolve sellTokenWithFeeTier_scope "tokenContract";;
     tokenBalance ← await (fun t => erc20_balanceOf w t tokenAddress walletAddress);
     short ← lift (a ← toBN (JsString tokenBalance);
                   b ← toBN (JsString tokenAmountInUnits);
                   Ok (a <? b));
     if (short : bool) then throw (JsError "Insufficient token balance")
     else
       let feeTier := specificFeeTier in
       isPoolValid ← validatePancakeV3Pool tokenAddress feeTier;
       if negb isPoolValid
       then throw (JsError "No valid PancakeSwap V3 pool with this fee tier found. Try using the auto-select option instead.")
       else
         path ← lift (encodePath [tokenAddress; WBNB_ADDRESS] [feeTier]);
         expectedOutputAmount ←
           expectedOutput_pinned (estimateFromPool_sell tokenAddress tokenInfo tokenAmountInUnits)
                                 tokenAddress feeTier path tokenAmountInUnits;
         amountOutMin ← lift (amountOutMin_pinned expectedOutputAmount slippagePercent);
         fromWei_in_log expectedOutputAmount;;
         fromWei_in_log amountOutMin;;
         nonce ← getNextNonce walletAddress;
         resolve sellTokenWithFeeTier_scope "tokenContract";;
         nonce ← approveIfNeeded tokenAddress walletAddress tokenAmountInUnits nonce;
         executeSwap walletAddress path tokenAmountInUnits amountOutMin None nonce)
    (cleanup_and_rethrow privateKey).

End Engine.

(** ** Vocabulary of the statements *)

(** The amount [whole.frac] in units of [10^-decimals], rounded down: the
    number that "truncate, never round" denotes. *)
Definition truncated_base_units (whole frac : string) (decimals : nat) : Z :=
  (decimal_value whole * 10 ^ Z.of_nat (String.length frac) + decimal_value frac)
  * 10 ^ Z.of_nat decimals / 10 ^ Z.of_nat (String.length frac).

(** A cached nonce never goes back, and never disappears. *)
Definition cache_le (before after : option Z) : Prop :=
  match before, after with
  | None, _ => True
  | Some x, Some y => x <= y
  | Some _, None => False
  end.

(** Sequential calls of [getNextNonce], one per listed address: for each call
    the address, the number of its first request, and what it returned. *)
Fixpoint nonce_calls (w : World) (addresses : list string) (s : State)
    : list (string * nat * Outcome Z) :=
  match addresses with
  | [] => []
  | a :: rest =>
      (a, clock s, fst (run (getNextNonce w a) s))
      :: nonce_calls w rest (snd (run (getNextNonce w a) s))
  end.

(** An ABI coder for the nodes of the examples: the call data of
    [exactInput((bytes,address,uint256,uint256,uint256))], a tuple with one
    dynamic member.  It refuses a path that is not ["0x"] and an even number
    of hex digits, a recipient that is not ["0x"] and forty hex digits, and
    amounts that are not unsigned decimal integers below 2^256. *)
Definition abi_word (n : Z) : string := padStart 64 (toString16 n).

Definition is_uint256 (text : string) : bool :=
  negb (String.eqb text "") && all_chars is_digit text && (decimal_value text <? 2 ^ 256).

Definition example_encodeABI (p : SwapParams) : Outcome string :=
  let bytes := drop 2 (path p) in
  if String.prefix "0x" (path p) && all_chars is_hex bytes
     && Nat.even (String.length bytes)
     && String.prefix "0x" (recipient p) && is_address_shape (recipient p)
     && is_uint256 (amountIn p) && is_uint256 (amountOutMinimum p)
  then Ok ("0xc04b8d59" ++ abi_word 32 ++ abi_word 160
           ++ padStart 64 (map_chars to_lower (drop 2 (recipient p)))
           ++ abi_word (deadline p)
           ++ abi_word (decimal_value (amountIn p))
           ++ abi_word (decimal_value (amountOutMinimum p))
           ++ abi_word (Z.of_nat (String.length bytes) / 2)
           ++ map_chars to_lower bytes
           ++ zeros ((64 - String.length bytes mod 64) mod 64))
  else Throw (LibError "invalid arguments").

(** A node that answers nothing; no key and no address is accepted. *)
Definition offline : World :=
  let down {A} : Outcome A := Throw (LibError "connection refused") in
  {| privateKeyToAccount := fun _ => down;
     isAddress := fun _ => false;
     toChecksumAddress := eip55_toChecksumAddress;
     toWei := ethjs_toWei;
     Date_now := 0;
     getBalance := fun _ _ => down;
     getTransactionCount := fun _ _ => down;
     getCode := fun _ _ => down;
     getGasPrice := fun _ => down;
     erc20_symbol := fun _ _ => down;
     erc20_name := fun _ _ => down;
     erc20_decimals := fun _ _ => down;
     erc20_totalSupply := fun _ _ => down;
     erc20_balanceOf := fun _ _ _ => down;
     erc20_allowance := fun _ _ _ _ => down;
     erc20_approve := fun _ _ => down;
     factory_getPool := fun _ _ _ _ => down;
     pool_liquidity := fun _ _ => down;
     pool_slot0 := fun _ _ => down;
     quoter_quoteExactInput := fun _ _ _ => down;
     exactInput_encodeABI := example_encodeABI;
     router_estimateGas := fun _ _ _ _ => down;
     sendTransaction := fun _ _ => down |}.

(** The pending nonce is 5; the second request fails, the others succeed. *)
Definition flaky_nonce_world : World :=
  {| privateKeyToAccount := privateKeyToAccount offline;
     isAddress := isAddress offline;
     toChecksumAddress := toChecksumAddress offline;
     toWei := toWei offline;
     Date_now := Date_now offline;
     getBalance := getBalance offline;
     getTransactionCount := fun t _ =>
       match t with
       | 1%nat => Throw (LibError "timeout")
       | _ => Ok 5
       end;
     getCode := getCode offline;
     getGasPrice := getGasPrice offline;
     erc20_symbol := erc20_symbol offline;
     erc20_name := erc20_name offline;
     erc20_decimals := erc20_decimals offline;
     erc20_totalSupply := erc20_totalSupply offline;
     erc20_balanceOf := erc20_balanceOf offline;
     erc20_allowance := erc20_allowance offline;
     erc20_approve := erc20_approve offline;
     factory_getPool := factory_getPool offline;
     pool_liquidity := pool_liquidity offline;
     pool_slot0 := pool_slot0 offline;
     quoter_quoteExactInput := quoter_quoteExactInput offline;
     exactInput_encodeABI := exactInput_encodeABI offline;
     router_estimateGas := router_estimateGas offline;
     sendTransaction := sendTransaction offline |}.

(** A computation that hands no transaction to the node. *)
Definition quiet {A} (m : M A) : Prop :=
  forall s, submitted (snd (run m s)) = submitted s.

(** A computation that always raises and hands no transaction to the node. *)
Definition aborts {A} (m : M A) : Prop :=
  forall s, (exists e, fst (run m s) = Throw e) /\ submitted (snd (run m s)) = submitted s.

(** A computation that never raises. *)
Definition total {A} (m : M A) : Prop :=
  forall s, exists a, fst (run m s) = Ok a.

(** A node and a wallet on which an order goes through: the key opens an
    account holding one BNB and five units of a nine-decimal token, the pair
    has a well-funded pool at every fee tier, the quoter answers, and the code
    of the token contains the three strings that [checkForHoneypot] looks
    for. *)
Definition TOKEN : string := "0xF8A0BF9cF54Bb92F17374d9e9A321E6a111a51bD".

Definition live_world : World :=
  {| privateKeyToAccount := fun _ => Ok "0x1111111111111111111111111111111111111111";
     isAddress := is_address_shape;
     toChecksumAddress := eip55_toChecksumAddress;
     toWei := ethjs_toWei;
     Date_now := 1700000000000;
     getBalance := fun _ _ => Ok "1000000000000000000";
     getTransactionCount := fun _ _ => Ok 7;
     getCode := fun _ _ => Ok "0x6080604052 owner blacklist swap";
     getGasPrice := fun _ => Ok "3000000000";
     erc20_symbol := fun _ _ => Ok "TKN";
     erc20_name := fun _ _ => Ok "Token";
     erc20_decimals := fun _ _ => Ok 9%nat;
     erc20_totalSupply := fun _ _ => Ok "1000000000000000";
     erc20_balanceOf := fun _ _ _ => Ok "5000000000";
     erc20_allowance := fun _ _ _ _ => Ok "5000000000";
     erc20_approve := fun _ _ => Ok "0xa";
     factory_getPool := fun _ _ _ _ => Ok "0x2222222222222222222222222222222222222222";
     pool_liquidity := fun _ _ => Ok "5000000000";
     pool_slot0 := fun _ _ => Ok {| sqrtPriceX96 := "79228162514264337593543950336" |};
     quoter_quoteExactInput := fun _ _ _ => Ok (QuoteObject (Some "7000000"));
     exactInput_encodeABI := example_encodeABI;
     router_estimateGas := fun _ _ _ _ => Ok 210000%float;
     sendTransaction := fun _ _ => Ok "0xb" |}.

(** [live_world] with a token contract that does not answer
    [totalSupply]. *)
Definition supply_down_world : World :=
  {| privateKeyToAccount := privateKeyToAccount live_world;
     isAddress := isAddress live_world;
     toChecksumAddress := toChecksumAddress live_world;
     toWei := toWei live_world;
     Date_now := Date_now live_world;
     getBalance := getBalance live_world;
     getTransactionCount := getTransactionCount live_world;
     getCode := getCode live_world;
     getGasPrice := getGasPrice live_world;
     erc20_symbol := erc20_symbol live_world;
     erc20_name := erc20_name live_world;
     erc20_decimals := erc20_decimals live_world;
     erc20_totalSupply := fun _ _ => Throw (LibError "execution reverted");
     erc20_balanceOf := erc20_balanceOf live_world;
     erc20_allowance := erc20_allowance live_world;
     erc20_approve := erc20_approve live_world;
     factory_getPool := factory_getPool live_world;
     pool_liquidity := pool_liquidity live_world;
     pool_slot0 := pool_slot0 live_world;
     quoter_quoteExactInput := quoter_quoteExactInput live_world;
     exactInput_encodeABI := exactInput_encodeABI live_world;
     router_estimateGas := router_estimateGas live_world;
     sendTransaction := sendTransaction live_world |}.


(** [live_world] with plain bytecode for the token, and a connection that
    is lost after the ninth answer: from then on the quoter and the factory
    time out. *)
Definition dropping_world : World :=
  {| privateKeyToAccount := privateKeyToAccount live_world;
     isAddress := isAddress live_world;
     toChecksumAddress := toChecksumAddress live_world;
     toWei := toWei live_world;
     Date_now := Date_now live_world;
     getBalance := getBalance live_world;
     getTransactionCount := getTransactionCount live_world;
     getCode := fun _ _ => Ok "0x6080604052600436106100";
     getGasPrice := getGasPrice live_world;
     erc20_symbol := erc20_symbol live_world;
     erc20_name := erc20_name live_world;
     erc20_decimals := erc20_decimals live_world;
     erc20_totalSupply := erc20_totalSupply live_world;
     erc20_balanceOf := erc20_balanceOf live_world;
     erc20_allowance := erc20_allowance live_world;
     erc20_approve := erc20_approve live_world;
     factory_getPool := fun t tokenA tokenB fee =>
       if (t <? 9)%nat then factory_getPool live_world t tokenA tokenB fee
       else Throw (LibError "timeout");
     pool_liquidity := pool_liquidity live_world;
     pool_slot0 := pool_slot0 live_world;
     quoter_quoteExactInput := fun t route amount =>
       if (t <? 9)%nat then quoter_quoteExactInput live_world t route amount
       else Throw (LibError "timeout");
     exactInput_encodeABI := exactInput_encodeABI live_world;
     router_estimateGas := router_estimateGas live_world;
     sendTransaction := sendTransaction live_world |}.

(** The verdict of the heuristic on deployed bytecode, lines 449 and 455. *)
Definition flagged (code : string) : bool :=
  (50000 <? Z.of_nat (String.length code))
  || (includes "owner" code && includes "blacklist" code && includes "swap" code).

(** What [buyToken] does before it runs the heuristic, lines 533-587: the
    key, the balance, the token and the fee tier.  It returns the account,
    the amount in wei, the token's details and the tier. *)
Definition buyToken_screening (w : World) (privateKey tokenAddress bnbAmount : string)
    : M (string * string * TokenInfo * Z) :=
  account ← lift (privateKeyToAccount w privateKey);
  wallet_add account;;
  let walletAddress := account in
  bnbBalance ← await (fun t => getBalance w t walletAddress);
  bnbAmountWei ← lift (try_catch (toWei w bnbAmount "ether")
                         (fun _ => Throw (JsError "Invalid BNB amount. Please provide a valid number.")));
  fromWei_in_log bnbBalance;;
  short ← lift (a ← toBN (JsString bnbBalance);
                b ← toBN (JsString bnbAmountWei);
                Ok (a <? b));
  if (short : bool) then throw (JsError "Insufficient BNB balance")
  else
    tokenInfo ← getTokenInfo w tokenAddress;
    feeTier ← findBestFeeTier w WBNB_ADDRESS tokenAddress;
    feeTier ← validOrAlternativeFeeTier w tokenAddress feeTier;
    mret (account, bnbAmountWei, tokenInfo, feeTier).

(** The same for [buyTokenWithFeeTier], lines 1109-1139. *)
Definition buyTokenWithFeeTier_screening (w : World)
    (privateKey tokenAddress bnbAmount : string) (specificFeeTier : Z)
    : M (string * string * TokenInfo * Z) :=
  account ← lift (privateKeyToAccount w privateKey);
  wallet_add account;;
  let walletAddress := account in
  bnbBalance ← await (fun t => getBalance w t walletAddress);
  bnbAmountWei ← lift (toWei w bnbAmount "ether");
  fromWei_in_log bnbBalance;;
  short ← lift (a ← toBN (JsString bnbBalance);
                b ← toBN (JsString bnbAmountWei);
                Ok (a <? b));
  if (short : bool) then throw (JsError "Insufficient BNB balance")
  else
    tokenInfo ← getTokenInfo w tokenAddress;
    let feeTier := specificFeeTier in
    isPoolValid ← validatePancakeV3Pool w tokenAddress feeTier;
    if negb isPoolValid
    then throw (JsError "No valid PancakeSwap V3 pool with this fee tier found. Try using the auto-select option instead.")
    else mret (account, bnbAmountWei, tokenInfo, feeTier).




(** A pool at every tier, named after the tier, with liquidity 0, 500, 1200
    and 300. *)
Definition four_pools_world : World :=
  {| privateKeyToAccount := privateKeyToAccount offline;
     isAddress := isAddress offline;
     toChecksumAddress := toChecksumAddress offline;
     toWei := toWei offline;
     Date_now := Date_now offline;
     getBalance := getBalance offline;
     getTransactionCount := getTransactionCount offline;
     getCode := getCode offline;
     getGasPrice := getGasPrice offline;
     erc20_symbol := erc20_symbol offline;
     erc20_name := erc20_name offline;
     erc20_decimals := erc20_decimals offline;
     erc20_totalSupply := erc20_totalSupply offline;
     erc20_balanceOf := erc20_balanceOf offline;
     erc20_allowance := erc20_allowance offline;
     erc20_approve := erc20_approve offline;
     factory_getPool := fun _ _ _ fee =>
       Ok (if fee =? FEE_TIERS_LOWEST then "0x0000000000000000000000000000000000000001"
           else if fee =? FEE_TIERS_LOW then "0x0000000000000000000000000000000000000002"
           else if fee =? FEE_TIERS_MEDIUM then "0x0000000000000000000000000000000000000003"
           else "0x0000000000000000000000000000000000000004");
     pool_liquidity := fun _ poolAddress =>
       Ok (if String.eqb poolAddress "0x0000000000000000000000000000000000000001" then "0"
           else if String.eqb poolAddress "0x0000000000000000000000000000000000000002" then "500"
           else if String.eqb poolAddress "0x0000000000000000000000000000000000000003" then "1200"
           else "300");
     pool_slot0 := pool_slot0 offline;
     quoter_quoteExactInput := quoter_quoteExactInput offline;
     exactInput_encodeABI := exactInput_encodeABI offline;
     router_estimateGas := router_estimateGas offline;
     sendTransaction := sendTransaction offline |}.


(** The double nearest to [bps / 100]: what [parseFloat] makes of a slippage
    percentage written with two decimals. *)
Definition percent_of_basis_points (bps : Z) : float :=
  (PrimFloat.of_uint63 (Uint63.of_Z bps) / 100)%float.

(** Basis points, from 10 to 10000, at which the slippage factor that
    [safeBN] extracts is not [10000 - bps]. *)
Definition basis_points_off : list Z :=
  List.filter
    (fun bps => negb (safeBN (JsNumber (slippageFactor (percent_of_basis_points bps)))
                      =? 10000 - bps))
    (map Z.of_nat (seq 10 (Z.to_nat 9991))).

(** A decimal amount written canonically: a whole part without superfluous
    leading zeros, and either no fraction or a fraction that does not end in
    a zero. *)
Fixpoint ends_nonzero (s : string) : bool :=
  match s with
  | EmptyString => false
  | String c EmptyString => negb (Ascii.eqb c "0")
  | String _ s' => ends_nonzero s'
  end.

Definition canonical_whole (s : string) : bool :=
  String.eqb s "0"
  || (all_chars is_digit s
      && match s with String c _ => negb (Ascii.eqb c "0") | EmptyString => false end).

Definition canonical_fraction (s : string) : bool :=
  String.eqb s EmptyString || (all_chars is_digit s && ends_nonzero s).

Definition decimal_text (whole frac : string) : string :=
  if String.eqb frac EmptyString then whole else whole ++ "." ++ frac.

(** ** Vocabulary of the further properties *)

(** What follows ["0x"] in an encoded path. *)
Definition path_body (tokenAddresses : list string) (fees : list Z) : string :=
  encodeHops tokenAddresses fees ++ drop 2 (List.last tokenAddresses EmptyString).

Definition starts_nonspace (s : string) : bool :=
  match s with
  | EmptyString => true
  | String c _ => negb (is_space c)
  end.

(** A computation that leaves the nonce cache as it was. *)
Definition keeps_cache {A} (m : M A) : Prop :=
  forall s, nonceCache (snd (run m s)) = nonceCache s.

(** What a computation hands to the node, with what it returns: [Q] holds of
    the outcome and of the transactions added, in order. *)
Definition emits {A} (Q : Outcome A -> list Submission -> Prop) (m : M A) : Prop :=
  forall s, exists l,
    submitted (snd (run m s)) = (submitted s ++ l)%list /\ Q (fst (run m s)) l.

(** A computation after whose normal return [account] is not in the wallet. *)
Definition returns_without {A} (account : string) (m : M A) : Prop :=
  forall s, is_ok (fst (run m s)) = true -> account ∉ wallet (snd (run m s)).

(** The swap that [executeSwap] builds. *)
Definition swap_transaction (w : World) (walletAddress path amountIn amountOutMin : string)
    (value : option string) (nonce : Z) (gasPrice : string) (estimatedGas : float)
    : Transaction :=
  {| tx_from := walletAddress; tx_to := PANCAKESWAP_ROUTER_ADDRESS;
     tx_data := {| path := path; recipient := walletAddress;
                   deadline := Date_now w / 1000 + 60 * 20;
                   amountIn := amountIn; amountOutMinimum := amountOutMin |};
     tx_value := value;
     tx_gas := Math_floor (estimatedGas * 0x1.199999999999ap+0)%float;
     tx_gasPrice := gasPrice; tx_nonce := nonce |}.

(** [MAX_UINT256] of [utils/constants.js]. *)
Definition MAX_UINT256 : string :=
  "115792089237316195423570985008687907853269984665640564039457584007913129639935".

(** A swap of [amount] along [route], sent by [account] to the router with
    [value] attached, paid out to [account], to be mined within twenty
    minutes of [Date.now()]. *)
Definition swap_by (w : World) (account route amount : string) (value : option string)
    (tx : Transaction) : Prop :=
  tx_from tx = account /\ tx_to tx = PANCAKESWAP_ROUTER_ADDRESS /\ tx_value tx = value /\
  path (tx_data tx) = route /\ recipient (tx_data tx) = account /\
  amountIn (tx_data tx) = amount /\
  deadline (tx_data tx) = Date_now w / 1000 + 60 * 20.

(** The balance that [read] reports covers [amount], respectively falls
    short of it, as integers. *)
Definition covered (read : nat -> Outcome string) (amount : string) : Prop :=
  exists t balance held asked,
    read t = Ok balance /\ toBN (JsString balance) = Ok held /\
    toBN (JsString amount) = Ok asked /\ asked <= held.

Definition short_of (read : nat -> Outcome string) (amount : string) : Prop :=
  exists t balance held asked,
    read t = Ok balance /\ toBN (JsString balance) = Ok held /\
    toBN (JsString amount) = Ok asked /\ held < asked.

(** Validation has answered [true] for the token's pool at [fee]; the
    heuristic has answered [false] for the token. *)
Definition validated (w : World) (tokenAddress : string) (fee : Z) : Prop :=
  exists s, fst (run (validatePancakeV3Pool w tokenAddress fee) s) = Ok true.

Definition cleared (w : World) (tokenAddress : string) : Prop :=
  exists s, fst (run (checkForHoneypot w tokenAddress) s) = Ok false.

(** Every swap of [l] asks for a minimum output that satisfies [minimum]. *)
Definition swaps_ask (minimum : string -> Prop) (l : list Submission) : Prop :=
  forall tx, In (SubmitSwap tx) l -> minimum (amountOutMinimum (tx_data tx)).

(** The quoter answers every request with an object whose [amountOut] is
    [amountOut]. *)
Definition quotes (w : World) (amountOut : string) : Prop :=
  forall t route amount,
    quoter_quoteExactInput w t route amount = Ok (QuoteObject (Some amountOut)).

(** [expected] is an expected output that the quoting block of [buyToken],
    respectively of the tier-pinned entry points, has returned for the
    token. *)
Definition quoted (w : World) (tokenAddress expected : string) : Prop :=
  exists estimate fee route amount s,
    fst (run (expectedOutput w estimate tokenAddress fee route amount) s) = Ok expected.

Definition quoted_pinned (w : World) (tokenAddress expected : string) : Prop :=
  exists estimate fee route amount s,
    fst (run (expectedOutput_pinned w estimate tokenAddress fee route amount) s)
    = Ok expected.

(** What [buyToken] and [buyTokenWithFeeTier] may hand to the node: nothing,
    and then they raise; or one swap of the requested BNB, in wei, along the
    path from WBNB to the token at an allowed fee tier, with all that was
    established on the way to it. *)
Definition buy_emission (w : World) (privateKey tokenAddress bnbAmount : string)
    (allowed : Z -> Prop) (outcome : Outcome string) (l : list Submission) : Prop :=
  (l = [] /\ is_ok outcome = false) \/
  exists tx account wei fee route,
    l = [SubmitSwap tx] /\
    privateKeyToAccount w privateKey = Ok account /\
    toWei w bnbAmount "ether" = Ok wei /\
    allowed fee /\
    encodePath [WBNB_ADDRESS; tokenAddress] [fee] = Ok route /\
    swap_by w account route wei (Some wei) tx /\
    (exists t, outcome = sendTransaction w t tx) /\
    covered (fun t => getBalance w t account) wei /\
    validated w tokenAddress fee /\
    cleared w tokenAddress.

(** The approval that [approveIfNeeded] builds. *)
Definition approval_request (tokenAddress walletAddress : string) (nonce : Z)
    (gasPrice : string) : Approval :=
  {| ap_token := tokenAddress; ap_spender := PANCAKESWAP_ROUTER_ADDRESS;
     ap_amount := BN_toString (2 ^ 256 - 1); ap_from := walletAddress;
     ap_gas := 200000; ap_gasPrice := gasPrice; ap_nonce := nonce |}.

(** An approval by [account] that lets the router spend any amount of the
    token. *)
Definition unlimited_approval (tokenAddress account : string) (ap : Approval) : Prop :=
  ap_token ap = tokenAddress /\ ap_spender ap = PANCAKESWAP_ROUTER_ADDRESS /\
  ap_amount ap = MAX_UINT256 /\ ap_from ap = account /\ ap_gas ap = 200000.

(** What [sellTokenWithFeeTier] may hand to the node: nothing, and then it
    raises; an approval alone, and then it raises; a swap of the requested
    amount, in base units; or an approval and then that swap, the swap under
    the nonce that follows the approval's. *)
Definition sell_emission (w : World) (privateKey tokenAddress tokenAmount : string)
    (fee : Z) (outcome : Outcome string) (l : list Submission) : Prop :=
  (l = [] /\ is_ok outcome = false) \/
  exists account units route decimals,
    privateKeyToAccount w privateKey = Ok account /\
    toTokenUnits (toWei w) tokenAmount decimals = Ok units /\
    encodePath [tokenAddress; WBNB_ADDRESS] [fee] = Ok route /\
    ((exists ap,
        l = [SubmitApproval ap] /\ unlimited_approval tokenAddress account ap /\
        is_ok outcome = false) \/
     (exists tx,
        l = [SubmitSwap tx] /\ swap_by w account route units None tx /\
        exists t, outcome = sendTransaction w t tx) \/
     (exists ap tx,
        l = [SubmitApproval ap; SubmitSwap tx] /\
        unlimited_approval tokenAddress account ap /\
        swap_by w account route units None tx /\
        tx_nonce tx = ap_nonce ap + 1 /\
        exists t, outcome = sendTransaction w t tx)).

(** What was established before [sellTokenWithFeeTier] handed anything to
    the node: the balance covered the amount and the pool validated; an
    approval was sent because the allowance fell short of the amount, a swap
    without approval because the allowance covered it. *)
Definition sell_checks (w : World) (privateKey tokenAddress tokenAmount : string)
    (fee : Z) (l : list Submission) : Prop :=
  l = [] \/
  exists account units decimals,
    privateKeyToAccount w privateKey = Ok account /\
    toTokenUnits (toWei w) tokenAmount decimals = Ok units /\
    covered (fun t => erc20_balanceOf w t tokenAddress account) units /\
    validated w tokenAddress fee /\
    let allowance t :=
      erc20_allowance w t tokenAddress account PANCAKESWAP_ROUTER_ADDRESS in
    ((exists ap, l = [SubmitApproval ap] /\ short_of allowance units) \/
     (exists tx, l = [SubmitSwap tx] /\ covered allowance units) \/
     (exists ap tx, l = [SubmitApproval ap; SubmitSwap tx] /\ short_of allowance units)).

(** [live_world] with other bytecode for the token, another allowance for
    the router, and another answer to the gas estimate. *)
Definition live_world_with (code allowance : string) (estimate : Outcome float) : World :=
  {| privateKeyToAccount := privateKeyToAccount live_world;
     isAddress := isAddress live_world;
     toChecksumAddress := toChecksumAddress live_world;
     toWei := toWei live_world;
     Date_now := Date_now live_world;
     getBalance := getBalance live_world;
     getTransactionCount := getTransactionCount live_world;
     getCode := fun _ _ => Ok code;
     getGasPrice := getGasPrice live_world;
     erc20_symbol := erc20_symbol live_world;
     erc20_name := erc20_name live_world;
     erc20_decimals := erc20_decimals live_world;
     erc20_totalSupply := erc20_totalSupply live_world;
     erc20_balanceOf := erc20_balanceOf live_world;
     erc20_allowance := fun _ _ _ _ => Ok allowance;
     erc20_approve := erc20_approve live_world;
     factory_getPool := factory_getPool live_world;
     pool_liquidity := pool_liquidity live_world;
     pool_slot0 := pool_slot0 live_world;
     quoter_quoteExactInput := quoter_quoteExactInput live_world;
     exactInput_encodeABI := exactInput_encodeABI live_world;
     router_estimateGas := fun _ _ _ _ => estimate;
     sendTransaction := sendTransaction live_world |}.

(** Deployed bytecode as the node reports it: ["0x"] and hex digits. *)
Definition is_bytecode (code : string) : bool :=
  String.prefix "0x" code && all_chars is_hex (drop 2 code).

(** What validation answers for a fee tier on a node whose answers do not
    change: its answer from the first state. *)
Definition pool_valid (w : World) (tokenAddress : string) (fee : Z) : bool :=
  match fst (run (validatePancakeV3Pool w tokenAddress fee) initial_state) with
  | Ok valid => valid
  | Throw _ => false
  end.

(** A computation that changes the nonce cache at most at [account]. *)
Definition touches_only {A} (account : string) (m : M A) : Prop :=
  forall s address,
    address <> account -> nonceCache (snd (run m s)) !! address = nonceCache s !! address.
(** * Numerals *)

Section Numerals.

Lemma append_cons (c : ascii) (s t : string) : String c s ++ t = String c (s ++ t).
Proof. reflexivity. Qed.

Lemma append_nil_r (s : string) : s ++ "" = s.
Proof. induction s as [| c s IH]; [reflexivity | rewrite append_cons, IH; reflexivity]. Qed.

Lemma append_assoc (s t u : string) : (s ++ t) ++ u = s ++ (t ++ u).
Proof.
  induction s as [| c s IH]; [reflexivity |]. rewrite !append_cons, IH. reflexivity.
Qed.

Lemma length_append (s t : string) :
  String.length (s ++ t) = (String.length s + String.length t)%nat.
Proof.
  induction s as [| c s IH]; [reflexivity |]. rewrite append_cons. simpl. now rewrite IH.
Qed.

Lemma is_digit_cases (c : ascii) :
  is_digit c = true ->
  hex_value c = Some (Z.of_nat (nat_of_ascii c) - 48) /\
  0 <= Z.of_nat (nat_of_ascii c) - 48 < 10 /\
  digit_char (Z.of_nat (nat_of_ascii c) - 48) = c /\
  to_lower c = c /\ is_space c = false /\ is_hex c = true /\
  Ascii.eqb c "." = false /\ Ascii.eqb c "-" = false /\ Ascii.eqb c "x" = false.
Proof.
  destruct c as [[] [] [] [] [] [] [] []]; intros H; try discriminate H;
    vm_compute; repeat split; congruence.
Qed.

Lemma digit_char_is_digit (d : Z) :
  0 <= d < 10 -> is_digit (digit_char d) = true /\ hex_value (digit_char d) = Some d.
Proof.
  intros H.
  assert (d = 0 \/ d = 1 \/ d = 2 \/ d = 3 \/ d = 4 \/ d = 5 \/ d = 6 \/ d = 7 \/ d = 8 \/ d = 9)
    as Hd by lia.
  repeat (destruct Hd as [-> | Hd]; [vm_compute; split; reflexivity |]).
  subst d. vm_compute. split; reflexivity.
Qed.

Lemma numeral_acc_app (b acc : Z) (s1 s2 : string) :
  numeral_acc b acc (s1 ++ s2) = numeral_acc b (numeral_acc b acc s1) s2.
Proof.
  revert acc. induction s1 as [| c s1 IH]; intros acc; simpl; [reflexivity | apply IH].
Qed.

Lemma numeral_acc_shift (b acc : Z) (s : string) :
  numeral_acc b acc s = acc * b ^ Z.of_nat (String.length s) + numeral_acc b 0 s.
Proof.
  revert acc. induction s as [| c s IH]; intros acc.
  - simpl. lia.
  - cbn [numeral_acc String.length]. rewrite IH, (IH (0 * b + _)).
    rewrite Nat2Z.inj_succ, Z.pow_succ_r by lia. ring.
Qed.

Lemma decimal_value_bounds (s : string) :
  all_chars is_digit s = true ->
  0 <= decimal_value s < 10 ^ Z.of_nat (String.length s).
Proof.
  unfold decimal_value. induction s as [| c s IH]; intros H.
  - simpl. lia.
  - cbn [all_chars] in H. apply andb_true_iff in H as [Hc Hs].
    destruct (is_digit_cases c Hc) as (Hv & Hr & _).
    cbn [numeral_acc String.length]. rewrite numeral_acc_shift, Hv.
    specialize (IH Hs). rewrite Nat2Z.inj_succ, Z.pow_succ_r by lia.
    nia.
Qed.

Lemma digits_fuel (b : Z) (chr : Z -> ascii) (f f' : nat) (n : Z) :
  2 <= b -> n < 2 ^ Z.of_nat f -> n < 2 ^ Z.of_nat f' ->
  digits b chr f n = digits b chr f' n.
Proof.
  intros Hb. revert f' n. induction f as [| f IH]; intros f' n Hf Hf'.
  - simpl in Hf. destruct f' as [| f']; [reflexivity |].
    simpl. destruct (Z.leb_spec n 0); [reflexivity | lia].
  - destruct f' as [| f'].
    + simpl in Hf'. simpl. destruct (Z.leb_spec n 0); [reflexivity | lia].
    + cbn [digits]. destruct (Z.leb_spec n 0) as [| Hpos]; [reflexivity |].
      rewrite Nat2Z.inj_succ, Z.pow_succ_r in Hf, Hf' by lia.
      assert (n / b <= n / 2) by (apply Z.div_le_compat_l; lia).
      assert (n / 2 < 2 ^ Z.of_nat f) by (apply Z.div_lt_upper_bound; lia).
      assert (n / 2 < 2 ^ Z.of_nat f') by (apply Z.div_lt_upper_bound; lia).
      rewrite (IH f' (n / b)) by lia. reflexivity.
Qed.

Lemma log2_fuel (n : Z) : n < 2 ^ Z.of_nat (S (Z.to_nat (Z.log2 n))).
Proof.
  destruct (Z.leb_spec n 0) as [Hn | Hn].
  - assert (0 < 2 ^ Z.of_nat (S (Z.to_nat (Z.log2 n)))) by (apply Z.pow_pos_nonneg; lia). lia.
  - pose proof (Z.log2_spec n Hn) as [_ H]. pose proof (Z.log2_nonneg n).
    rewrite Nat2Z.inj_succ, Z2Nat.id by lia. exact H.
Qed.

Lemma digits_of_zero (b : Z) (chr : Z -> ascii) : digits_of b chr 0 = EmptyString.
Proof. reflexivity. Qed.

Lemma digits_of_step (b : Z) (chr : Z -> ascii) (a d : Z) :
  2 <= b -> 0 <= a -> 0 <= d < b -> 0 < a * b + d ->
  digits_of b chr (a * b + d) = digits_of b chr a ++ String (chr d) EmptyString.
Proof.
  intros Hb Ha Hd Hpos. unfold digits_of at 1. cbn [digits].
  destruct (Z.leb_spec (a * b + d) 0); [lia |].
  replace ((a * b + d) / b) with a by (apply Z.div_unique with d; lia).
  replace ((a * b + d) mod b) with d by (apply Z.mod_unique with a; lia).
  f_equal. unfold digits_of. apply digits_fuel; [lia | | apply log2_fuel].
  pose proof (Z.log2_spec _ Hpos) as [Hlo _]. pose proof (Z.log2_nonneg (a * b + d)).
  rewrite Z2Nat.id by lia.
  destruct (Z.eq_dec a 0) as [-> | Hne].
  - assert (0 < 2 ^ Z.log2 (0 * b + d)) by (apply Z.pow_pos_nonneg; lia). lia.
  - pose proof (log2_fuel (a * b + d)) as Hhi.
    rewrite Nat2Z.inj_succ, Z2Nat.id, Z.pow_succ_r in Hhi by lia. nia.
Qed.

Lemma digits_of_numeral (s : string) (acc : Z) :
  all_chars is_digit s = true -> 0 <= acc ->
  digits_of 10 digit_char (numeral_acc 10 acc s) =
  if acc =? 0 then strip_leading_zeros s else digits_of 10 digit_char acc ++ s.
Proof.
  revert acc. induction s as [| c s IH]; intros acc Hs Hacc.
  - cbn [numeral_acc strip_leading_zeros]. destruct (Z.eqb_spec acc 0) as [-> | _].
    + reflexivity.
    + symmetry. apply append_nil_r.
  - cbn [all_chars] in Hs. apply andb_true_iff in Hs as [Hc Hs].
    destruct (is_digit_cases c Hc) as (Hv & Hr & Hchr & _).
    cbn [numeral_acc]. rewrite Hv. set (d := Z.of_nat (nat_of_ascii c) - 48) in *.
    rewrite IH by (trivial; lia).
    destruct (Z.eqb_spec acc 0) as [-> | Hne].
    + replace (0 * 10 + d) with d by lia.
      destruct (Z.eqb_spec d 0) as [Hd0 | Hd0].
      * assert (c = "0"%char) as -> by (rewrite <- Hchr, Hd0; reflexivity). reflexivity.
      * replace (digits_of 10 digit_char d) with (String c EmptyString).
        -- assert (c <> "0"%char) as Hc0 by (intros ->; apply Hd0; reflexivity).
           clear -Hc0. rewrite append_cons.
           destruct c as [[] [] [] [] [] [] [] []]; try reflexivity. congruence.
        -- replace d with (0 * 10 + d) at 1 by lia.
           rewrite digits_of_step, Hchr by lia. reflexivity.
    + destruct (Z.eqb_spec (acc * 10 + d) 0); [lia |].
      rewrite digits_of_step, Hchr by lia. rewrite append_assoc. reflexivity.
Qed.

Lemma digits_all_digit (f : nat) (n : Z) :
  all_chars is_digit (digits 10 digit_char f n) = true.
Proof.
  revert n. induction f as [| f IH]; intros n; [reflexivity |].
  cbn [digits]. destruct (Z.leb_spec n 0); [reflexivity |].
  assert (forall s c, all_chars is_digit s = true -> is_digit c = true ->
                      all_chars is_digit (s ++ String c EmptyString) = true) as Happ.
  { intros s c. induction s as [| x s IHs]; simpl; intros H1 H2.
    - now rewrite H2.
    - apply andb_true_iff in H1 as [-> H1]. simpl. now apply IHs. }
  apply Happ; [apply IH |]. apply digit_char_is_digit. apply Z.mod_pos_bound. lia.
Qed.

Lemma decimal_value_digits (f : nat) (n : Z) :
  0 <= n < 2 ^ Z.of_nat f -> decimal_value (digits 10 digit_char f n) = n.
Proof.
  unfold decimal_value. revert n. induction f as [| f IH]; intros n Hn.
  - simpl in *. lia.
  - cbn [digits]. destruct (Z.leb_spec n 0); [simpl; lia |].
    rewrite numeral_acc_app, IH.
    + cbn [numeral_acc].
      destruct (digit_char_is_digit (n mod 10)) as [_ ->]; [apply Z.mod_pos_bound; lia |].
      pose proof (Z.div_mod n 10). lia.
    + rewrite Nat2Z.inj_succ, Z.pow_succ_r in Hn by lia.
      split; [apply Z.div_pos; lia |]. apply Z.div_lt_upper_bound; lia.
Qed.

Lemma decimal_value_BN_toString (n : Z) : 0 <= n -> decimal_value (BN_toString n) = n.
Proof.
  intros Hn. unfold BN_toString.
  destruct (Z.eqb_spec n 0) as [-> | Hne]; [reflexivity |].
  destruct (Z.ltb_spec n 0); [lia |].
  unfold digits_of. apply decimal_value_digits. split; [lia | apply log2_fuel].
Qed.

Lemma BN_toString_all_digit (n : Z) : 0 <= n -> all_chars is_digit (BN_toString n) = true.
Proof.
  intros Hn. unfold BN_toString.
  destruct (Z.eqb_spec n 0); [reflexivity |].
  destruct (Z.ltb_spec n 0); [lia |]. apply digits_all_digit.
Qed.

Lemma BN_toString_nonempty (n : Z) : BN_toString n <> EmptyString.
Proof.
  unfold BN_toString.
  destruct (Z.eqb_spec n 0); [discriminate |].
  destruct (Z.ltb_spec n 0); [discriminate |].
  unfold digits_of. cbn [digits]. destruct (Z.leb_spec n 0); [lia |].
  destruct (digits 10 digit_char _ _); discriminate.
Qed.

(** Printing the value of a digit string gives the string without its
    leading zeros, and ["0"] when nothing is left. *)
Lemma BN_toString_decimal_value (s : string) :
  all_chars is_digit s = true ->
  BN_toString (decimal_value s) = or_default (strip_leading_zeros s) "0".
Proof.
  intros Hs. pose proof (digits_of_numeral s 0 Hs (Z.le_refl 0)) as H.
  cbn [Z.eqb] in H. fold (decimal_value s) in H.
  pose proof (decimal_value_bounds s Hs) as [Hlo _].
  unfold BN_toString. destruct (Z.eqb_spec (decimal_value s) 0) as [H0 | H0].
  - rewrite H0, digits_of_zero in H. rewrite <- H. reflexivity.
  - destruct (Z.ltb_spec (decimal_value s) 0); [lia |].
    rewrite H. destruct (strip_leading_zeros s) eqn:E; [| reflexivity].
    exfalso. apply H0.
    rewrite <- (decimal_value_BN_toString (decimal_value s)) by lia.
    unfold BN_toString. destruct (Z.eqb_spec (decimal_value s) 0); [lia |].
    destruct (Z.ltb_spec (decimal_value s) 0); [lia |]. rewrite H. reflexivity.
Qed.

End Numerals.

(** * Unit conversion *)

Section UnitConversion.

Lemma all_chars_append (p : ascii -> bool) (s t : string) :
  all_chars p (s ++ t) = all_chars p s && all_chars p t.
Proof.
  induction s as [| c s IH]; [reflexivity |].
  rewrite append_cons. cbn [all_chars]. rewrite IH. apply andb_assoc.
Qed.

Lemma all_chars_zeros (n : nat) : all_chars is_digit (zeros n) = true.
Proof. induction n as [| n IH]; [reflexivity | exact IH]. Qed.

Lemma length_zeros (n : nat) : String.length (zeros n) = n.
Proof. induction n as [| n IH]; [reflexivity | simpl; now rewrite IH]. Qed.

Lemma decimal_value_zeros (n : nat) : decimal_value (zeros n) = 0.
Proof. unfold decimal_value. induction n as [| n IH]; [reflexivity | exact IH]. Qed.

Lemma decimal_value_append (s t : string) :
  decimal_value (s ++ t) = decimal_value s * 10 ^ Z.of_nat (String.length t) + decimal_value t.
Proof. unfold decimal_value. now rewrite numeral_acc_app, numeral_acc_shift. Qed.

Lemma decimal_value_strip (s : string) :
  decimal_value (or_default (strip_leading_zeros s) "0") = decimal_value s.
Proof.
  induction s as [| c s IH]; [reflexivity |].
  destruct (Ascii.eqb_spec c "0") as [-> | Hc].
  - exact IH.
  - replace (strip_leading_zeros (String c s)) with (String c s); [reflexivity |].
    destruct c as [[] [] [] [] [] [] [] []]; try reflexivity. congruence.
Qed.

Lemma all_digit_strip (s : string) :
  all_chars is_digit s = true ->
  all_chars is_digit (or_default (strip_leading_zeros s) "0") = true.
Proof.
  induction s as [| c s IH]; [reflexivity |]. intros H.
  destruct (Ascii.eqb_spec c "0") as [-> | Hc].
  - apply IH. cbn [all_chars] in H. now apply andb_true_iff in H.
  - replace (strip_leading_zeros (String c s)) with (String c s); [exact H |].
    destruct c as [[] [] [] [] [] [] [] []]; try reflexivity. congruence.
Qed.

Lemma includes_dot_digits (s : string) :
  all_chars is_digit s = true -> includes "." s = false.
Proof.
  induction s as [| c s IH]; [reflexivity |]. cbn [all_chars]. intros H.
  apply andb_true_iff in H as [Hc Hs]. cbn [includes]. rewrite (IH Hs), orb_false_r.
  destruct c as [[] [] [] [] [] [] [] []]; try discriminate Hc; reflexivity.
Qed.

Lemma includes_dot_append (s t : string) : includes "." (s ++ String "." t) = true.
Proof.
  induction s as [| c s IH].
  - destruct t; reflexivity.
  - rewrite append_cons. cbn [includes]. rewrite IH. apply orb_true_r.
Qed.

Lemma split_dot_digits (s : string) :
  all_chars is_digit s = true -> split "." s = [s].
Proof.
  induction s as [| c s IH]; [reflexivity |]. cbn [all_chars]. intros H.
  apply andb_true_iff in H as [Hc Hs]. cbn [split]. rewrite (IH Hs).
  destruct (is_digit_cases c Hc) as (_ & _ & _ & _ & _ & _ & -> & _). reflexivity.
Qed.

Lemma split_dot_append (s t : string) :
  all_chars is_digit s = true -> all_chars is_digit t = true ->
  split "." (s ++ String "." t) = [s; t].
Proof.
  intros Hs Ht. induction s as [| c s IH].
  - change (split "." ("" ++ String "." t)) with (EmptyString :: split "." t).
    now rewrite split_dot_digits.
  - cbn [all_chars] in Hs. apply andb_true_iff in Hs as [Hc Hs].
    rewrite append_cons. cbn [split]. rewrite (IH Hs).
    destruct (is_digit_cases c Hc) as (_ & _ & _ & _ & _ & _ & -> & _). reflexivity.
Qed.

Lemma substring_drop (n : nat) (s : string) : String.substring 0 n s ++ drop n s = s.
Proof.
  revert s. induction n as [| n IH]; intros [| c s]; try reflexivity.
  cbn [String.substring drop]. rewrite append_cons, IH. reflexivity.
Qed.

Lemma length_substring (n : nat) (s : string) :
  (n <= String.length s)%nat -> String.length (String.substring 0 n s) = n.
Proof.
  revert s. induction n as [| n IH]; intros [| c s] H; simpl in *; try lia; try reflexivity.
  rewrite IH; lia.
Qed.

Lemma length_drop (n : nat) (s : string) :
  String.length (drop n s) = (String.length s - n)%nat.
Proof.
  revert s. induction n as [| n IH]; intros [| c s]; simpl; try reflexivity; try lia. apply IH.
Qed.

Lemma all_digit_substring (n : nat) (s : string) :
  all_chars is_digit s = true -> all_chars is_digit (String.substring 0 n s) = true.
Proof.
  revert s. induction n as [| n IH]; intros [| c s] H; try reflexivity.
  cbn [all_chars] in H. apply andb_true_iff in H as [Hc Hs].
  cbn [String.substring all_chars]. now rewrite Hc, IH.
Qed.

Lemma all_digit_drop (n : nat) (s : string) :
  all_chars is_digit s = true -> all_chars is_digit (drop n s) = true.
Proof.
  revert s. induction n as [| n IH]; intros [| c s] H; try reflexivity; try exact H.
  cbn [all_chars] in H. apply andb_true_iff in H as [Hc Hs]. now apply IH.
Qed.

(** The fraction cut or padded to [decimals] digits is the floor of the
    fraction scaled by [10^decimals]. *)
Lemma fraction_to_decimals (fractional : string) (decimals : nat) :
  all_chars is_digit fractional = true ->
  let adjusted := if (decimals <? String.length fractional)%nat
                  then String.substring 0 decimals fractional
                  else pad_end fractional decimals in
  all_chars is_digit adjusted = true /\
  String.length adjusted = decimals /\
  decimal_value adjusted =
    decimal_value fractional * 10 ^ Z.of_nat decimals / 10 ^ Z.of_nat (String.length fractional).
Proof.
  intros Hf. cbn zeta. destruct (Nat.ltb_spec decimals (String.length fractional)) as [Hlt | Hge].
  - split; [now apply all_digit_substring |]. split; [apply length_substring; lia |].
    pose proof (substring_drop decimals fractional) as Hsplit.
    pose proof (decimal_value_append (String.substring 0 decimals fractional) (drop decimals fractional)) as Hval.
    rewrite Hsplit in Hval. rewrite length_drop in Hval.
    pose proof (decimal_value_bounds (drop decimals fractional) (all_digit_drop _ _ Hf)) as Hrest.
    rewrite length_drop in Hrest.
    pose proof (decimal_value_bounds _ (all_digit_substring decimals _ Hf)) as [Hhead _].
    set (k := Z.of_nat (String.length fractional - decimals)) in *.
    replace (Z.of_nat (String.length fractional)) with (Z.of_nat decimals + k) by lia.
    rewrite Z.pow_add_r by lia.
    assert (0 < 10 ^ Z.of_nat decimals) by (apply Z.pow_pos_nonneg; lia).
    assert (0 < 10 ^ k) by (apply Z.pow_pos_nonneg; lia).
    rewrite (Z.mul_comm (decimal_value fractional)), Z.div_mul_cancel_l by lia.
    rewrite Hval. apply Z.div_unique with (decimal_value (drop decimals fractional)); lia.
  - unfold pad_end. rewrite all_chars_append, Hf, all_chars_zeros.
    split; [reflexivity |]. split; [rewrite length_append, length_zeros; lia |].
    rewrite decimal_value_append, decimal_value_zeros, length_zeros.
    set (k := (decimals - String.length fractional)%nat).
    replace (Z.of_nat decimals) with (Z.of_nat k + Z.of_nat (String.length fractional)) by lia.
    rewrite Z.pow_add_r, Z.mul_assoc by lia.
    rewrite Z.div_mul by (apply Z.pow_nonzero; lia). lia.
Qed.

End UnitConversion.

Lemma toTokenUnits_manual_point (whole frac : string) (decimals : nat) :
  all_chars is_digit whole = true -> all_chars is_digit frac = true ->
  toTokenUnits_manual (whole ++ "." ++ frac) decimals =
  BN_toString (truncated_base_units whole frac decimals).
Proof.
  intros Hw Hf. unfold toTokenUnits_manual.
  change ("." ++ frac) with (String "." frac).
  rewrite includes_dot_append, split_dot_append by assumption.
  cbn [part nth].
  destruct (fraction_to_decimals frac decimals Hf) as (Hdig & Hlen & Hval).
  set (adjusted := if (decimals <? String.length frac)%nat then _ else _) in *.
  rewrite <- BN_toString_decimal_value
    by (rewrite all_chars_append, Hdig, all_digit_strip by assumption; reflexivity).
  f_equal. rewrite decimal_value_append, decimal_value_strip, Hlen, Hval.
  unfold truncated_base_units.
  assert (10 ^ Z.of_nat (String.length frac) <> 0) by (apply Z.pow_nonzero; lia).
  rewrite Z.mul_add_distr_r.
  replace (decimal_value whole * 10 ^ Z.of_nat (String.length frac) * 10 ^ Z.of_nat decimals)
    with (decimal_value whole * 10 ^ Z.of_nat decimals * 10 ^ Z.of_nat (String.length frac)) by ring.
  now rewrite Z.div_add_l.
Qed.

Lemma toTokenUnits_manual_integer (whole : string) (decimals : nat) :
  all_chars is_digit whole = true ->
  toTokenUnits_manual whole decimals = BN_toString (truncated_base_units whole "" decimals).
Proof.
  intros Hw. unfold toTokenUnits_manual. rewrite includes_dot_digits by assumption.
  rewrite <- BN_toString_decimal_value
    by (rewrite all_chars_append, Hw, all_chars_zeros; reflexivity).
  f_equal. rewrite decimal_value_append, decimal_value_zeros, length_zeros.
  unfold truncated_base_units. cbn [String.length Z.of_nat]. rewrite Z.pow_0_r, Z.div_1_r.
  change (decimal_value "") with 0. ring.
Qed.

(** At a standard precision the answer is the library's, or the error that
    wraps the library's refusal. *)
Lemma toTokenUnits_standard_delegates (toWei : string -> string -> Outcome string)
    (amount : string) (decimals : nat) :
  is_standard decimals = true ->
  toTokenUnits toWei amount decimals =
  match toWei amount (getEtherUnit decimals) with
  | Ok units => Ok units
  | Throw _ => Throw (JsError "Failed to convert amount to token units")
  end.
Proof. intros H. unfold toTokenUnits. rewrite H. reflexivity. Qed.

(** ** The library's [toWei] at the six standard precisions *)

Lemma standard_unit (decimals : nat) :
  is_standard decimals = true ->
  unit_decimals (getEtherUnit decimals) = Some decimals /\ (3 <= decimals)%nat.
Proof.
  unfold is_standard, standard_decimals. intros H.
  apply existsb_exists in H as (d & Hin & Heq). apply Nat.eqb_eq in Heq. subst d.
  cbn [In] in Hin.
  destruct Hin as [<- | [<- | [<- | [<- | [<- | [<- | []]]]]]]; split; (reflexivity || lia).
Qed.

Lemma digits_or_point (s : string) :
  all_chars is_digit s = true ->
  all_chars (fun c => is_digit c || Ascii.eqb c ".") s = true.
Proof.
  induction s as [| c s IH]; [reflexivity |]. cbn [all_chars]. intros H.
  apply andb_true_iff in H as [-> Hs]. now rewrite IH.
Qed.

Lemma pointed_not_negative (whole frac : string) :
  all_chars is_digit whole = true ->
  String.prefix "-" (whole ++ String "." frac) = false.
Proof.
  destruct whole as [| c whole]; [reflexivity |]. cbn [all_chars]. intros H.
  apply andb_true_iff in H as [Hc _]. rewrite append_cons.
  destruct c as [[] [] [] [] [] [] [] []]; try discriminate Hc; reflexivity.
Qed.

Lemma pointed_not_empty (whole frac : string) :
  String.eqb (whole ++ String "." frac) "" = false.
Proof. destruct whole; reflexivity. Qed.

Lemma pointed_not_point (whole frac : string) :
  whole <> "" \/ frac <> "" -> String.eqb (whole ++ String "." frac) "." = false.
Proof.
  intros H. apply String.eqb_neq. intros E.
  destruct whole as [| c whole].
  - cbn in E. injection E as ->. destruct H; congruence.
  - rewrite append_cons in E. injection E as _ E. destruct whole; discriminate E.
Qed.

Lemma decimal_value_or_zero (s : string) :
  decimal_value (or_default s "0") = decimal_value s.
Proof. destruct s; reflexivity. Qed.

Lemma digits_not_negative (whole : string) :
  all_chars is_digit whole = true -> String.prefix "-" whole = false.
Proof.
  destruct whole as [| c whole]; [reflexivity |]. cbn [all_chars]. intros H.
  apply andb_true_iff in H as [Hc _].
  destruct c as [[] [] [] [] [] [] [] []]; try discriminate Hc; reflexivity.
Qed.

(** What the library does with [whole.frac], for a unit of at least one
    decimal. *)
Lemma ethjs_toWei_pointed (whole frac unit : string) (decimals : nat) :
  all_chars is_digit whole = true -> all_chars is_digit frac = true ->
  unit_decimals unit = Some decimals -> (1 <= decimals)%nat ->
  whole <> "" \/ frac <> "" ->
  ethjs_toWei (whole ++ String "." frac) unit =
  if (decimals <? String.length (or_default frac "0"))%nat
  then Throw (LibError "too many decimal places")
  else Ok (BN_toString (decimal_value whole * 10 ^ Z.of_nat decimals
                        + decimal_value (pad_end (or_default frac "0") decimals))).
Proof.
  intros Hw Hf Hunit Hone Hne. unfold ethjs_toWei. rewrite Hunit. cbv zeta.
  replace (match decimals with O => 1%nat | S _ => decimals end) with decimals
    by (destruct decimals; [lia | reflexivity]).
  rewrite pointed_not_negative by assumption.
  rewrite pointed_not_empty, all_chars_append. cbn [all_chars].
  change (is_digit "." || Ascii.eqb "." ".") with true.
  rewrite !digits_or_point by assumption. cbn [andb negb orb].
  rewrite pointed_not_point by assumption.
  rewrite split_dot_append by assumption.
  change ((2 <? List.length [whole; frac])%nat) with false.
  cbn [part nth]. now rewrite decimal_value_or_zero.
Qed.

(** The library reads [whole.frac] with at most [decimals] fraction digits
    as the amount in base units; nothing is cut. *)
Lemma ethjs_toWei_point (whole frac : string) (decimals : nat) :
  all_chars is_digit whole = true -> all_chars is_digit frac = true ->
  is_standard decimals = true ->
  whole <> "" \/ frac <> "" ->
  (String.length frac <= decimals)%nat ->
  ethjs_toWei (whole ++ "." ++ frac) (getEtherUnit decimals)
  = Ok (BN_toString (truncated_base_units whole frac decimals)).
Proof.
  intros Hw Hf Hd Hne Hlen. destruct (standard_unit decimals Hd) as [Hunit Hthree].
  change ("." ++ frac) with (String "." frac).
  rewrite (ethjs_toWei_pointed whole frac _ decimals) by (assumption || lia).
  assert ((decimals <? String.length (or_default frac "0"))%nat = false) as ->.
  { apply Nat.ltb_ge. destruct frac; cbn [or_default String.length] in *; lia. }
  f_equal. f_equal. unfold truncated_base_units.
  assert (10 ^ Z.of_nat (String.length frac) <> 0) by (apply Z.pow_nonzero; lia).
  rewrite Z.mul_add_distr_r.
  replace (decimal_value whole * 10 ^ Z.of_nat (String.length frac) * 10 ^ Z.of_nat decimals)
    with (decimal_value whole * 10 ^ Z.of_nat decimals * 10 ^ Z.of_nat (String.length frac))
    by ring.
  rewrite Z.div_add_l by assumption. f_equal.
  destruct (String.eqb_spec frac "") as [-> | Hfrac].
  - cbn [or_default]. unfold pad_end. rewrite decimal_value_append, decimal_value_zeros.
    change (decimal_value "0") with 0. change (decimal_value "") with 0.
    now rewrite !Z.mul_0_l, Z.div_0_l.
  - replace (or_default frac "0") with frac by (destruct frac; [congruence | reflexivity]).
    destruct (fraction_to_decimals frac decimals Hf) as (_ & _ & Hval).
    apply Nat.ltb_ge in Hlen. rewrite Hlen in Hval. exact Hval.
Qed.

(** The library refuses a fraction of more than [decimals] digits. *)
Lemma ethjs_toWei_excess (whole frac : string) (decimals : nat) :
  all_chars is_digit whole = true -> all_chars is_digit frac = true ->
  is_standard decimals = true ->
  (decimals < String.length frac)%nat ->
  ethjs_toWei (whole ++ "." ++ frac) (getEtherUnit decimals)
  = Throw (LibError "too many decimal places").
Proof.
  intros Hw Hf Hd Hlen. destruct (standard_unit decimals Hd) as [Hunit Hthree].
  change ("." ++ frac) with (String "." frac).
  assert (frac <> "") as Hfrac by (intros ->; cbn in Hlen; lia).
  rewrite (ethjs_toWei_pointed whole frac _ decimals) by (assumption || lia || now right).
  replace (or_default frac "0") with frac by (destruct frac; [congruence | reflexivity]).
  apply Nat.ltb_lt in Hlen. now rewrite Hlen.
Qed.

(** The library reads an amount without a point as so many whole units. *)
Lemma ethjs_toWei_integer (whole : string) (decimals : nat) :
  all_chars is_digit whole = true -> whole <> "" ->
  is_standard decimals = true ->
  ethjs_toWei whole (getEtherUnit decimals)
  = Ok (BN_toString (truncated_base_units whole "" decimals)).
Proof.
  intros Hw Hne Hd. destruct (standard_unit decimals Hd) as [Hunit Hthree].
  unfold ethjs_toWei. rewrite Hunit. cbv zeta.
  replace (match decimals with O => 1%nat | S _ => decimals end) with decimals
    by (destruct decimals; [lia | reflexivity]).
  rewrite digits_not_negative by assumption.
  apply String.eqb_neq in Hne. rewrite Hne, digits_or_point by assumption.
  cbn [negb orb].
  assert (String.eqb whole "." = false) as ->.
  { apply String.eqb_neq. intros ->. discriminate Hw. }
  rewrite split_dot_digits by assumption.
  change ((2 <? List.length [whole])%nat) with false.
  cbn [part nth or_default].
  assert ((decimals <? String.length "0")%nat = false) as ->
    by (apply Nat.ltb_ge; cbn; lia).
  f_equal. f_equal. rewrite decimal_value_or_zero.
  unfold pad_end. rewrite decimal_value_append, decimal_value_zeros.
  change (decimal_value "0") with 0. unfold truncated_base_units.
  cbn [String.length Z.of_nat]. rewrite Z.pow_0_r, Z.div_1_r.
  change (decimal_value "") with 0. ring.
Qed.

(** C6, as amended.  The conversion of [whole.frac], or of [whole] alone,
    is the decimal string of the amount scaled by [10^decimals] and rounded
    down: missing fraction digits are zeros, and the result has no leading
    zero and is ["0"] for a zero amount.  Outside the six standard
    precisions this holds for every fraction, excess digits being cut,
    whatever the library's [toWei] does.  At a standard precision the
    conversion is the library's [toWei] with the matching unit: it gives the
    same number when the fraction has no more than [decimals] digits, and
    refuses a longer one, which is raised as "Failed to convert".  (The
    library also refuses the empty amount and the lone point.) *)
Theorem toTokenUnits_truncates (toWei : string -> string -> Outcome string)
    (whole frac : string) (decimals : nat) :
  all_chars is_digit whole = true ->
  all_chars is_digit frac = true ->
  (is_standard decimals = false ->
   toTokenUnits toWei (whole ++ "." ++ frac) decimals
     = Ok (BN_toString (truncated_base_units whole frac decimals)) /\
   toTokenUnits toWei whole decimals
     = Ok (BN_toString (truncated_base_units whole "" decimals))) /\
  (is_standard decimals = true ->
   (whole <> "" \/ frac <> "" -> (String.length frac <= decimals)%nat ->
    toTokenUnits ethjs_toWei (whole ++ "." ++ frac) decimals
      = Ok (BN_toString (truncated_base_units whole frac decimals))) /\
   (whole <> "" ->
    toTokenUnits ethjs_toWei whole decimals
      = Ok (BN_toString (truncated_base_units whole "" decimals))) /\
   ((decimals < String.length frac)%nat ->
    toTokenUnits ethjs_toWei (whole ++ "." ++ frac) decimals
      = Throw (JsError "Failed to convert amount to token units")) /\
   (forall amount,
      toTokenUnits toWei amount decimals =
      match toWei amount (getEtherUnit decimals) with
      | Ok units => Ok units
      | Throw _ => Throw (JsError "Failed to convert amount to token units")
      end)).
Proof.
  intros Hw Hf. split.
  - intros Hd. unfold toTokenUnits. rewrite Hd. cbn [try_catch].
    now rewrite toTokenUnits_manual_point, toTokenUnits_manual_integer.
  - intros Hd. repeat split.
    + intros Hne Hlen. rewrite toTokenUnits_standard_delegates by exact Hd.
      now rewrite ethjs_toWei_point.
    + intros Hne. rewrite toTokenUnits_standard_delegates by exact Hd.
      now rewrite ethjs_toWei_integer.
    + intros Hlen. rewrite toTokenUnits_standard_delegates by exact Hd.
      now rewrite ethjs_toWei_excess.
    + intros amount. now apply toTokenUnits_standard_delegates.
Qed.

Lemma toTokenUnits_truncates_witness :
  toTokenUnits ethjs_toWei "1.23456" 4 = Ok "12345" /\
  toTokenUnits ethjs_toWei "007" 2 = Ok "700" /\
  toTokenUnits ethjs_toWei "1.23" 3 = Ok "1230" /\
  toTokenUnits ethjs_toWei "007.5" 6 = Ok "7500000" /\
  toTokenUnits ethjs_toWei "0.000" 3 = Ok "0" /\
  toTokenUnits ethjs_toWei "42" 18 = Ok "42000000000000000000" /\
  toTokenUnits ethjs_toWei "1.23456" 3
    = Throw (JsError "Failed to convert amount to token units").
Proof.
  destruct (toTokenUnits_truncates ethjs_toWei "1" "23456" 4) as [H4 _]; try reflexivity.
  destruct (toTokenUnits_truncates ethjs_toWei "007" "" 2) as [H2 _]; try reflexivity.
  destruct (toTokenUnits_truncates ethjs_toWei "1" "23" 3) as [_ H3]; try reflexivity.
  destruct (toTokenUnits_truncates ethjs_toWei "007" "5" 6) as [_ H6]; try reflexivity.
  destruct (toTokenUnits_truncates ethjs_toWei "0" "000" 3) as [_ H0]; try reflexivity.
  destruct (toTokenUnits_truncates ethjs_toWei "42" "" 18) as [_ H18]; try reflexivity.
  destruct (toTokenUnits_truncates ethjs_toWei "1" "23456" 3) as [_ Hx]; try reflexivity.
  split; [exact (proj1 (H4 eq_refl)) |].
  split; [exact (proj2 (H2 eq_refl)) |].
  split; [apply (proj1 (H3 eq_refl)); [left; discriminate | cbn; lia] |].
  split; [apply (proj1 (H6 eq_refl)); [left; discriminate | cbn; lia] |].
  split; [apply (proj1 (H0 eq_refl)); [left; discriminate | cbn; lia] |].
  split; [apply (proj1 (proj2 (H18 eq_refl))); discriminate |].
  apply (proj1 (proj2 (proj2 (Hx eq_refl)))). cbn; lia.
Defined.

(** C6 as stated fails at its own example: three decimals is one of the
    standard precisions, the call goes to [web3.utils.toWei] with the unit
    [kwei], and the library refuses a fraction of five digits. *)
Lemma toTokenUnits_standard_precision_refuses :
  toTokenUnits ethjs_toWei "1.23456" 3 <> Ok "1234".
Proof. vm_compute. discriminate. Qed.

(** C7: with zero decimals the point stays in the result, because
    [/\.?0+$/] needs at least one zero after it. *)
Theorem fromTokenUnits_keeps_trailing_point
    (toWei fromWei : string -> string -> Outcome string) :
  toTokenUnits toWei "7" 0 = Ok "7" /\
  fromTokenUnits fromWei "7" 0 = "7.".
Proof. split; reflexivity. Qed.

(** * Round trip through base units *)

Section RoundTrip.

Lemma strip_nonzero_head (c : ascii) (s : string) :
  Ascii.eqb c "0" = false -> strip_leading_zeros (String c s) = String c s.
Proof.
  intros H. destruct c as [[] [] [] [] [] [] [] []]; try reflexivity. discriminate H.
Qed.

Lemma length_strip_le (s : string) :
  (String.length (strip_leading_zeros s) <= String.length s)%nat.
Proof.
  induction s as [| c s IH]; [reflexivity |].
  destruct (Ascii.eqb_spec c "0") as [-> | Hc].
  - cbn [strip_leading_zeros String.length]. lia.
  - rewrite strip_nonzero_head by now apply Ascii.eqb_neq. lia.
Qed.

Lemma zeros_strip (s : string) :
  zeros (String.length s - String.length (strip_leading_zeros s)) ++ strip_leading_zeros s = s.
Proof.
  induction s as [| c s IH]; [reflexivity |].
  destruct (Ascii.eqb_spec c "0") as [-> | Hc].
  - cbn [strip_leading_zeros String.length]. pose proof (length_strip_le s).
    replace (S (String.length s) - String.length (strip_leading_zeros s))%nat
      with (S (String.length s - String.length (strip_leading_zeros s))) by lia.
    cbn [zeros]. rewrite append_cons, IH. reflexivity.
  - rewrite strip_nonzero_head by now apply Ascii.eqb_neq.
    now rewrite Nat.sub_diag.
Qed.

Lemma substring_append (a b : string) : String.substring 0 (String.length a) (a ++ b) = a.
Proof.
  induction a as [| c a IH]; [now destruct b |].
  rewrite append_cons. cbn [String.length String.substring]. now rewrite IH.
Qed.

Lemma drop_append (a b : string) : drop (String.length a) (a ++ b) = b.
Proof. induction a as [| c a IH]; [reflexivity | exact IH]. Qed.

Lemma not_all_zero_with_point (s t : string) :
  all_chars (Ascii.eqb "0") (s ++ String "." t) = false.
Proof.
  induction s as [| c s IH]; [reflexivity |].
  rewrite append_cons. cbn [all_chars]. rewrite IH. apply andb_false_r.
Qed.

Lemma not_all_zero_ends_nonzero (s t : string) :
  ends_nonzero s = true -> all_chars (Ascii.eqb "0") (s ++ t) = false.
Proof.
  induction s as [| c s IH]; [discriminate |]. intros H.
  rewrite append_cons. cbn [all_chars]. destruct s as [| d s].
  - cbn [ends_nonzero] in H. apply negb_true_iff in H.
    rewrite Ascii.eqb_sym, H. reflexivity.
  - rewrite IH by exact H. apply andb_false_r.
Qed.

Lemma dot_zeros_digit_head (c : ascii) (s : string) :
  is_digit c = true ->
  dot_zeros_to_end (String c s) = all_chars (Ascii.eqb "0") (String c s).
Proof.
  intros Hc. unfold dot_zeros_to_end.
  destruct (is_digit_cases c Hc) as (_ & _ & _ & _ & _ & _ & Hdot & _).
  destruct c as [[] [] [] [] [] [] [] []]; try discriminate Hdot; reflexivity.
Qed.

Lemma trim_zeros (k : nat) : trim_trailing_zeros (zeros k) = EmptyString.
Proof.
  destruct k as [| k]; [reflexivity |]. cbn [zeros trim_trailing_zeros].
  rewrite dot_zeros_digit_head by reflexivity.
  change (String "0" (zeros k)) with (zeros (S k)).
  assert (forall n, all_chars (Ascii.eqb "0") (zeros n) = true) as H
    by (induction n; [reflexivity | assumption]).
  now rewrite H.
Qed.

Lemma trim_fraction (frac : string) (k : nat) :
  all_chars is_digit frac = true -> ends_nonzero frac = true ->
  trim_trailing_zeros (frac ++ zeros k) = frac.
Proof.
  induction frac as [| c frac IH]; [discriminate |]. intros Hd He.
  cbn [all_chars] in Hd. apply andb_true_iff in Hd as [Hc Hd].
  pose proof (not_all_zero_ends_nonzero (String c frac) (zeros k) He) as Hnz.
  rewrite append_cons in *. cbn [trim_trailing_zeros].
  rewrite dot_zeros_digit_head, Hnz by exact Hc. f_equal.
  destruct frac as [| d frac]; [apply trim_zeros |].
  apply IH; [exact Hd | exact He].
Qed.

Lemma trim_point_tail (tail kept : string) :
  (dot_zeros_to_end (String "." tail) = true -> kept = EmptyString) ->
  (dot_zeros_to_end (String "." tail) = false ->
   String "." (trim_trailing_zeros tail) = kept) ->
  forall whole, all_chars is_digit whole = true ->
  trim_trailing_zeros (whole ++ String "." tail) = whole ++ kept.
Proof.
  intros Hcut Hkeep whole. induction whole as [| c whole IH]; intros Hw.
  - change ("" ++ String "." tail) with (String "." tail). cbn [trim_trailing_zeros].
    destruct (dot_zeros_to_end (String "." tail)) eqn:E.
    + now rewrite Hcut.
    + now rewrite <- Hkeep.
  - cbn [all_chars] in Hw. apply andb_true_iff in Hw as [Hc Hw].
    rewrite !append_cons. cbn [trim_trailing_zeros].
    rewrite dot_zeros_digit_head by exact Hc. cbn [all_chars].
    rewrite not_all_zero_with_point, andb_false_r. now rewrite IH.
Qed.

(** What [fromTokenUnits] makes of [whole.F], [F] the fraction padded to
    [decimals] digits. *)
Lemma trim_padded (whole frac : string) (decimals : nat) :
  all_chars is_digit whole = true -> canonical_fraction frac = true ->
  (String.length frac <= decimals)%nat -> (1 <= decimals)%nat ->
  trim_trailing_zeros (whole ++ "." ++ pad_end frac decimals) = decimal_text whole frac.
Proof.
  intros Hw Hf Hlen Hd. unfold decimal_text, pad_end, canonical_fraction in *.
  change ("." ++ ?t) with (String "." t).
  destruct (String.eqb_spec frac "") as [-> | Hne].
  - cbn [String.length]. rewrite Nat.sub_0_r.
    change ("" ++ zeros decimals) with (zeros decimals).
    rewrite (trim_point_tail (zeros decimals) EmptyString); auto using append_nil_r.
    intros H. exfalso. destruct decimals as [| n]; [lia |].
    unfold dot_zeros_to_end in H. cbn [zeros String.eqb negb andb] in H.
    assert (forall n, all_chars (Ascii.eqb "0") (zeros n) = true) as Hz
      by (induction n0; [reflexivity | assumption]).
    cbn [all_chars] in H. rewrite Hz in H. discriminate H.
  - cbn [orb] in Hf. apply andb_true_iff in Hf as [Hdig Hend].
    apply trim_point_tail; [| | exact Hw].
    + unfold dot_zeros_to_end. rewrite not_all_zero_ends_nonzero by exact Hend.
      rewrite andb_false_r. discriminate.
    + intros _. now rewrite trim_fraction.
Qed.

End RoundTrip.

(** Outside the standard precisions and with at least one decimal, an amount
    written canonically with at most [decimals] fraction digits comes back
    unchanged from base units. *)
Lemma fromTokenUnits_toTokenUnits_roundtrip
    (toWei fromWei : string -> string -> Outcome string)
    (whole frac : string) (decimals : nat) :
  is_standard decimals = false -> (1 <= decimals)%nat ->
  canonical_whole whole = true -> canonical_fraction frac = true ->
  (String.length frac <= decimals)%nat ->
  exists units,
    toTokenUnits toWei (decimal_text whole frac) decimals = Ok units /\
    fromTokenUnits fromWei units decimals = decimal_text whole frac.
Proof.
  intros Hstd Hd Hw Hf Hlen.
  exists (toTokenUnits_manual (decimal_text whole frac) decimals).
  split; [unfold toTokenUnits; now rewrite Hstd |].
  unfold fromTokenUnits. rewrite Hstd.
  assert (all_chars is_digit whole = true) as Hwd.
  { unfold canonical_whole in Hw. apply orb_true_iff in Hw as [Hw | Hw].
    - apply String.eqb_eq in Hw as ->. reflexivity.
    - now apply andb_true_iff in Hw. }
  assert (all_chars is_digit frac = true) as Hfd.
  { unfold canonical_fraction in Hf. apply orb_true_iff in Hf as [Hf' | Hf'].
    - apply String.eqb_eq in Hf' as ->. reflexivity.
    - now apply andb_true_iff in Hf'. }
  (* the base units, as a string *)
  assert (toTokenUnits_manual (decimal_text whole frac) decimals
          = or_default (strip_leading_zeros (whole ++ pad_end frac decimals)) "0") as ->.
  { unfold decimal_text, toTokenUnits_manual.
    destruct (String.eqb_spec frac "") as [-> | Hne].
    - rewrite includes_dot_digits by exact Hwd.
      unfold pad_end. cbn [String.length]. now rewrite Nat.sub_0_r.
    - change ("." ++ frac) with (String "." frac).
      rewrite includes_dot_append, split_dot_append by assumption. cbn [part nth].
      destruct (Nat.ltb_spec decimals (String.length frac)); [lia |].
      assert (or_default (strip_leading_zeros whole) "0" = whole) as ->; [| reflexivity].
      unfold canonical_whole in Hw. apply orb_true_iff in Hw as [Hw | Hw].
      + apply String.eqb_eq in Hw as ->. reflexivity.
      + apply andb_true_iff in Hw as [_ Hw]. destruct whole as [| c whole]; [discriminate |].
        apply negb_true_iff in Hw. now rewrite strip_nonzero_head. }
  set (F := pad_end frac decimals).
  assert (String.length F = decimals) as HF
    by (unfold F, pad_end; rewrite length_append, length_zeros; lia).
  rewrite <- (trim_padded whole frac decimals) by assumption. fold F.
  unfold canonical_whole in Hw. apply orb_true_iff in Hw as [Hw | Hw].
  - (* the whole part is zero *)
    apply String.eqb_eq in Hw as ->.
    change (strip_leading_zeros ("0" ++ F)) with (strip_leading_zeros F).
    destruct (strip_leading_zeros F) as [| c r] eqn:Hstrip.
    + (* the amount is zero *)
      pose proof (zeros_strip F) as HzF. rewrite Hstrip, append_nil_r in HzF.
      cbn [or_default]. change (fromTokenUnits_manual "0" decimals) with "0".
      assert (frac = EmptyString) as ->.
      { unfold canonical_fraction in Hf. apply orb_true_iff in Hf as [Hf' | Hf'].
        - now apply String.eqb_eq in Hf'.
        - apply andb_true_iff in Hf' as [_ Hend]. exfalso.
          pose proof (not_all_zero_ends_nonzero frac (zeros (decimals - String.length frac)) Hend) as Hnz.
          fold (pad_end frac decimals) in Hnz. fold F in Hnz. rewrite <- HzF in Hnz.
          assert (forall n, all_chars (Ascii.eqb "0") (zeros n) = true) as Hz
            by (induction n; [reflexivity | assumption]).
          rewrite Hz in Hnz. discriminate Hnz. }
      symmetry. apply (trim_padded "0" "" decimals); [reflexivity | reflexivity | lia | lia].
    + cbn [or_default]. unfold fromTokenUnits_manual.
      assert (c <> "0"%char) as Hc.
      { intros ->. clear -Hstrip. induction F as [| x F IH]; [discriminate |].
        destruct (Ascii.eqb_spec x "0") as [-> | Hx]; [exact (IH Hstrip) |].
        rewrite strip_nonzero_head in Hstrip by now apply Ascii.eqb_neq.
        congruence. }
      destruct (String.eqb_spec (String c r) "0") as [[= -> ->] | _]; [congruence |].
      pose proof (zeros_strip F) as HzF. pose proof (length_strip_le F) as Hle.
      rewrite Hstrip in HzF, Hle.
      assert (pad_start_past (String c r) decimals = "0" ++ F) as ->.
      { unfold pad_start_past.
        replace (S decimals - String.length (String c r))%nat
          with (S (String.length F - String.length (String c r))) by lia.
        cbn [zeros]. rewrite append_cons, HzF. reflexivity. }
      rewrite length_append, HF. cbn [String.length].
      replace (1 + decimals - decimals)%nat with 1%nat by lia.
      pose proof (substring_append "0" F) as Hhead. cbn [String.length] in Hhead.
      rewrite Hhead. change (drop 1 ("0" ++ F)) with F. reflexivity.
  - (* the whole part starts with a digit other than zero *)
    apply andb_true_iff in Hw as [_ Hw]. destruct whole as [| c whole]; [discriminate |].
    apply negb_true_iff in Hw. rewrite append_cons, strip_nonzero_head by exact Hw.
    cbn [or_default]. unfold fromTokenUnits_manual.
    destruct (String.eqb_spec (String c (whole ++ F)) "0") as [[= -> _] | _];
      [discriminate Hw |].
    rewrite <- append_cons. set (W := String c whole).
    assert (pad_start_past (W ++ F) decimals = W ++ F) as ->.
    { unfold pad_start_past. rewrite length_append, HF.
      replace (S decimals - (String.length W + decimals))%nat with 0%nat
        by (unfold W; cbn [String.length]; lia).
      reflexivity. }
    rewrite length_append, HF.
    replace (String.length W + decimals - decimals)%nat with (String.length W) by lia.
    now rewrite substring_append, drop_append.
Qed.

Lemma fromTokenUnits_toTokenUnits_roundtrip_example :
  fromTokenUnits (fun _ _ => Throw (LibError "unused")) "12500" 4 = "1.25" /\
  fromTokenUnits (fun _ _ => Throw (LibError "unused")) "500" 4 = "0.05" /\
  fromTokenUnits (fun _ _ => Throw (LibError "unused")) "70000" 4 = "7".
Proof. repeat split; reflexivity. Qed.

(** * The minimum output *)

Section MinimumOutput.

Lemma digits_to_lower (s : string) :
  all_chars is_digit s = true -> map_chars to_lower s = s.
Proof.
  induction s as [| c s IH]; [reflexivity |]. cbn [all_chars map_chars]. intros H.
  apply andb_true_iff in H as [Hc Hs].
  destruct (is_digit_cases c Hc) as (_ & _ & _ & -> & _). now rewrite IH.
Qed.

Lemma digits_trim (s : string) : all_chars is_digit s = true -> trim s = s.
Proof.
  intros H. unfold trim.
  assert (trim_start s = s) as ->.
  { destruct s as [| c s]; [reflexivity |]. cbn [all_chars] in H.
    apply andb_true_iff in H as [Hc _]. cbn [trim_start].
    now destruct (is_digit_cases c Hc) as (_ & _ & _ & _ & -> & _). }
  induction s as [| c s IH]; [reflexivity |]. cbn [all_chars] in H.
  apply andb_true_iff in H as [Hc Hs]. cbn [trim_end]. rewrite (IH Hs).
  destruct (is_digit_cases c Hc) as (_ & _ & _ & _ & -> & _). now destruct s.
Qed.

Lemma digits_no_prefix (s : string) :
  all_chars is_digit s = true ->
  String.prefix "0x" s = false /\ String.prefix "-0x" s = false /\ String.prefix "-" s = false.
Proof.
  destruct s as [| c s]; [now repeat split |]. cbn [all_chars]. intros H.
  apply andb_true_iff in H as [Hc Hs].
  destruct s as [| d s].
  - destruct c as [[] [] [] [] [] [] [] []]; try discriminate Hc; now repeat split.
  - cbn [all_chars] in Hs. apply andb_true_iff in Hs as [Hd _].
    destruct c as [[] [] [] [] [] [] [] []]; try discriminate Hc;
      destruct d as [[] [] [] [] [] [] [] []]; try discriminate Hd; now repeat split.
Qed.

Lemma numberToBN_digits (s : string) :
  all_chars is_digit s = true -> s <> EmptyString -> numberToBN s = Ok (decimal_value s).
Proof.
  intros Hs Hne. unfold numberToBN.
  rewrite digits_to_lower, digits_trim by assumption.
  destruct (digits_no_prefix s Hs) as (H0x & Hm0x & Hm).
  unfold stripHexPrefix. rewrite H0x, Hm0x, Hm. cbn [orb].
  destruct (String.eqb_spec s "") as [| _]; [contradiction |].
  assert (is_integer_literal s = true) as ->.
  { unfold is_integer_literal. rewrite Hm, Hs.
    destruct (String.eqb_spec s ""); [contradiction | reflexivity]. }
  assert (is_hex_letters s = false) as ->.
  { unfold is_hex_letters. destruct s as [| c s]; [reflexivity |].
    cbn [all_chars] in *. apply andb_true_iff in Hs as [-> _].
    cbn [negb]. now rewrite andb_false_r. }
  cbn [negb andb orb]. unfold BN_of_decimal. rewrite Hm. f_equal. lia.
Qed.

Lemma safeBN_text_digits (s : string) :
  all_chars is_digit s = true -> s <> EmptyString -> safeBN_text s = decimal_value s.
Proof.
  intros Hs Hne. unfold safeBN_text. rewrite digits_trim, includes_dot_digits by assumption.
  destruct (String.prefix "0x" s); now rewrite numberToBN_digits.
Qed.

(** [safeBN] reads back what [BN.toString] prints. *)
Lemma safeBN_BN_toString (n : Z) : 0 <= n -> safeBN (JsString (BN_toString n)) = n.
Proof.
  intros Hn. cbn [safeBN].
  rewrite safeBN_text_digits, decimal_value_BN_toString;
    auto using BN_toString_all_digit, BN_toString_nonempty.
Qed.

Lemma safeBN_divisor : safeBN (JsNumber 10000) = 10000.
Proof. reflexivity. Qed.

(** With an expected output [E] and the factor that [safeBN] extracts from
    the double, the minimum is the floor of [E * factor / 10000], computed on
    integers. *)
Lemma amountOutMin_guarded_floor (E : Z) (slippagePercent : float) :
  0 <= E ->
  0 <= safeBN (JsNumber (slippageFactor slippagePercent)) ->
  amountOutMin_guarded (BN_toString E) slippagePercent =
  BN_toString (E * safeBN (JsNumber (slippageFactor slippagePercent)) / 10000).
Proof.
  intros HE Hf. unfold amountOutMin_guarded.
  rewrite safeBN_BN_toString, safeBN_divisor by assumption.
  cbn [Z.eqb]. unfold BN_div. cbn [Z.eqb mbind Outcome_bind obind].
  rewrite Z.quot_div_nonneg by nia. reflexivity.
Qed.

End MinimumOutput.

(** The two examples of the specification hold. *)
Lemma amountOutMin_examples :
  amountOutMin_guarded "10000" 1 = "9900" /\
  amountOutMin_guarded "10000" 100 = "0" /\
  amountOutMin_pinned "10000" 1 = Ok "9900" /\
  amountOutMin_pinned "10000" 100 = Ok "0".
Proof. vm_compute. repeat split; reflexivity. Qed.

(** C1: at a slippage of 64.01% (6401 basis points) and an expected output of
    10000 the formula gives 3599.  The code computes the factor in doubles:
    [64.01 * 100] is [6401.000000000001], the factor is
    [3598.999999999999], [safeBN] keeps the digits before the point, and
    [buyToken] and [sellToken] use 3598; the tier-pinned entry points hand
    the double to [toBN], which refuses it. *)
Theorem amountOutMin_double_rounding :
  Number_toString (percent_of_basis_points 6401) = "64.01" /\
  Number_toString (percent_of_basis_points 6401 * 100)%float = "6401.000000000001" /\
  Number_toString (slippageFactor (percent_of_basis_points 6401)) = "3598.999999999999" /\
  amountOutMin_guarded "10000" (percent_of_basis_points 6401) = "3598" /\
  amountOutMin_pinned "10000" (percent_of_basis_points 6401)
    = Throw (LibError "[number-to-bn] invalid number value") /\
  BN_toString (10000 * (10000 - 6401) / 10000) = "3599".
Proof. vm_compute. repeat split; reflexivity. Qed.

(** The factor is off at 287 of the 9991 whole numbers of basis points from
    10 to 10000, the first of them 6401. *)
Lemma basis_points_off_count :
  List.length basis_points_off = 287%nat /\ List.hd 0 basis_points_off = 6401.
Proof. vm_compute. split; reflexivity. Qed.

(** * Reasoning about asynchronous code *)

Section Monad.

Lemma run_bind {A B} (m : M A) (k : A -> M B) (s : State) :
  run (m ≫= k) s =
  match run m s with
  | (Ok a, s') => run (k a) s'
  | (Throw e, s') => (Throw e, s')
  end.
Proof. reflexivity. Qed.

Lemma run_try_catchM {A} (body : M A) (handler : Error -> M A) (s : State) :
  run (try_catchM body handler) s =
  match run body s with
  | (Ok a, s') => (Ok a, s')
  | (Throw e, s') => run (handler e) s'
  end.
Proof. reflexivity. Qed.

Lemma quiet_ret {A} (a : A) : quiet (mret a).
Proof. intros s. reflexivity. Qed.

Lemma quiet_throw {A} (e : Error) : quiet (@throw A e).
Proof. intros s. reflexivity. Qed.

Lemma quiet_lift {A} (o : Outcome A) : quiet (lift o).
Proof. intros s. reflexivity. Qed.

Lemma quiet_await {A} (request : nat -> Outcome A) : quiet (await request).
Proof. intros s. reflexivity. Qed.

Lemma quiet_await_all3 {A B C} (a : nat -> Outcome A) (b : nat -> Outcome B)
    (c : nat -> Outcome C) : quiet (await_all3 a b c).
Proof. intros s. reflexivity. Qed.

Lemma quiet_get_nonceCache : quiet get_nonceCache.
Proof. intros s. reflexivity. Qed.

Lemma quiet_set_nonceCache (a : string) (n : Z) : quiet (set_nonceCache a n).
Proof. intros s. reflexivity. Qed.

Lemma quiet_wallet_add (a : string) : quiet (wallet_add a).
Proof. intros s. reflexivity. Qed.

Lemma quiet_wallet_remove (a : string) : quiet (wallet_remove a).
Proof. intros s. reflexivity. Qed.

Lemma quiet_bind {A B} (m : M A) (k : A -> M B) :
  quiet m -> (forall a, quiet (k a)) -> quiet (m ≫= k).
Proof.
  intros Hm Hk s. rewrite run_bind. specialize (Hm s).
  destruct (run m s) as [[a | e] s']; cbn [snd] in *.
  - now rewrite Hk.
  - exact Hm.
Qed.

Lemma quiet_try_catchM {A} (body : M A) (handler : Error -> M A) :
  quiet body -> (forall e, quiet (handler e)) -> quiet (try_catchM body handler).
Proof.
  intros Hm Hk s. rewrite run_try_catchM. specialize (Hm s).
  destruct (run body s) as [[a | e] s']; cbn [snd] in *.
  - exact Hm.
  - now rewrite Hk.
Qed.

Lemma aborts_throw {A} (e : Error) : aborts (@throw A e).
Proof. intros s. split; [now exists e | reflexivity]. Qed.

Lemma aborts_bind_l {A B} (m : M A) (k : A -> M B) : aborts m -> aborts (m ≫= k).
Proof.
  intros Hm s. rewrite run_bind. destruct (Hm s) as [[e He] Hs].
  destruct (run m s) as [[a | e'] s']; cbn [fst snd] in *; [discriminate |].
  split; [now exists e' | exact Hs].
Qed.

Lemma aborts_bind_r {A B} (m : M A) (k : A -> M B) :
  quiet m -> (forall a, aborts (k a)) -> aborts (m ≫= k).
Proof.
  intros Hm Hk s. rewrite run_bind. specialize (Hm s).
  destruct (run m s) as [[a | e] s']; cbn [fst snd] in *.
  - destruct (Hk a s') as [He Hs]. split; [exact He | congruence].
  - split; [now exists e | exact Hm].
Qed.

Lemma total_try_catchM {A} (body : M A) (handler : Error -> M A) :
  (forall e, total (handler e)) -> total (try_catchM body handler).
Proof.
  intros Hk s. rewrite run_try_catchM.
  destruct (run body s) as [[a | e] s']; [now exists a | apply Hk].
Qed.

Lemma total_ret {A} (a : A) : total (mret a).
Proof. intros s. now exists a. Qed.

End Monad.

Create HintDb quiet.

#[local] Hint Resolve quiet_ret quiet_throw quiet_lift quiet_await quiet_await_all3
  quiet_get_nonceCache quiet_set_nonceCache quiet_wallet_add quiet_wallet_remove : quiet.

(** Splits a [quiet] goal along the structure of the code. *)
Ltac quiet_step :=
  match goal with
  | |- quiet (_ ≫= _) => apply quiet_bind; [| intros ?]
  | |- quiet (try_catchM _ _) => apply quiet_try_catchM; [| intros ?]
  | |- quiet (if ?b then _ else _) => destruct b
  | |- quiet (match ?x with _ => _ end) => destruct x
  | |- quiet (let '(_, _) := ?p in _) => destruct p
  | |- quiet _ => solve [auto with quiet]
  end.

Ltac quiet_auto := repeat quiet_step.

Section Quiet.

Variable w : World.

Lemma quiet_getNextNonce (a : string) : quiet (getNextNonce w a).
Proof. unfold getNextNonce. quiet_auto. Qed.

Lemma quiet_getTokenInfo (a : string) : quiet (getTokenInfo w a).
Proof. unfold getTokenInfo. quiet_auto. Qed.

Lemma quiet_checkFeeTier (a b : string) (st : TierSearch) (fee : Z) :
  quiet (checkFeeTier w a b st fee).
Proof. unfold checkFeeTier. quiet_auto. Qed.

Lemma quiet_checkFeeTiers (a b : string) (fees : list Z) (st : TierSearch) :
  quiet (checkFeeTiers w a b st fees).
Proof.
  revert st. induction fees as [| fee rest IH]; intros st; cbn [checkFeeTiers].
  - auto with quiet.
  - apply quiet_bind; [apply quiet_checkFeeTier | intros ?; apply IH].
Qed.

Lemma quiet_firstExistingPool (a b : string) (fees : list Z) :
  quiet (firstExistingPool w a b fees).
Proof.
  induction fees as [| fee rest IH]; cbn [firstExistingPool]; [auto with quiet |].
  apply quiet_bind; [quiet_auto | intros []; [auto with quiet | exact IH]].
Qed.

Lemma quiet_findBestFeeTier (a b : string) : quiet (findBestFeeTier w a b).
Proof.
  unfold findBestFeeTier. apply quiet_try_catchM; [| intros; auto with quiet].
  apply quiet_bind; [apply quiet_checkFeeTiers |].
  intros st. destruct (maxLiquidity st =? 0); [apply quiet_firstExistingPool | auto with quiet].
Qed.

Lemma quiet_newContract (a : string) : quiet (newContract w a).
Proof. unfold newContract. quiet_auto. Qed.

Lemma quiet_checkForHoneypot (a : string) : quiet (checkForHoneypot w a).
Proof.
  unfold checkForHoneypot. apply quiet_try_catchM; [| intros; auto with quiet].
  apply quiet_bind; [apply quiet_newContract | intros ?]. quiet_auto.
Qed.

Lemma quiet_validatePancakeV3Pool (a : string) (fee : Z) :
  quiet (validatePancakeV3Pool w a fee).
Proof. unfold validatePancakeV3Pool. quiet_auto. Qed.

Lemma quiet_firstValidPool (a : string) (fees : list Z) : quiet (firstValidPool w a fees).
Proof.
  induction fees as [| fee rest IH]; cbn [firstValidPool]; [auto with quiet |].
  apply quiet_bind; [apply quiet_validatePancakeV3Pool |].
  intros []; [auto with quiet | exact IH].
Qed.

Lemma quiet_validOrAlternativeFeeTier (a : string) (fee : Z) :
  quiet (validOrAlternativeFeeTier w a fee).
Proof.
  unfold validOrAlternativeFeeTier.
  apply quiet_bind; [apply quiet_validatePancakeV3Pool |].
  intros []; cbn [negb]; [auto with quiet |].
  apply quiet_bind; [apply quiet_firstValidPool | intros []; auto with quiet].
Qed.

Lemma quiet_quoterAttempt (path amountIn : string) : quiet (quoterAttempt w path amountIn).
Proof. unfold quoterAttempt. quiet_auto. Qed.

Lemma quiet_expectedOutput estimate (a : string) (fee : Z) (path amountIn : string) :
  quiet (expectedOutput w estimate a fee path amountIn).
Proof.
  unfold expectedOutput. apply quiet_try_catchM; [apply quiet_quoterAttempt | intros ?].
  quiet_auto.
Qed.

Lemma quiet_expectedOutput_pinned estimate (a : string) (fee : Z) (path amountIn : string) :
  quiet (expectedOutput_pinned w estimate a fee path amountIn).
Proof.
  unfold expectedOutput_pinned. apply quiet_try_catchM; [apply quiet_quoterAttempt | intros ?].
  quiet_auto.
Qed.

Lemma quiet_fromWei_in_log (text : string) : quiet (fromWei_in_log text).
Proof. unfold fromWei_in_log. quiet_auto. Qed.

Lemma quiet_resolve (scope : list string) (ident : string) : quiet (resolve scope ident).
Proof. unfold resolve. quiet_auto. Qed.

Lemma quiet_cleanup_and_rethrow {A} (privateKey : string) (e : Error) :
  quiet (@cleanup_and_rethrow w A privateKey e).
Proof. unfold cleanup_and_rethrow. quiet_auto. Qed.

Lemma aborts_cleanup_and_rethrow {A} (privateKey : string) (body : M A) :
  aborts body -> aborts (try_catchM body (cleanup_and_rethrow w privateKey)).
Proof.
  intros Hb s. rewrite run_try_catchM. destruct (Hb s) as [[e He] Hs].
  destruct (run body s) as [[a | e'] s']; cbn [fst snd] in *; [discriminate |].
  pose proof (quiet_cleanup_and_rethrow (A := A) privateKey e' s') as Hq.
  split; [| congruence].
  exists e'. unfold cleanup_and_rethrow. rewrite run_bind.
  destruct (run (try_catchM _ _) s') as [[[] | e''] s''] eqn:E; [reflexivity |].
  exfalso. rewrite run_try_catchM in E.
  destruct (run (_ ≫= _) s') as [[[] | ?] ?]; discriminate E.
Qed.

(** What the [catch] of an entry point does to a run. *)
Lemma cleanup_and_rethrow_run {A} (privateKey : string) (e : Error) (s : State) :
  fst (run (@cleanup_and_rethrow w A privateKey e) s) = Throw e /\
  submitted (snd (run (@cleanup_and_rethrow w A privateKey e) s)) = submitted s /\
  nonceCache (snd (run (@cleanup_and_rethrow w A privateKey e) s)) = nonceCache s /\
  clock (snd (run (@cleanup_and_rethrow w A privateKey e) s)) = clock s /\
  wallet (snd (run (@cleanup_and_rethrow w A privateKey e) s))
    = match privateKeyToAccount w privateKey with
      | Ok account => filter (fun a => a ≠ account) (wallet s)
      | Throw _ => wallet s
      end.
Proof.
  unfold cleanup_and_rethrow. rewrite run_bind, run_try_catchM, run_bind.
  unfold lift at 1. cbn [run].
  destruct (privateKeyToAccount w privateKey) as [account | e']; cbn; repeat split.
Qed.

End Quiet.

(** * The nonce cache *)

Section Nonce.

Variable w : World.

Lemma getNextNonce_run (a : string) (s : State) :
  run (getNextNonce w a) s =
  match getTransactionCount w (clock s) a with
  | Ok onChainNonce =>
      let next := match nonceCache s !! a with
                  | None => onChainNonce
                  | Some cached => if cached <? onChainNonce then onChainNonce else cached + 1
                  end in
      (Ok next, {| clock := S (clock s); nonceCache := <[a := next]> (nonceCache s);
                   wallet := wallet s; submitted := submitted s |})
  | Throw _ =>
      (getTransactionCount w (S (clock s)) a, tick (tick s))
  end.
Proof.
  unfold getNextNonce, try_catchM, await, get_nonceCache, set_nonceCache.
  cbn [run mbind M_bind mret M_ret].
  destruct (getTransactionCount w (clock s) a) as [n | e]; cbn; [reflexivity |].
  destruct (getTransactionCount w (S (clock s)) a); reflexivity.
Qed.

Lemma cache_le_refl (o : option Z) : cache_le o o.
Proof. destruct o; simpl; lia. Qed.

(** One call never lowers a cached nonce, for the address asked or any other. *)
Lemma getNextNonce_cache_monotone (a address : string) (s : State) :
  cache_le (nonceCache s !! address) (nonceCache (snd (run (getNextNonce w a) s)) !! address).
Proof.
  rewrite getNextNonce_run.
  destruct (getTransactionCount w (clock s) a) as [n | e]; cbn [snd nonceCache tick].
  - destruct (decide (a = address)) as [-> | Hne].
    + rewrite lookup_insert_eq. destruct (nonceCache s !! address) as [c |]; simpl; [| exact I].
      destruct (Z.ltb_spec c n); lia.
    + rewrite lookup_insert_ne by exact Hne. apply cache_le_refl.
  - apply cache_le_refl.
Qed.

(** A call whose first request succeeds returns more than the cached value
    and caches what it returns. *)
Lemma getNextNonce_fresh (a : string) (s : State) (n : Z) :
  is_ok (getTransactionCount w (clock s) a) = true ->
  fst (run (getNextNonce w a) s) = Ok n ->
  nonceCache (snd (run (getNextNonce w a) s)) !! a = Some n /\
  forall c, nonceCache s !! a = Some c -> c < n.
Proof.
  rewrite getNextNonce_run.
  destruct (getTransactionCount w (clock s) a) as [m | e]; [| discriminate].
  intros _. cbn [fst snd nonceCache]. intros [= <-]. split.
  - apply lookup_insert_eq.
  - intros c ->. destruct (Z.ltb_spec c m); lia.
Qed.

Lemma nonce_calls_later (addresses : list string) (s : State) (a : string)
    (c : Z) (j tj : nat) (nj : Z) :
  nonceCache s !! a = Some c ->
  nonce_calls w addresses s !! j = Some (a, tj, Ok nj) ->
  is_ok (getTransactionCount w tj a) = true ->
  c < nj.
Proof.
  revert s c j. induction addresses as [| a' rest IH]; intros s c j Hc Hj Hok.
  - destruct j; discriminate Hj.
  - destruct j as [| j]; cbn [nonce_calls] in Hj.
    + injection Hj as -> <- Hr.
      destruct (getNextNonce_fresh a s nj Hok Hr) as [_ Hlt]. now apply Hlt.
    + change ((?x :: ?l) !! S j) with (l !! j) in Hj.
      pose proof (getNextNonce_cache_monotone a' a s) as Hmono. rewrite Hc in Hmono.
      destruct (nonceCache (snd (run (getNextNonce w a') s)) !! a) as [c' |] eqn:Hc';
        [| contradiction].
      simpl in Hmono. specialize (IH _ c' j Hc' Hj Hok). lia.
Qed.

End Nonce.

(** C4, as amended: a call never lowers the cached nonce of any address; and
    among sequential calls, two calls for one address whose first request to
    the node succeeded return strictly increasing nonces, whatever the node
    reported (stale values included) and whatever calls lie between them. *)
Theorem getNextNonce_strictly_increasing (w : World) (addresses : list string) (s : State)
    (a : string) (i j ti tj : nat) (ni nj : Z) :
  (i < j)%nat ->
  nonce_calls w addresses s !! i = Some (a, ti, Ok ni) ->
  nonce_calls w addresses s !! j = Some (a, tj, Ok nj) ->
  is_ok (getTransactionCount w ti a) = true ->
  is_ok (getTransactionCount w tj a) = true ->
  ni < nj /\
  forall (a' address : string) (s' : State),
    cache_le (nonceCache s' !! address)
             (nonceCache (snd (run (getNextNonce w a') s')) !! address).
Proof.
  intros Hij Hi Hj Hoki Hokj. split; [| intros; apply getNextNonce_cache_monotone].
  revert s i j Hij Hi Hj. induction addresses as [| a' rest IH]; intros s i j Hij Hi Hj.
  - destruct i; discriminate Hi.
  - destruct j as [| j]; [lia |]. cbn [nonce_calls] in Hi, Hj.
    change ((?x :: ?l) !! S j) with (l !! j) in Hj.
    destruct i as [| i].
    + injection Hi as -> <- Hr.
      destruct (getNextNonce_fresh w a s ni Hoki Hr) as [Hcache _].
      exact (nonce_calls_later w rest _ a ni j tj nj Hcache Hj Hokj).
    + change ((?x :: ?l) !! S i) with (l !! i) in Hi.
      eapply (IH _ i j); [lia | exact Hi | exact Hj].
Qed.

Lemma getNextNonce_strictly_increasing_witness :
  5 < 6 /\
  forall (a' address : string) (s' : State),
    cache_le (nonceCache s' !! address)
             (nonceCache (snd (run (getNextNonce flaky_nonce_world a') s')) !! address).
Proof.
  apply (getNextNonce_strictly_increasing flaky_nonce_world ["0xA"; "0xB"; "0xA"; "0xA"]
           initial_state "0xA" 0 2 0 3 5 6); [lia | reflexivity ..].
Defined.

(** C4 as stated fails: when the first request of a call fails and the
    request repeated in the [catch] block succeeds, the call returns the
    node's pending nonce as it is and leaves the cache alone.  Two sequential
    calls, both returning normally, give 5 and 5. *)
Lemma getNextNonce_repeats_after_failed_read :
  nonce_calls flaky_nonce_world ["0xA"; "0xA"] initial_state
    = [("0xA", 0%nat, Ok 5); ("0xA", 1%nat, Ok 5)] /\
  ~ 5 < 5.
Proof. split; [reflexivity | lia]. Qed.

(** * Fee-tier discovery *)

Section FeeTier.

Variable w : World.
Variables tokenA tokenB : string.

(** The factory and the pools answer the same throughout the call. *)
Hypothesis stable_pools :
  forall t fee, factory_getPool w t tokenA tokenB fee = factory_getPool w 0 tokenA tokenB fee.
Hypothesis stable_liquidity :
  forall t poolAddress, pool_liquidity w t poolAddress = pool_liquidity w 0 poolAddress.





End FeeTier.


(** * Pool validation and the order of the pair *)

Section Validation.

Variable w : World.

Lemma toBN_threshold : toBN (JsString "1000000") = Ok 1000000.
Proof. reflexivity. Qed.

Lemma validatePancakeV3Pool_run (tokenAddress : string) (feeTier : Z) (s : State) :
  fst (run (validatePancakeV3Pool w tokenAddress feeTier) s) =
  Ok match sortedTokens w tokenAddress with
     | Throw _ => false
     | Ok (token0, token1) =>
         match factory_getPool w (clock s) token0 token1 feeTier with
         | Throw _ => false
         | Ok poolAddress =>
             if String.eqb poolAddress ZERO_ADDRESS then false
             else
               match pool_liquidity w (S (clock s)) poolAddress with
               | Throw _ => false
               | Ok liquidity =>
                   match toBN (JsString liquidity) with
                   | Throw _ => false
                   | Ok l =>
                       if l <=? 1000000 then false
                       else
                         match pool_slot0 w (S (S (clock s))) poolAddress with
                         | Throw _ => false
                         | Ok slot0 => negb (String.eqb (sqrtPriceX96 slot0) "0")
                         end
                   end
               end
         end
     end.
Proof.
  unfold validatePancakeV3Pool. rewrite run_try_catchM, run_bind.
  unfold lift at 1. cbn [run].
  destruct (sortedTokens w tokenAddress) as [[token0 token1] | e]; [| reflexivity].
  rewrite run_bind. unfold await at 1. cbn [run].
  destruct (factory_getPool w (clock s) token0 token1 feeTier) as [pool | e]; [| reflexivity].
  destruct (String.eqb pool ZERO_ADDRESS); [reflexivity |].
  rewrite run_bind. unfold await at 1. cbn [run clock tick].
  destruct (pool_liquidity w (S (clock s)) pool) as [liquidity | e]; [| reflexivity].
  rewrite run_bind. unfold lift at 1. cbn [run]. rewrite toBN_threshold.
  destruct (toBN (JsString liquidity)) as [l | e]; [| reflexivity].
  cbn [mbind Outcome_bind obind]. destruct (l <=? 1000000); [reflexivity |].
  rewrite run_try_catchM, run_bind. unfold await at 1. cbn [run clock tick].
  destruct (pool_slot0 w (S (S (clock s))) pool) as [slot0 | e]; [| reflexivity].
  destruct (String.eqb (sqrtPriceX96 slot0) "0"); reflexivity.
Qed.

End Validation.

(** For a token address that the library can spell, validation asks the
    factory for the pair with the token first exactly when the token's
    EIP-55 spelling is below WBNB's as a string.  It answers [false] when
    the factory reports the zero address for that pair, when the liquidity
    is at most 1000000, when [sqrtPriceX96] is ["0"], and when any of the
    three requests fails; it answers [true] in the one remaining case.  The
    requests are the ones validation makes, in order, from the state it
    starts in.  The pair is in ascending numeric order when the comparison
    of the spellings agrees with that of the numbers. *)
Theorem validatePancakeV3Pool_fails_closed (w : World) (tokenAddress : string) (feeTier : Z)
    (s : State) (spelling wbnb : string) :
  toChecksumAddress w tokenAddress = Ok spelling ->
  toChecksumAddress w WBNB_ADDRESS = Ok wbnb ->
  let answer := fst (run (validatePancakeV3Pool w tokenAddress feeTier) s) in
  let token0 := if string_lt spelling wbnb then tokenAddress else WBNB_ADDRESS in
  let token1 := if string_lt spelling wbnb then WBNB_ADDRESS else tokenAddress in
  let getPool := factory_getPool w (clock s) token0 token1 feeTier in
  let liquidity := pool_liquidity w (S (clock s)) in
  let slot0 := pool_slot0 w (S (S (clock s))) in
  (getPool = Ok ZERO_ADDRESS -> answer = Ok false) /\
  (forall pool text l,
     getPool = Ok pool -> liquidity pool = Ok text -> toBN (JsString text) = Ok l ->
     l <= 1000000 -> answer = Ok false) /\
  (forall pool state,
     getPool = Ok pool -> slot0 pool = Ok state -> sqrtPriceX96 state = "0" ->
     answer = Ok false) /\
  (forall e, getPool = Throw e -> answer = Ok false) /\
  (forall pool e,
     getPool = Ok pool -> liquidity pool = Throw e \/ slot0 pool = Throw e ->
     answer = Ok false) /\
  (forall pool text l state,
     getPool = Ok pool -> pool <> ZERO_ADDRESS ->
     liquidity pool = Ok text -> toBN (JsString text) = Ok l -> 1000000 < l ->
     slot0 pool = Ok state -> sqrtPriceX96 state <> "0" ->
     answer = Ok true) /\
  (string_lt spelling wbnb = (address_value tokenAddress <? address_value WBNB_ADDRESS) ->
   address_value token0 <= address_value token1).
Proof.
  intros Hspelling Hwbnb. cbn zeta. rewrite validatePancakeV3Pool_run.
  unfold sortedTokens. rewrite Hspelling, Hwbnb. cbn [mbind Outcome_bind obind].
  assert ((if string_lt spelling wbnb
           then (tokenAddress, WBNB_ADDRESS) else (WBNB_ADDRESS, tokenAddress))
          = (if string_lt spelling wbnb then tokenAddress else WBNB_ADDRESS,
             if string_lt spelling wbnb then WBNB_ADDRESS else tokenAddress)) as ->
    by (destruct (string_lt spelling wbnb); reflexivity).
  repeat split.
  - intros ->. reflexivity.
  - intros pool text l -> -> -> Hl.
    destruct (String.eqb pool ZERO_ADDRESS); [reflexivity |].
    destruct (Z.leb_spec l 1000000); [reflexivity | lia].
  - intros pool state -> -> ->.
    destruct (String.eqb pool ZERO_ADDRESS); [reflexivity |].
    destruct (pool_liquidity _ _ pool); [| reflexivity].
    destruct (toBN _); [| reflexivity]. destruct (_ <=? _); reflexivity.
  - intros e ->. reflexivity.
  - intros pool e -> [-> | ->].
    + destruct (String.eqb pool ZERO_ADDRESS); reflexivity.
    + destruct (String.eqb pool ZERO_ADDRESS); [reflexivity |].
      destruct (pool_liquidity _ _ pool); [| reflexivity].
      destruct (toBN _); [| reflexivity]. destruct (_ <=? _); reflexivity.
  - intros pool text l state -> Hpool -> -> Hl -> Hstate.
    destruct (String.eqb_spec pool ZERO_ADDRESS); [contradiction |].
    destruct (Z.leb_spec l 1000000); [lia |].
    destruct (String.eqb_spec (sqrtPriceX96 state) "0"); [contradiction | reflexivity].
  - intros ->. destruct (Z.ltb_spec (address_value tokenAddress) (address_value WBNB_ADDRESS));
      lia.
Qed.

Lemma validatePancakeV3Pool_fails_closed_witness :
  fst (run (validatePancakeV3Pool live_world TOKEN FEE_TIERS_MEDIUM) initial_state) = Ok true.
Proof.
  refine (proj1 (proj2 (proj2 (proj2 (proj2 (proj2
            (validatePancakeV3Pool_fails_closed live_world TOKEN FEE_TIERS_MEDIUM initial_state
               "0xF8A0BF9cF54Bb92F17374d9e9A321E6a111a51bD"
               "0xbb4CdB9CBd36B01bD1cBaEBF2De08d9173bc095c" _ _))))))
            "0x2222222222222222222222222222222222222222" "5000000000" 5000000000
            {| sqrtPriceX96 := "79228162514264337593543950336" |} _ _ _ _ _ _ _);
    try (vm_compute; reflexivity); try discriminate.
Defined.


(** C10: the pair is ordered by comparing the EIP-55 spellings as strings,
    and an upper-case letter sorts before every lower-case one.  The address
    0xF8A0...51bD is spelt with a capital F, so it is placed before WBNB
    (0xbb4C...095c) although it is the larger number. *)
Theorem sortedTokens_not_by_value (w : World) :
  toChecksumAddress w = eip55_toChecksumAddress ->
  sortedTokens w TOKEN = Ok (TOKEN, WBNB_ADDRESS) /\
  address_value WBNB_ADDRESS < address_value TOKEN.
Proof.
  intros Hlib. unfold sortedTokens. rewrite Hlib. vm_compute. split; reflexivity.
Qed.

Lemma sortedTokens_not_by_value_witness :
  sortedTokens live_world TOKEN = Ok (TOKEN, WBNB_ADDRESS) /\
  address_value WBNB_ADDRESS < address_value TOKEN.
Proof. apply (sortedTokens_not_by_value live_world). reflexivity. Defined.

(** * Quoting *)

Section Quoting.

Variable w : World.
Variable estimate : string -> Slot0 -> Outcome string.

Lemma quoterAttempt_clock (path amountIn : string) (s : State) :
  snd (run (quoterAttempt w path amountIn) s) = tick s.
Proof.
  unfold quoterAttempt. rewrite run_bind. unfold await at 1. cbn [run].
  destruct (quoter_quoteExactInput w (clock s) path amountIn) as [[[text |] | | |] | e];
    try reflexivity.
  destruct (String.eqb text ""); reflexivity.
Qed.

Lemma expectedOutput_run (tokenAddress : string) (feeTier : Z) (path amountIn : string)
    (s : State) :
  fst (run (expectedOutput w estimate tokenAddress feeTier path amountIn) s) =
  Ok match fst (run (quoterAttempt w path amountIn) s) with
     | Ok quoted => quoted
     | Throw _ =>
         match sortedTokens w tokenAddress with
         | Throw _ => MINIMAL_FALLBACK
         | Ok (token0, token1) =>
             match factory_getPool w (S (clock s)) token0 token1 feeTier with
             | Throw _ => MINIMAL_FALLBACK
             | Ok poolAddress =>
                 if String.eqb poolAddress ZERO_ADDRESS then MINIMAL_FALLBACK
                 else
                   match pool_slot0 w (S (S (clock s))) poolAddress with
                   | Throw _ => MINIMAL_FALLBACK
                   | Ok slot0 =>
                       match estimate token0 slot0 with
                       | Ok estimated => estimated
                       | Throw _ => MINIMAL_FALLBACK
                       end
                   end
             end
         end
     end.
Proof.
  unfold expectedOutput. rewrite run_try_catchM.
  pose proof (quoterAttempt_clock path amountIn s) as Hclock.
  destruct (run (quoterAttempt w path amountIn) s) as [[quoted | e] s1]; [reflexivity |].
  cbn [fst snd] in *. subst s1.
  rewrite run_try_catchM, run_bind. unfold lift at 1. cbn [run].
  destruct (sortedTokens w tokenAddress) as [[token0 token1] | e0]; [| reflexivity].
  rewrite run_bind. unfold await at 1. cbn [run clock tick].
  destruct (factory_getPool w (S (clock s)) token0 token1 feeTier) as [pool | e1];
    [| reflexivity].
  destruct (String.eqb pool ZERO_ADDRESS); [reflexivity |]. cbn [negb].
  rewrite run_bind. unfold await at 1. cbn [run clock tick].
  destruct (pool_slot0 w (S (S (clock s))) pool) as [slot0 | e2]; [| reflexivity].
  unfold lift. cbn [run]. destruct (estimate token0 slot0); reflexivity.
Qed.

Lemma expectedOutput_pinned_run (tokenAddress : string) (feeTier : Z) (path amountIn : string)
    (s : State) :
  fst (run (expectedOutput_pinned w estimate tokenAddress feeTier path amountIn) s) =
  match fst (run (quoterAttempt w path amountIn) s) with
  | Ok quoted => Ok quoted
  | Throw _ =>
      let raise cause := Throw (JsErrorWith "Could not estimate price for fee tier" cause) in
      match sortedTokens w tokenAddress with
      | Throw e => raise e
      | Ok (token0, token1) =>
          match factory_getPool w (S (clock s)) token0 token1 feeTier with
          | Throw e => raise e
          | Ok poolAddress =>
              if String.eqb poolAddress ZERO_ADDRESS
              then raise (JsError "No pool exists for this token with the fee tier. Try using the auto-select option instead.")
              else
                match pool_slot0 w (S (S (clock s))) poolAddress with
                | Throw e => raise e
                | Ok slot0 =>
                    Ok match estimate token0 slot0 with
                       | Ok estimated => estimated
                       | Throw _ => MINIMAL_FALLBACK
                       end
                end
          end
      end
  end.
Proof.
  unfold expectedOutput_pinned. rewrite run_try_catchM.
  pose proof (quoterAttempt_clock path amountIn s) as Hclock.
  destruct (run (quoterAttempt w path amountIn) s) as [[quoted | e] s1]; [reflexivity |].
  cbn [fst snd] in *. subst s1. cbn zeta.
  rewrite run_try_catchM, run_bind. unfold lift at 1. cbn [run].
  destruct (sortedTokens w tokenAddress) as [[token0 token1] | e0]; [| reflexivity].
  rewrite run_bind. unfold await at 1. cbn [run clock tick].
  destruct (factory_getPool w (S (clock s)) token0 token1 feeTier) as [pool | e1];
    [| reflexivity].
  destruct (String.eqb pool ZERO_ADDRESS); [reflexivity |]. cbn [negb].
  rewrite run_bind. unfold await at 1. cbn [run clock tick].
  destruct (pool_slot0 w (S (S (clock s))) pool) as [slot0 | e2]; [| reflexivity].
  unfold lift. cbn [run]. destruct (estimate token0 slot0); reflexivity.
Qed.

End Quoting.

(** C2, as amended.  In [buyToken] and [sellToken] quoting never raises: it
    gives the quoter's answer when the quoter call succeeds and has a known
    shape, otherwise the estimate from the pool's price, and the fixed value
    1000 when the pair cannot be ordered, the factory or the pool cannot be
    read, no pool exists, or the calculation itself fails.  In
    [buyTokenWithFeeTier] and [sellTokenWithFeeTier] a failed calculation is
    replaced by 1000 too, but a missing pool or a failed read is raised as
    "Could not estimate price".  [estimate] is the price calculation of
    either side. *)
Theorem quoting_fallback_chain (w : World) (estimate : string -> Slot0 -> Outcome string)
    (tokenAddress : string) (feeTier : Z) (path amountIn : string) (s : State) :
  total (expectedOutput w estimate tokenAddress feeTier path amountIn) /\
  fst (run (expectedOutput w estimate tokenAddress feeTier path amountIn) s) =
    Ok match fst (run (quoterAttempt w path amountIn) s) with
       | Ok quoted => quoted
       | Throw _ =>
           match sortedTokens w tokenAddress with
           | Throw _ => MINIMAL_FALLBACK
           | Ok (token0, token1) =>
               match factory_getPool w (S (clock s)) token0 token1 feeTier with
               | Throw _ => MINIMAL_FALLBACK
               | Ok poolAddress =>
                   if String.eqb poolAddress ZERO_ADDRESS then MINIMAL_FALLBACK
                   else
                     match pool_slot0 w (S (S (clock s))) poolAddress with
                     | Throw _ => MINIMAL_FALLBACK
                     | Ok slot0 =>
                         match estimate token0 slot0 with
                         | Ok estimated => estimated
                         | Throw _ => MINIMAL_FALLBACK
                         end
                     end
               end
           end
       end /\
  fst (run (expectedOutput_pinned w estimate tokenAddress feeTier path amountIn) s) =
    match fst (run (quoterAttempt w path amountIn) s) with
    | Ok quoted => Ok quoted
    | Throw _ =>
        let raise cause := Throw (JsErrorWith "Could not estimate price for fee tier" cause) in
        match sortedTokens w tokenAddress with
        | Throw e => raise e
        | Ok (token0, token1) =>
            match factory_getPool w (S (clock s)) token0 token1 feeTier with
            | Throw e => raise e
            | Ok poolAddress =>
                if String.eqb poolAddress ZERO_ADDRESS
                then raise (JsError "No pool exists for this token with the fee tier. Try using the auto-select option instead.")
                else
                  match pool_slot0 w (S (S (clock s))) poolAddress with
                  | Throw e => raise e
                  | Ok slot0 =>
                      Ok match estimate token0 slot0 with
                         | Ok estimated => estimated
                         | Throw _ => MINIMAL_FALLBACK
                         end
                  end
            end
        end
    end.
Proof.
  split; [| split].
  - intros s'. rewrite expectedOutput_run. eauto.
  - apply expectedOutput_run.
  - apply expectedOutput_pinned_run.
Qed.

(** C2 as stated fails for the tier-pinned entry points.  The connection
    is lost after validation and the heuristic: the quoter times out, the
    estimate asks the factory, which times out too, and
    [buyTokenWithFeeTier] raises from its quoting block, with the path it
    has encoded itself.  Taken alone, the block of [buyToken] answers 1000
    in the same situation, and that of the tier-pinned entry points
    raises. *)
Lemma quoting_pinned_raises :
  let route :=
    "0xbb4CdB9CBd36B01bD1cBaEBF2De08d9173bc095c0009c4F8A0BF9cF54Bb92F17374d9e9A321E6a111a51bD" in
  let estimate :=
    estimateFromPool_buy
      {| address := Some TOKEN; symbol := "TKN"; name := "Token"; decimals := 9 |}
      "100000000000000000" in
  let reached :=
    {| clock := 9; nonceCache := ∅;
       wallet := ["0x1111111111111111111111111111111111111111"]; submitted := [] |} in
  encodePath [WBNB_ADDRESS; TOKEN] [FEE_TIERS_MEDIUM] = Ok route /\
  fst (run (validatePancakeV3Pool dropping_world TOKEN FEE_TIERS_MEDIUM)
         {| clock := 4; nonceCache := ∅;
            wallet := ["0x1111111111111111111111111111111111111111"]; submitted := [] |})
    = Ok true /\
  run (buyTokenWithFeeTier_screening dropping_world "0xkey" TOKEN "0.1" FEE_TIERS_MEDIUM)
      initial_state
    = (Ok ("0x1111111111111111111111111111111111111111", "100000000000000000",
           {| address := Some TOKEN; symbol := "TKN"; name := "Token"; decimals := 9 |},
           FEE_TIERS_MEDIUM),
       {| clock := 7; nonceCache := ∅;
          wallet := ["0x1111111111111111111111111111111111111111"]; submitted := [] |}) /\
  fst (run (expectedOutput_pinned dropping_world estimate TOKEN FEE_TIERS_MEDIUM route
              "100000000000000000") reached)
    = Throw (JsErrorWith "Could not estimate price for fee tier" (LibError "timeout")) /\
  fst (run (expectedOutput dropping_world estimate TOKEN FEE_TIERS_MEDIUM route
              "100000000000000000") reached)
    = Ok "1000" /\
  fst (run (buyTokenWithFeeTier dropping_world "0xkey" TOKEN "0.1" 1%float FEE_TIERS_MEDIUM)
         initial_state)
    = Throw (JsErrorWith "Could not estimate price for fee tier" (LibError "timeout")) /\
  submitted (snd (run (buyTokenWithFeeTier dropping_world "0xkey" TOKEN "0.1" 1%float
                         FEE_TIERS_MEDIUM) initial_state)) = [].
Proof. vm_compute. repeat split; reflexivity. Qed.

#[local] Hint Resolve quiet_getNextNonce quiet_getTokenInfo quiet_findBestFeeTier
  quiet_newContract quiet_checkForHoneypot quiet_validatePancakeV3Pool
  quiet_validOrAlternativeFeeTier quiet_quoterAttempt quiet_expectedOutput
  quiet_expectedOutput_pinned quiet_fromWei_in_log quiet_resolve : quiet.

(** Walks an [aborts] goal down the code until something raises. *)
Ltac aborts_step :=
  match goal with
  | |- aborts (throw _) => apply aborts_throw
  | |- aborts (resolve _ _ ≫= _) => apply aborts_bind_l; apply aborts_throw
  | |- aborts (if ?b then _ else _) => destruct b
  | |- aborts (_ ≫= _) => apply aborts_bind_r; [solve [auto with quiet] | intros ?]
  end.

(** * [sellToken] *)

Section SellToken.

Variable w : World.

Lemma sellToken_aborts (privateKey tokenAddress tokenAmount : string) (slippagePercent : float) :
  aborts (sellToken w privateKey tokenAddress tokenAmount slippagePercent).
Proof.
  unfold sellToken. apply aborts_cleanup_and_rethrow. cbn zeta.
  repeat aborts_step.
Qed.

End SellToken.

(** C3: whatever the node answers, [sellToken] raises and hands no
    transaction (approval or swap) to the node, so it returns no hash; and
    when the key is accepted, the token's description is read and the amount
    converts, what it raises is the reference to [tokenContract], which no
    scope of the function declares, before the balance is requested. *)
Theorem sellToken_raises_ReferenceError (w : World)
    (privateKey tokenAddress tokenAmount : string) (slippagePercent : float) (s : State) :
  let outcome := run (sellToken w privateKey tokenAddress tokenAmount slippagePercent) s in
  (exists e, fst outcome = Throw e) /\
  submitted (snd outcome) = submitted s /\
  forall (account units : string) (tokenInfo : TokenInfo),
    privateKeyToAccount w privateKey = Ok account ->
    fst (run (getTokenInfo w tokenAddress) (snd (run (wallet_add account) s))) = Ok tokenInfo ->
    toTokenUnits (toWei w) tokenAmount (decimals tokenInfo) = Ok units ->
    fst outcome = Throw (ReferenceError "tokenContract").
Proof.
  cbn zeta. destruct (sellToken_aborts w privateKey tokenAddress tokenAmount slippagePercent s)
    as [He Hs].
  split; [exact He |]. split; [exact Hs |].
  intros account units tokenInfo Hkey Hinfo Hunits.
  unfold sellToken. rewrite run_try_catchM, run_bind.
  unfold lift at 1. cbn [run]. rewrite Hkey. rewrite run_bind.
  destruct (run (wallet_add account) s) as [[[] | e0] s1] eqn:Hadd; [| discriminate Hadd].
  cbn [snd] in Hinfo. cbn zeta. rewrite run_bind.
  destruct (run (getTokenInfo w tokenAddress) s1) as [[info | e1] s2]; cbn [fst] in Hinfo;
    [| discriminate Hinfo].
  injection Hinfo as ->. rewrite run_bind. unfold lift at 1. cbn [run].
  rewrite Hunits. cbn [try_catch]. rewrite run_bind.
  change (run (resolve sellToken_scope "tokenContract") s2)
    with (@Throw unit (ReferenceError "tokenContract"), s2).
  unfold cleanup_and_rethrow. rewrite run_bind, run_try_catchM, run_bind.
  unfold lift at 1. cbn [run]. rewrite Hkey. reflexivity.
Qed.

Lemma sellToken_raises_ReferenceError_witness :
  fst (run (sellToken live_world "0xkey" TOKEN "3.5" 1%float) initial_state)
  = Throw (ReferenceError "tokenContract").
Proof.
  refine (proj2 (proj2 (sellToken_raises_ReferenceError live_world "0xkey" TOKEN "3.5" 1%float
                          initial_state))
            "0x1111111111111111111111111111111111111111" "3500000000"
            {| address := Some TOKEN; symbol := "TKN"; name := "Token"; decimals := 9 |}
            _ _ _); reflexivity.
Defined.

(** * The honeypot heuristic *)

Section Honeypot.

Variable w : World.

(** A failure of the code request, or an address that web3 refuses, gives
    [false]. *)
Lemma checkForHoneypot_read_failure (tokenAddress : string) (s : State) :
  (isAddress w tokenAddress = false \/
   exists e, getCode w (clock s) tokenAddress = Throw e) ->
  fst (run (checkForHoneypot w tokenAddress) s) = Ok false.
Proof.
  intros H. unfold checkForHoneypot, newContract.
  rewrite run_try_catchM, run_bind.
  destruct (isAddress w tokenAddress); [| reflexivity].
  destruct H as [H | [e H]]; [discriminate |].
  cbn [run mret M_ret]. rewrite run_bind. unfold await at 1. cbn [run]. rewrite H. reflexivity.
Qed.

(** A failure of the supply request changes nothing. *)
Lemma checkForHoneypot_run (tokenAddress code : string) (s : State) :
  isAddress w tokenAddress = true ->
  getCode w (clock s) tokenAddress = Ok code ->
  fst (run (checkForHoneypot w tokenAddress) s)
  = Ok ((50000 <? Z.of_nat (String.length code))
        || (includes "owner" code && includes "blacklist" code && includes "swap" code)).
Proof.
  intros Ha Hc. unfold checkForHoneypot, newContract.
  rewrite run_try_catchM, run_bind, Ha. cbn [run mret M_ret].
  rewrite run_bind. unfold await at 1. cbn [run]. rewrite Hc.
  rewrite run_bind, run_try_catchM. unfold await. cbn [run].
  destruct (erc20_totalSupply w _ tokenAddress); reflexivity.
Qed.

(** The verdict: that of the bytecode, whatever the supply request does;
    [false] when the code request fails or the library refuses the
    address. *)
Lemma checkForHoneypot_verdict (tokenAddress : string) (s : State) :
  fst (run (checkForHoneypot w tokenAddress) s) =
  Ok (if isAddress w tokenAddress
      then match getCode w (clock s) tokenAddress with
           | Ok code => flagged code
           | Throw _ => false
           end
      else false).
Proof.
  destruct (isAddress w tokenAddress) eqn:Ha;
    [| apply checkForHoneypot_read_failure; now left].
  destruct (getCode w (clock s) tokenAddress) as [code | e] eqn:Hc.
  - now apply checkForHoneypot_run.
  - apply checkForHoneypot_read_failure. right. now exists e.
Qed.

Lemma quiet_buyToken_screening (privateKey tokenAddress bnbAmount : string) :
  quiet (buyToken_screening w privateKey tokenAddress bnbAmount).
Proof. unfold buyToken_screening. quiet_auto. Qed.

Lemma quiet_buyTokenWithFeeTier_screening (privateKey tokenAddress bnbAmount : string)
    (specificFeeTier : Z) :
  quiet (buyTokenWithFeeTier_screening w privateKey tokenAddress bnbAmount specificFeeTier).
Proof. unfold buyTokenWithFeeTier_screening. quiet_auto. Qed.

(** An entry point whose body raises after the screening and a positive
    verdict. *)
Lemma blocked_through_cleanup {A} (privateKey tokenAddress : string) (body : M A)
    (s s1 : State) (e : Error) :
  submitted s1 = submitted s ->
  run body s = (Throw e, snd (run (checkForHoneypot w tokenAddress) s1)) ->
  fst (run (try_catchM body (cleanup_and_rethrow w privateKey)) s) = Throw e /\
  submitted (snd (run (try_catchM body (cleanup_and_rethrow w privateKey)) s)) = submitted s.
Proof.
  intros Hs1 Hbody. rewrite run_try_catchM, Hbody.
  destruct (cleanup_and_rethrow_run w (A := A) privateKey e
              (snd (run (checkForHoneypot w tokenAddress) s1))) as (Hr & Hs & _).
  split; [exact Hr |]. rewrite Hs, quiet_checkForHoneypot. exact Hs1.
Qed.

End Honeypot.

(** Steps the body of an entry point and its screening, the hypothesis [H],
    through the same request. *)
Ltac screening_step H :=
  lazymatch type of H with
  | run (if ?b then _ else _) _ = _ =>
      destruct b; cbn [negb] in H |- *; try (cbn in H; discriminate H)
  | run (_ ≫= _) ?s = _ =>
      rewrite run_bind in H; rewrite run_bind;
      lazymatch type of H with
      | match run ?m s with _ => _ end = _ =>
          destruct (run m s) as [[? | ?] ?]; [| discriminate H]
      end
  end.

(** Ends the walk: the screening has returned, the heuristic answers
    [true], the body raises. *)
Ltac screening_done H Hverdict :=
  cbn in H; injection H as _ ->; rewrite run_bind;
  match goal with
  | |- context [run (checkForHoneypot ?w ?token) ?s1] =>
      destruct (run (checkForHoneypot w token) s1) as [[[] | ?] ?];
      cbn [fst snd] in Hverdict |- *; (discriminate Hverdict || reflexivity)
  end.

(** C9, as amended.  When the heuristic, run in the state that the order has
    reached after its screening, answers [true], [buyToken] and
    [buyTokenWithFeeTier] raise the honeypot error and hand no transaction to
    the node.  The heuristic never raises; its verdict is that of the
    bytecode (more than 50000 characters, or all three words), whatever the
    supply request does, and [false] when the code request fails or the
    library refuses the address.  (The two sell entry points do not run the
    heuristic.) *)
Theorem honeypot_blocks_buy_orders (w : World) (privateKey tokenAddress bnbAmount : string)
    (slippagePercent : float) (specificFeeTier : Z) (s : State) :
  let blocked (result : Outcome string * State) :=
    fst result = Throw (JsError "This token appears to be a potential honeypot. Transaction aborted for your safety.") /\
    submitted (snd result) = submitted s in
  (forall context s1,
     run (buyToken_screening w privateKey tokenAddress bnbAmount) s = (Ok context, s1) ->
     fst (run (checkForHoneypot w tokenAddress) s1) = Ok true ->
     blocked (run (buyToken w privateKey tokenAddress bnbAmount slippagePercent) s)) /\
  (forall context s1,
     run (buyTokenWithFeeTier_screening w privateKey tokenAddress bnbAmount specificFeeTier) s
     = (Ok context, s1) ->
     fst (run (checkForHoneypot w tokenAddress) s1) = Ok true ->
     blocked (run (buyTokenWithFeeTier w privateKey tokenAddress bnbAmount slippagePercent
                     specificFeeTier) s)) /\
  (forall token s',
     fst (run (checkForHoneypot w token) s') =
     Ok (if isAddress w token
         then match getCode w (clock s') token with
              | Ok code => flagged code
              | Throw _ => false
              end
         else false)).
Proof.
  cbn zeta. split; [| split].
  - intros context s1 Hscreening Hverdict.
    pose proof (quiet_buyToken_screening w privateKey tokenAddress bnbAmount s) as Hquiet.
    rewrite Hscreening in Hquiet. cbn [snd] in Hquiet.
    unfold buyToken. apply blocked_through_cleanup with (tokenAddress := tokenAddress)
      (s1 := s1); [exact Hquiet |].
    unfold buyToken_screening in Hscreening. cbn zeta in *.
    repeat screening_step Hscreening. screening_done Hscreening Hverdict.
  - intros context s1 Hscreening Hverdict.
    pose proof (quiet_buyTokenWithFeeTier_screening w privateKey tokenAddress bnbAmount
                  specificFeeTier s) as Hquiet.
    rewrite Hscreening in Hquiet. cbn [snd] in Hquiet.
    unfold buyTokenWithFeeTier. apply blocked_through_cleanup with (tokenAddress := tokenAddress)
      (s1 := s1); [exact Hquiet |].
    unfold buyTokenWithFeeTier_screening in Hscreening. cbn zeta in *.
    repeat screening_step Hscreening. screening_done Hscreening Hverdict.
  - intros token s'. apply checkForHoneypot_verdict.
Qed.

Lemma honeypot_blocks_buy_orders_witness :
  let blocked (result : Outcome string * State) :=
    fst result = Throw (JsError "This token appears to be a potential honeypot. Transaction aborted for your safety.") /\
    submitted (snd result) = [] in
  blocked (run (buyToken live_world "0xkey" TOKEN "0.1" 1%float) initial_state) /\
  blocked (run (buyTokenWithFeeTier live_world "0xkey" TOKEN "0.1" 1%float FEE_TIERS_MEDIUM)
             initial_state).
Proof.
  destruct (honeypot_blocks_buy_orders live_world "0xkey" TOKEN "0.1" 1%float FEE_TIERS_MEDIUM
              initial_state) as (Hauto & Hpinned & _).
  split.
  - eapply Hauto; [vm_compute; reflexivity | reflexivity].
  - eapply Hpinned; [vm_compute; reflexivity | reflexivity].
Defined.

(** C9 as stated fails on the sell side: on a token that the heuristic flags,
    [sellTokenWithFeeTier] goes through and submits the swap.  It fails for
    the supply request too: when that fails on a flagged token, the verdict
    is [true] all the same. *)
Lemma sellTokenWithFeeTier_ignores_honeypot :
  fst (run (checkForHoneypot live_world TOKEN) initial_state) = Ok true /\
  fst (run (sellTokenWithFeeTier live_world "0xkey" TOKEN "3.5" 1%float FEE_TIERS_MEDIUM)
           initial_state) = Ok "0xb" /\
  List.length (submitted (snd (run (sellTokenWithFeeTier live_world "0xkey" TOKEN "3.5" 1%float
                                      FEE_TIERS_MEDIUM) initial_state))) = 1%nat /\
  erc20_totalSupply supply_down_world 1 TOKEN = Throw (LibError "execution reverted") /\
  fst (run (checkForHoneypot supply_down_world TOKEN) initial_state) = Ok true.
Proof. vm_compute. repeat split; reflexivity. Qed.
(** * Path encoding *)

Section PathEncoding.

Lemma hex_value_hex_char (d : Z) : 0 <= d < 16 -> hex_value (hex_char d) = Some d.
Proof.
  intros H.
  assert (d = 0 \/ d = 1 \/ d = 2 \/ d = 3 \/ d = 4 \/ d = 5 \/ d = 6 \/ d = 7 \/ d = 8 \/
          d = 9 \/ d = 10 \/ d = 11 \/ d = 12 \/ d = 13 \/ d = 14 \/ d = 15) as Hd by lia.
  repeat destruct Hd as [-> | Hd]; try subst d; reflexivity.
Qed.

Lemma hexadecimal_value_digits (f : nat) (n : Z) :
  0 <= n -> n < 16 ^ Z.of_nat f -> hexadecimal_value (digits 16 hex_char f n) = n.
Proof.
  revert n. induction f as [| f IH]; intros n H0 Hlt.
  - change (16 ^ Z.of_nat 0) with 1 in Hlt. replace n with 0 by lia. reflexivity.
  - cbn [digits]. destruct (Z.leb_spec n 0); [replace n with 0 by lia; reflexivity |].
    unfold hexadecimal_value. rewrite numeral_acc_app. cbn [numeral_acc].
    rewrite hex_value_hex_char by (apply Z.mod_pos_bound; lia).
    fold (hexadecimal_value (digits 16 hex_char f (n / 16))).
    rewrite IH.
    + pose proof (Z.div_mod n 16). lia.
    + apply Z.div_pos; lia.
    + apply Z.div_lt_upper_bound; [lia |].
      rewrite Nat2Z.inj_succ, Z.pow_succ_r in Hlt by lia. exact Hlt.
Qed.

Lemma length_digits (b : Z) (chr : Z -> ascii) (f k : nat) (n : Z) :
  1 < b -> n < b ^ Z.of_nat k -> (String.length (digits b chr f n) <= k)%nat.
Proof.
  intros Hb. revert k n. induction f as [| f IH]; intros k n Hlt; [cbn; lia |].
  cbn [digits]. destruct (Z.leb_spec n 0); [cbn; lia |].
  rewrite length_append. cbn [String.length].
  destruct k as [| k]; [change (b ^ Z.of_nat 0) with 1 in Hlt; lia |].
  assert (String.length (digits b chr f (n / b)) <= k)%nat; [| lia].
  apply IH. apply Z.div_lt_upper_bound; [lia |].
  rewrite Nat2Z.inj_succ, Z.pow_succ_r in Hlt by lia. exact Hlt.
Qed.

Lemma hexadecimal_value_toString16 (n : Z) : 0 <= n -> hexadecimal_value (toString16 n) = n.
Proof.
  intros Hn. unfold toString16. destruct (Z.eqb_spec n 0) as [-> | Hne]; [reflexivity |].
  destruct (Z.ltb_spec n 0); [lia |].
  unfold digits_of. apply hexadecimal_value_digits; [lia |].
  pose proof (log2_fuel n) as H16.
  eapply Z.lt_le_trans; [exact H16 |].
  apply Z.pow_le_mono_l. lia.
Qed.

Lemma hexadecimal_value_zeros (k : nat) (s : string) :
  hexadecimal_value (zeros k ++ s) = hexadecimal_value s.
Proof. induction k as [| k IH]; [reflexivity | exact IH]. Qed.

(** A fee below [2^24] fills its six hex digits exactly and reads back. *)
Lemma fee_field (fee : Z) :
  0 <= fee < 2 ^ 24 ->
  String.length (padStart 6 (toString16 fee)) = 6%nat /\
  hexadecimal_value (padStart 6 (toString16 fee)) = fee.
Proof.
  intros [H0 H24]. unfold padStart. rewrite hexadecimal_value_zeros, length_append, length_zeros.
  split; [| now apply hexadecimal_value_toString16].
  assert (String.length (toString16 fee) <= 6)%nat; [| lia].
  unfold toString16. destruct (Z.eqb_spec fee 0) as [-> | Hne]; [cbn; lia |].
  destruct (Z.ltb_spec fee 0); [lia |].
  apply length_digits; [lia | exact H24].
Qed.

Lemma substring_skip (a b : string) (k n m : nat) :
  String.length a = k ->
  String.substring (k + n) m (a ++ b) = String.substring n m b.
Proof. intros <-. induction a as [| c a IH]; [reflexivity | exact IH]. Qed.

Lemma substring_whole (a b : string) (k : nat) :
  String.length a = k -> String.substring 0 k (a ++ b) = a.
Proof.
  intros <-. induction a as [| c a IH]; [now destruct b |].
  rewrite append_cons. cbn [String.length String.substring]. now rewrite IH.
Qed.

Lemma path_body_layout (fees : list Z) (tokenAddresses : list string) :
  List.length tokenAddresses = S (List.length fees) ->
  Forall (fun token => String.length token = 42%nat) tokenAddresses ->
  Forall (fun fee => 0 <= fee < 2 ^ 24) fees ->
  String.length (path_body tokenAddresses fees)
    = (40 * List.length tokenAddresses + 6 * List.length fees)%nat /\
  (forall i token, tokenAddresses !! i = Some token ->
     String.substring (46 * i) 40 (path_body tokenAddresses fees) = drop 2 token) /\
  (forall i fee, fees !! i = Some fee ->
     hexadecimal_value (String.substring (40 + 46 * i) 6 (path_body tokenAddresses fees)) = fee).
Proof.
  revert tokenAddresses.
  induction fees as [| fee fees IH]; intros [| token tokens] Hlen Htok Hfee;
    try discriminate Hlen.
  - destruct tokens; [| discriminate Hlen]. unfold path_body. cbn [encodeHops List.last].
    change ("" ++ ?s) with s.
    inversion Htok as [| ? ? H42 _]; subst.
    assert (String.length (drop 2 token) = 40%nat) as H40 by (rewrite length_drop; lia).
    split; [cbn [List.length]; lia |]. split.
    + intros [| i] t Hi; [| discriminate Hi]. injection Hi as <-.
      rewrite Nat.mul_0_r. rewrite <- (append_nil_r (drop 2 token)) at 1.
      now apply substring_whole.
    + intros i f Hi. destruct i; discriminate Hi.
  - inversion Htok as [| ? ? H42 Htok']; subst.
    inversion Hfee as [| ? ? Hf Hfee']; subst.
    cbn [List.length] in Hlen. injection Hlen as Hlen.
    destruct (IH tokens Hlen Htok' Hfee') as (Hl & Ht & Hv).
    destruct (fee_field fee Hf) as [Hf6 Hfv].
    assert (String.length (drop 2 token) = 40%nat) as H40 by (rewrite length_drop; lia).
    assert (path_body (token :: tokens) (fee :: fees)
            = drop 2 token ++ padStart 6 (toString16 fee) ++ path_body tokens fees) as ->.
    { unfold path_body. cbn [encodeHops]. rewrite !append_assoc.
      destruct tokens; [discriminate Hlen | reflexivity]. }
    split; [rewrite !length_append, Hl, H40, Hf6; cbn [List.length]; lia |]. split.
    + intros [| i] t Hi.
      * injection Hi as <-. rewrite Nat.mul_0_r. now apply substring_whole.
      * change ((token :: tokens) !! S i) with (tokens !! i) in Hi.
        replace (46 * S i)%nat with (40 + (6 + 46 * i))%nat by lia.
        rewrite (substring_skip _ _ 40) by exact H40.
        rewrite (substring_skip _ _ 6) by exact Hf6.
        now apply Ht.
    + intros [| i] f Hi.
      * injection Hi as <-. rewrite Nat.mul_0_r.
        rewrite (substring_skip _ _ 40) by exact H40.
        rewrite (substring_whole _ _ 6) by exact Hf6. exact Hfv.
      * change ((fee :: fees) !! S i) with (fees !! i) in Hi.
        replace (40 + 46 * S i)%nat with (40 + (6 + (40 + 46 * i)))%nat by lia.
        rewrite (substring_skip _ _ 40) by exact H40.
        rewrite (substring_skip _ _ 6) by exact Hf6.
        now apply Hv.
Qed.

End PathEncoding.

(** The path is laid out in fixed fields: after ["0x"], forty hex digits per
    token and six per fee, alternating.  For addresses of 42 characters and
    fees below [2^24] every token and every fee is read back at its offset. *)
Theorem encodePath_layout (tokenAddresses : list string) (fees : list Z) :
  List.length tokenAddresses = S (List.length fees) ->
  Forall (fun token => String.length token = 42%nat) tokenAddresses ->
  Forall (fun fee => 0 <= fee < 2 ^ 24) fees ->
  exists path,
    encodePath tokenAddresses fees = Ok path /\
    String.length path = (2 + 40 * List.length tokenAddresses + 6 * List.length fees)%nat /\
    (forall i token, tokenAddresses !! i = Some token ->
       String.substring (2 + 46 * i) 40 path = drop 2 token) /\
    (forall i fee, fees !! i = Some fee ->
       hexadecimal_value (String.substring (42 + 46 * i) 6 path) = fee).
Proof.
  intros Hlen Htok Hfee.
  destruct (path_body_layout fees tokenAddresses Hlen Htok Hfee) as (Hl & Ht & Hv).
  exists ("0x" ++ path_body tokenAddresses fees).
  split.
  - unfold encodePath. rewrite Hlen, Nat.add_1_r, Nat.eqb_refl. reflexivity.
  - split; [rewrite length_append, Hl; cbn [String.length]; lia |]. split.
    + intros i token Hi. rewrite <- (Ht i token Hi). reflexivity.
    + intros i fee Hi. rewrite <- (Hv i fee Hi). reflexivity.
Qed.

Lemma encodePath_layout_witness :
  exists path,
    encodePath [WBNB_ADDRESS; TOKEN] [FEE_TIERS_MEDIUM] = Ok path /\
    String.length path = (2 + 40 * 2 + 6 * 1)%nat /\
    (forall i token, [WBNB_ADDRESS; TOKEN] !! i = Some token ->
       String.substring (2 + 46 * i) 40 path = drop 2 token) /\
    (forall i fee, [FEE_TIERS_MEDIUM] !! i = Some fee ->
       hexadecimal_value (String.substring (42 + 46 * i) 6 path) = fee).
Proof.
  apply (encodePath_layout [WBNB_ADDRESS; TOKEN] [FEE_TIERS_MEDIUM]).
  - reflexivity.
  - repeat constructor.
  - repeat constructor; unfold FEE_TIERS_MEDIUM; lia.
Defined.
(** * Round trip from base units *)

Section BaseUnits.

Lemma all_zero_zeros (n : nat) : all_chars (Ascii.eqb "0") (zeros n) = true.
Proof. induction n; [reflexivity | assumption]. Qed.

Lemma strip_zeros_append (k : nat) (s : string) :
  strip_leading_zeros (zeros k ++ s) = strip_leading_zeros s.
Proof. induction k as [| k IH]; [reflexivity | exact IH]. Qed.

Lemma canonical_whole_digits (s : string) :
  canonical_whole s = true -> all_chars is_digit s = true.
Proof.
  unfold canonical_whole. intros H. apply orb_true_iff in H as [H | H].
  - apply String.eqb_eq in H as ->. reflexivity.
  - now apply andb_true_iff in H.
Qed.

Lemma canonical_whole_strip (s : string) :
  canonical_whole s = true -> or_default (strip_leading_zeros s) "0" = s.
Proof.
  unfold canonical_whole. intros H. apply orb_true_iff in H as [H | H].
  - apply String.eqb_eq in H as ->. reflexivity.
  - apply andb_true_iff in H as [_ H]. destruct s as [| c s]; [discriminate |].
    apply negb_true_iff in H. now rewrite strip_nonzero_head.
Qed.

Lemma canonical_fraction_digits (s : string) :
  canonical_fraction s = true -> all_chars is_digit s = true.
Proof.
  unfold canonical_fraction. intros H. apply orb_true_iff in H as [H | H].
  - apply String.eqb_eq in H as ->. reflexivity.
  - now apply andb_true_iff in H.
Qed.

(** Every digit string is a canonical fraction followed by zeros. *)
Lemma fraction_zeros (F : string) :
  all_chars is_digit F = true ->
  exists frac k, F = frac ++ zeros k /\ canonical_fraction frac = true.
Proof.
  induction F as [| c F IH]; intros H.
  - now exists EmptyString, 0%nat.
  - cbn [all_chars] in H. apply andb_true_iff in H as [Hc HF].
    destruct (IH HF) as (frac & k & -> & Hcan).
    destruct frac as [| d frac].
    + destruct (Ascii.eqb_spec c "0") as [-> | Hne].
      * now exists EmptyString, (S k).
      * exists (String c EmptyString), k. split; [reflexivity |].
        unfold canonical_fraction. cbn [String.eqb all_chars ends_nonzero orb].
        rewrite Hc. apply Ascii.eqb_neq in Hne. now rewrite Hne.
    + exists (String c (String d frac)), k. split; [reflexivity |].
      unfold canonical_fraction in *. cbn [String.eqb orb] in *.
      cbn [all_chars ends_nonzero] in *. rewrite Hc.
      apply andb_true_iff in Hcan as [-> ->]. reflexivity.
Qed.

(** What [toTokenUnits] makes of a canonically written amount. *)
Lemma toTokenUnits_manual_decimal_text (whole frac : string) (decimals : nat) :
  canonical_whole whole = true -> all_chars is_digit frac = true ->
  (String.length frac <= decimals)%nat ->
  toTokenUnits_manual (decimal_text whole frac) decimals
  = or_default (strip_leading_zeros (whole ++ pad_end frac decimals)) "0".
Proof.
  intros Hw Hfd Hlen. pose proof (canonical_whole_digits whole Hw) as Hwd.
  unfold decimal_text, toTokenUnits_manual.
  destruct (String.eqb_spec frac "") as [-> | Hne].
  - rewrite includes_dot_digits by exact Hwd.
    unfold pad_end. cbn [String.length]. now rewrite Nat.sub_0_r.
  - change ("." ++ frac) with (String "." frac).
    rewrite includes_dot_append, split_dot_append by assumption. cbn [part nth].
    destruct (Nat.ltb_spec decimals (String.length frac)); [lia |].
    now rewrite (canonical_whole_strip whole Hw).
Qed.

(** The digits of [fromTokenUnits] before trimming: a canonical whole part
    and exactly [decimals] fraction digits, which together are the padded
    amount. *)
Lemma padded_parts (units : string) (decimals : nat) :
  canonical_whole units = true -> units <> "0" ->
  let paddedAmount := pad_start_past units decimals in
  let decimalPos := (String.length paddedAmount - decimals)%nat in
  let W := String.substring 0 decimalPos paddedAmount in
  let F := drop decimalPos paddedAmount in
  canonical_whole W = true /\ all_chars is_digit F = true /\ String.length F = decimals /\
  or_default (strip_leading_zeros (W ++ F)) "0" = units.
Proof.
  intros Hcan Hne. cbn zeta.
  pose proof (canonical_whole_digits units Hcan) as Hdig.
  assert (exists c r, units = String c r /\ Ascii.eqb c "0" = false) as (c & r & -> & Hc).
  { unfold canonical_whole in Hcan. apply orb_true_iff in Hcan as [H | H].
    - apply String.eqb_eq in H. contradiction.
    - apply andb_true_iff in H as [_ H]. destruct units as [| c r]; [discriminate |].
      exists c, r. split; [reflexivity |]. now apply negb_true_iff. }
  set (u := String c r) in *.
  set (p := pad_start_past u decimals).
  assert (all_chars is_digit p = true) as Hp
    by (unfold p, pad_start_past; now rewrite all_chars_append, all_chars_zeros).
  assert (decimals < String.length p)%nat as Hlp.
  { unfold p, pad_start_past. rewrite length_append, length_zeros. lia. }
  repeat split.
  - (* the whole part *)
    unfold p, pad_start_past.
    destruct (Nat.le_gt_cases (String.length u) decimals) as [Hle | Hgt].
    + replace (S decimals - String.length u)%nat
        with (S (decimals - String.length u)) by lia.
      rewrite length_append, length_zeros.
      replace (S (decimals - String.length u) + String.length u - decimals)%nat
        with 1%nat by lia.
      cbn [zeros]. rewrite append_cons.
      pose proof (substring_append "0" (zeros (decimals - String.length u) ++ u)) as Hhead.
      cbn [String.length] in Hhead. change ("0" ++ ?t) with (String "0" t) in Hhead.
      now rewrite Hhead.
    + replace (S decimals - String.length u)%nat with 0%nat by lia.
      change (zeros 0 ++ u) with u.
      destruct (String.length u - decimals)%nat as [| n] eqn:Hn; [lia |].
      unfold u. cbn [String.substring]. unfold canonical_whole.
      cbn [all_chars] in Hdig. apply andb_true_iff in Hdig as [Hcd Hrd].
      cbn [all_chars]. rewrite Hcd, all_digit_substring, Hc by exact Hrd.
      apply orb_true_r.
  - now apply all_digit_drop.
  - rewrite length_drop. lia.
  - rewrite substring_drop. unfold p, pad_start_past. rewrite strip_zeros_append.
    unfold u. now rewrite strip_nonzero_head.
Qed.

End BaseUnits.

(** Outside the standard precisions, zero decimals included, an amount of
    base units written canonically comes back unchanged from its readable
    form. *)
Theorem toTokenUnits_fromTokenUnits_roundtrip
    (toWei fromWei : string -> string -> Outcome string) (units : string) (decimals : nat) :
  is_standard decimals = false -> canonical_whole units = true ->
  toTokenUnits toWei (fromTokenUnits fromWei units decimals) decimals = Ok units.
Proof.
  intros Hstd Hcan. unfold toTokenUnits, fromTokenUnits. rewrite Hstd. cbn [try_catch].
  f_equal. unfold fromTokenUnits_manual.
  destruct (String.eqb_spec units "0") as [-> | Hne].
  - unfold toTokenUnits_manual. cbn [includes String.prefix orb].
    change ("0" ++ zeros decimals) with (zeros (S decimals)).
    rewrite <- (append_nil_r (zeros (S decimals))), strip_zeros_append. reflexivity.
  - destruct (padded_parts units decimals Hcan Hne) as (HW & HF & HlenF & Hback).
    set (p := pad_start_past units decimals) in *.
    set (W := String.substring 0 (String.length p - decimals) p) in *.
    set (F := drop (String.length p - decimals) p) in *.
    pose proof (canonical_whole_digits W HW) as HWd.
    destruct decimals as [| n].
    + (* no decimals: the point stays *)
      destruct F; [| discriminate HlenF]. rewrite append_nil_r in Hback.
      change ("." ++ "") with (String "." "").
      rewrite (trim_point_tail "" (String "." "")) by (try exact HWd; try reflexivity; discriminate).
      unfold toTokenUnits_manual.
      rewrite includes_dot_append, split_dot_append by (try exact HWd; reflexivity).
      cbn [part nth String.length Nat.ltb Nat.leb pad_end Nat.sub zeros].
      rewrite (canonical_whole_strip W HW), append_nil_r, (canonical_whole_strip W HW).
      rewrite (canonical_whole_strip W HW) in Hback. exact Hback.
    + destruct (fraction_zeros F HF) as (frac & k & HFk & Hfrac).
      assert (String.length frac <= S n)%nat as Hlen
        by (rewrite <- HlenF, HFk, length_append; lia).
      assert (F = pad_end frac (S n)) as HFpad.
      { unfold pad_end. rewrite HFk. f_equal. f_equal.
        rewrite <- HlenF, HFk, length_append, length_zeros. lia. }
      rewrite HFpad, trim_padded by (try assumption; lia).
      rewrite toTokenUnits_manual_decimal_text
        by (try assumption; now apply canonical_fraction_digits).
      now rewrite <- HFpad.
Qed.

Lemma toTokenUnits_fromTokenUnits_roundtrip_witness :
  toTokenUnits ethjs_toWei (fromTokenUnits (fun _ _ => Throw (LibError "unused")) "12500" 4) 4
    = Ok "12500" /\
  toTokenUnits ethjs_toWei (fromTokenUnits (fun _ _ => Throw (LibError "unused")) "7" 0) 0
    = Ok "7".
Proof.
  split; apply toTokenUnits_fromTokenUnits_roundtrip; reflexivity.
Defined.

(** Outside the standard precisions and with at least one decimal, 1.25 at
    four decimals is 12500 base units and reads back as 1.25. *)
Lemma fromTokenUnits_toTokenUnits_roundtrip_witness :
  exists units,
    toTokenUnits ethjs_toWei (decimal_text "1" "25") 4 = Ok units /\
    fromTokenUnits (fun _ _ => Throw (LibError "unused")) units 4 = decimal_text "1" "25".
Proof.
  apply fromTokenUnits_toTokenUnits_roundtrip;
    [reflexivity | lia | reflexivity | reflexivity | cbn; lia].
Defined.
(** * [safeBN] beside [toBN] *)

Section SafeBN.

Lemma is_space_to_lower (c : ascii) : is_space (to_lower c) = is_space c.
Proof. destruct c as [[] [] [] [] [] [] [] []]; reflexivity. Qed.

Lemma to_lower_dot (c : ascii) : Ascii.eqb (to_lower c) "." = Ascii.eqb c ".".
Proof. destruct c as [[] [] [] [] [] [] [] []]; reflexivity. Qed.

Lemma includes_dot_cons (c : ascii) (s : string) :
  includes "." (String c s) = Ascii.eqb c "." || includes "." s.
Proof.
  cbn [includes]. f_equal. cbn [String.prefix].
  destruct (ascii_dec "." c) as [<- | Hne]; [now destruct s |].
  symmetry. apply Ascii.eqb_neq. congruence.
Qed.

Lemma includes_dot_to_lower (s : string) :
  includes "." (map_chars to_lower s) = includes "." s.
Proof.
  induction s as [| c s IH]; [reflexivity |].
  cbn [map_chars]. now rewrite !includes_dot_cons, IH, to_lower_dot.
Qed.

Lemma trim_start_to_lower (s : string) :
  trim_start (map_chars to_lower s) = map_chars to_lower (trim_start s).
Proof.
  induction s as [| c s IH]; [reflexivity |].
  cbn [map_chars trim_start]. rewrite is_space_to_lower.
  destruct (is_space c); [exact IH | reflexivity].
Qed.

Lemma trim_end_to_lower (s : string) :
  trim_end (map_chars to_lower s) = map_chars to_lower (trim_end s).
Proof.
  induction s as [| c s IH]; [reflexivity |].
  cbn [map_chars trim_end]. rewrite IH, is_space_to_lower.
  destruct (trim_end s); cbn [map_chars]; [destruct (is_space c) |]; reflexivity.
Qed.

Lemma trim_to_lower (s : string) : trim (map_chars to_lower s) = map_chars to_lower (trim s).
Proof. unfold trim. now rewrite trim_start_to_lower, trim_end_to_lower. Qed.

Lemma trim_end_nonspace (c : ascii) (s : string) :
  is_space c = false -> trim_end (String c s) = String c (trim_end s).
Proof. intros H. cbn [trim_end]. rewrite H. now destruct (trim_end s). Qed.

Lemma trim_end_idempotent (s : string) : trim_end (trim_end s) = trim_end s.
Proof.
  induction s as [| c s IH]; [reflexivity |]. cbn [trim_end].
  destruct (trim_end s) as [| d r] eqn:E.
  - destruct (is_space c) eqn:Hc; [reflexivity |]. cbn [trim_end]. now rewrite Hc.
  - cbn [trim_end] in *. now rewrite IH.
Qed.

Lemma starts_nonspace_trim_start (s : string) : starts_nonspace (trim_start s) = true.
Proof.
  induction s as [| c s IH]; [reflexivity |]. cbn [trim_start].
  destruct (is_space c) eqn:Hc; [exact IH |]. cbn [starts_nonspace]. now rewrite Hc.
Qed.

Lemma trim_start_nonspace (s : string) : starts_nonspace s = true -> trim_start s = s.
Proof.
  destruct s as [| c s]; [reflexivity |]. cbn [starts_nonspace trim_start].
  intros H. apply negb_true_iff in H. now rewrite H.
Qed.

Lemma starts_nonspace_trim_end (s : string) :
  starts_nonspace s = true -> starts_nonspace (trim_end s) = true.
Proof.
  destruct s as [| c s]; [reflexivity |]. cbn [starts_nonspace]. intros H.
  apply negb_true_iff in H. rewrite trim_end_nonspace by exact H.
  cbn [starts_nonspace]. now rewrite H.
Qed.

Lemma trim_idempotent (s : string) : trim (trim s) = trim s.
Proof.
  unfold trim.
  rewrite (trim_start_nonspace (trim_end (trim_start s)))
    by (apply starts_nonspace_trim_end, starts_nonspace_trim_start).
  apply trim_end_idempotent.
Qed.

(** [toBN] reads its argument trimmed. *)
Lemma numberToBN_trim (s : string) : numberToBN (trim s) = numberToBN s.
Proof. unfold numberToBN. now rewrite <- trim_to_lower, trim_idempotent. Qed.

Lemma all_chars_no_dot (p : ascii -> bool) (s : string) :
  p "."%char = false -> includes "." s = true -> all_chars p s = false.
Proof.
  intros Hp. induction s as [| c s IH]; [discriminate |].
  rewrite includes_dot_cons. cbn [all_chars]. intros H.
  apply orb_true_iff in H as [H | H].
  - apply Ascii.eqb_eq in H as ->. now rewrite Hp.
  - rewrite (IH H). apply andb_false_r.
Qed.

Lemma includes_dot_after_prefix (t s : string) :
  includes "." t = false -> String.prefix t s = true ->
  includes "." (drop (String.length t) s) = includes "." s.
Proof.
  revert s. induction t as [| a t IH]; intros s Ht Hp; [reflexivity |].
  rewrite includes_dot_cons in Ht. apply orb_false_iff in Ht as [Ha Ht].
  destruct s as [| b s]; [discriminate Hp |]. cbn [String.prefix] in Hp.
  destruct (ascii_dec a b) as [<- | Hne]; [| discriminate Hp].
  cbn [String.length drop]. rewrite includes_dot_cons, Ha. now apply IH.
Qed.

Lemma includes_dot_stripHexPrefix (s : string) :
  includes "." (stripHexPrefix s) = includes "." s.
Proof.
  unfold stripHexPrefix. destruct (String.prefix "0x" s) eqn:E; [| reflexivity].
  now apply (includes_dot_after_prefix "0x").
Qed.

(** A text with a point in it is no number to [toBN]. *)
Lemma numberToBN_no_point (s : string) (n : Z) :
  numberToBN s = Ok n -> includes "." (trim (map_chars to_lower s)) = false.
Proof.
  unfold numberToBN. set (f := trim (map_chars to_lower s)).
  destruct (includes "." f) eqn:Hdot; [| reflexivity]. intros H. exfalso.
  rewrite <- includes_dot_stripHexPrefix in Hdot.
  set (a := stripHexPrefix f) in *.
  assert (exists g m,
            (if String.prefix "-" a then (stripHexPrefix (drop 1 a), -1) else (a, 1)) = (g, m)
            /\ includes "." g = true) as (g & m & Hg & Hgdot).
  { destruct (String.prefix "-" a) eqn:Hm.
    - eexists _, _. split; [reflexivity |].
      rewrite includes_dot_stripHexPrefix.
      pose proof (includes_dot_after_prefix "-" a eq_refl Hm) as E.
      cbn [String.length] in E. now rewrite E.
    - now eexists _, _. }
  rewrite Hg in H.
  destruct (String.eqb_spec g "") as [-> | _]; [discriminate Hgdot |].
  assert (is_hex_literal g = false) as Hhex.
  { unfold is_hex_literal. rewrite (all_chars_no_dot is_hex g) by (try exact Hgdot; reflexivity).
    apply andb_false_r. }
  assert (is_hex_letters g = false) as Hlet.
  { unfold is_hex_letters. rewrite all_chars_no_dot by (try exact Hgdot; reflexivity).
    apply andb_false_r. }
  assert (is_integer_literal g = false) as Hint.
  { unfold is_integer_literal.
    assert (includes "." (if String.prefix "-" g then drop 1 g else g) = true) as Hbody.
    { destruct (String.prefix "-" g) eqn:Hm; [| exact Hgdot].
      pose proof (includes_dot_after_prefix "-" g eq_refl Hm) as E.
      cbn [String.length] in E. now rewrite E. }
    rewrite (all_chars_no_dot is_digit _) by (try exact Hbody; reflexivity).
    apply andb_false_r. }
  rewrite Hhex, Hlet, Hint in H. cbn in H. rewrite andb_false_r in H. discriminate H.
Qed.

(** Where [toBN] accepts a text, [safeBN] reads the same number. *)
Lemma safeBN_text_numberToBN (s : string) (n : Z) :
  numberToBN s = Ok n -> safeBN_text s = n.
Proof.
  intros H. unfold safeBN_text.
  pose proof (numberToBN_no_point s n H) as Hdot.
  rewrite trim_to_lower, includes_dot_to_lower in Hdot. rewrite Hdot.
  destruct (String.prefix "0x" (trim s)); now rewrite numberToBN_trim, H.
Qed.

Lemma trim_end_digits_point (whole rest : string) :
  all_chars is_digit whole = true ->
  trim_end (whole ++ String "." rest) = whole ++ String "." (trim_end rest).
Proof.
  induction whole as [| c whole IH]; intros H.
  - change ("" ++ ?t) with t. now apply trim_end_nonspace.
  - cbn [all_chars] in H. apply andb_true_iff in H as [Hc Hw].
    rewrite !append_cons, trim_end_nonspace, IH; [reflexivity | exact Hw |].
    now destruct (is_digit_cases c Hc) as (_ & _ & _ & _ & -> & _).
Qed.

Lemma split_dot_head (whole rest : string) :
  all_chars is_digit whole = true ->
  part 0 (split "." (whole ++ String "." rest)) = whole.
Proof.
  induction whole as [| c whole IH]; intros H; [reflexivity |].
  cbn [all_chars] in H. apply andb_true_iff in H as [Hc Hw].
  rewrite append_cons. cbn [split].
  destruct (is_digit_cases c Hc) as (_ & _ & _ & _ & _ & _ & -> & _).
  specialize (IH Hw). destruct (split "." (whole ++ String "." rest)) as [| h t].
  - cbn [part nth] in *. now subst whole.
  - cbn [part nth] in *. now subst h.
Qed.

(** A text matching [/^-?[0-9]+$/] is read as the decimal number it
    writes. *)
Lemma numberToBN_integer_literal (s : string) :
  is_integer_literal s = true -> numberToBN s = Ok (BN_of_decimal s).
Proof.
  unfold is_integer_literal, BN_of_decimal. intros H.
  apply andb_true_iff in H as [Hne Hd]. apply negb_true_iff in Hne.
  destruct (String.prefix "-" s) eqn:Hminus.
  - destruct s as [| c d]; [discriminate |]. cbn [String.prefix] in Hminus.
    destruct (ascii_dec "-" c) as [<- | ?]; [| discriminate].
    cbn [drop] in *. change (drop 0 d) with d in *.
    apply String.eqb_neq in Hne.
    destruct (digits_no_prefix d Hd) as (H0x & Hm0x & Hm).
    unfold numberToBN. cbn [map_chars]. change (to_lower "-") with "-"%char.
    rewrite (digits_to_lower d Hd). unfold trim.
    rewrite (trim_start_nonspace (String "-" d)) by reflexivity.
    rewrite trim_end_nonspace by reflexivity.
    assert (trim_end d = d) as ->.
    { pose proof (digits_trim d Hd) as Ht. unfold trim in Ht.
      rewrite trim_start_nonspace in Ht; [exact Ht |].
      destruct d as [| c d]; [reflexivity |]. cbn [all_chars] in Hd.
      apply andb_true_iff in Hd as [Hc _]. cbn [starts_nonspace].
      now destruct (is_digit_cases c Hc) as (_ & _ & _ & _ & -> & _). }
    assert (String.prefix "0x" (String "-" d) = false) as Hp by reflexivity.
    assert (String.prefix "-0x" (String "-" d) = false) as Hq.
    { cbn [String.prefix]. destruct (ascii_dec "-" "-"); [exact H0x | congruence]. }
    unfold stripHexPrefix. rewrite Hp, Hq. cbn [orb String.prefix].
    destruct (ascii_dec "-" "-") as [_ | ?]; [| congruence].
    rewrite Hminus. cbn [drop]. change (drop 0 d) with d. rewrite H0x.
    destruct (String.eqb_spec d "") as [| _]; [contradiction |].
    assert (is_integer_literal d = true) as ->.
    { unfold is_integer_literal. rewrite Hm, Hd.
      destruct (String.eqb_spec d ""); [contradiction | reflexivity]. }
    assert (is_hex_letters d = false) as ->.
    { unfold is_hex_letters. destruct d as [| c d]; [reflexivity |].
      cbn [all_chars] in *. apply andb_true_iff in Hd as [-> _].
      cbn [negb]. now rewrite andb_false_r. }
    cbn [negb andb orb]. unfold BN_of_decimal. rewrite Hm. f_equal. lia.
  - apply String.eqb_neq in Hne. rewrite numberToBN_digits by assumption. reflexivity.
Qed.

End SafeBN.

(** Whatever [web3.utils.toBN] accepts, [safeBN] reads as the same number,
    for a string, a number, a BN, and a BigNumber object whose [toString()]
    is its [toString(10)]: there the guard changes the answer only where
    [toBN] would raise. *)
Theorem safeBN_agrees_with_toBN (value : JsValue) (n : Z) :
  toBN value = Ok n ->
  (forall text text10, value = JsBigNumber text text10 -> text = text10) ->
  safeBN value = n.
Proof.
  destruct value as [| | x | s | m | text text10 | amountOut |]; cbn [toBN safeBN];
    try discriminate.
  - intros H _. now apply safeBN_text_numberToBN.
  - intros H _. now apply safeBN_text_numberToBN.
  - now intros [= ->].
  - intros H Hsame. rewrite (Hsame text text10 eq_refl).
    destruct (is_integer_literal text10) eqn:Hliteral; [| discriminate].
    rewrite (numberToBN_integer_literal text10 Hliteral). now injection H.
Qed.

Lemma safeBN_agrees_with_toBN_witness :
  safeBN (JsString " 0x1F ") = 31 /\ safeBN (JsNumber 9900) = 9900 /\
  safeBN (JsBigNumber "-42" "-42") = -42.
Proof.
  split; [| split]; apply safeBN_agrees_with_toBN;
    (reflexivity || (intros text text10 H; now inversion H)).
Defined.

(** A bignumber.js value of 1e21 prints itself in exponential notation:
    [toBN] reads its [toString(10)], [safeBN] its [toString()], where
    conversion fails and the default 0 is returned. *)
Lemma safeBN_exponential_BigNumber :
  toBN (JsBigNumber "1e+21" "1000000000000000000000") = Ok (10 ^ 21) /\
  safeBN (JsBigNumber "1e+21" "1000000000000000000000") = 0.
Proof. split; reflexivity. Qed.

(** A decimal text is cut at its first point and the digits before it are
    the number; what follows the point is not looked at.  Nothing is
    rounded. *)
Theorem safeBN_cuts_at_point (whole rest : string) :
  all_chars is_digit whole = true ->
  safeBN (JsString (whole ++ "." ++ rest)) = decimal_value whole.
Proof.
  intros Hw. cbn [safeBN]. unfold safeBN_text, trim.
  change ("." ++ rest) with (String "." rest).
  assert (trim_start (whole ++ String "." rest) = whole ++ String "." rest) as ->.
  { apply trim_start_nonspace. destruct whole as [| c whole]; [reflexivity |].
    cbn [all_chars] in Hw. apply andb_true_iff in Hw as [Hc _].
    rewrite append_cons. cbn [starts_nonspace].
    now destruct (is_digit_cases c Hc) as (_ & _ & _ & _ & -> & _). }
  rewrite trim_end_digits_point, includes_dot_append, split_dot_head by exact Hw.
  destruct (String.eqb_spec whole "") as [-> | Hne]; [reflexivity |].
  destruct (String.prefix "0x" whole); now rewrite numberToBN_digits.
Qed.

Lemma safeBN_cuts_at_point_witness :
  safeBN (JsString "3598.999999999999") = 3598 /\ safeBN (JsString "12.5e3 tokens") = 12.
Proof.
  split.
  - apply (safeBN_cuts_at_point "3598" "999999999999"). reflexivity.
  - apply (safeBN_cuts_at_point "12" "5e3 tokens"). reflexivity.
Defined.
(** * What the entry points hand to the node *)

Section Emits.

Lemma keeps_cache_ret {A} (a : A) : keeps_cache (mret a).
Proof. intros s. reflexivity. Qed.

Lemma keeps_cache_throw {A} (e : Error) : keeps_cache (@throw A e).
Proof. intros s. reflexivity. Qed.

Lemma keeps_cache_lift {A} (o : Outcome A) : keeps_cache (lift o).
Proof. intros s. reflexivity. Qed.

Lemma keeps_cache_await {A} (request : nat -> Outcome A) : keeps_cache (await request).
Proof. intros s. reflexivity. Qed.

Lemma keeps_cache_await_all3 {A B C} (a : nat -> Outcome A) (b : nat -> Outcome B)
    (c : nat -> Outcome C) : keeps_cache (await_all3 a b c).
Proof. intros s. reflexivity. Qed.

Lemma keeps_cache_submit {A} (what : Submission) (request : nat -> Outcome A) :
  keeps_cache (submit what request).
Proof. intros s. reflexivity. Qed.

Lemma keeps_cache_wallet_add (a : string) : keeps_cache (wallet_add a).
Proof. intros s. reflexivity. Qed.

Lemma keeps_cache_wallet_remove (a : string) : keeps_cache (wallet_remove a).
Proof. intros s. reflexivity. Qed.

Lemma keeps_cache_bind {A B} (m : M A) (k : A -> M B) :
  keeps_cache m -> (forall a, keeps_cache (k a)) -> keeps_cache (m ≫= k).
Proof.
  intros Hm Hk s. rewrite run_bind. specialize (Hm s).
  destruct (run m s) as [[a | e] s']; cbn [snd] in *.
  - now rewrite Hk.
  - exact Hm.
Qed.

Lemma keeps_cache_try_catchM {A} (body : M A) (handler : Error -> M A) :
  keeps_cache body -> (forall e, keeps_cache (handler e)) -> keeps_cache (try_catchM body handler).
Proof.
  intros Hm Hk s. rewrite run_try_catchM. specialize (Hm s).
  destruct (run body s) as [[a | e] s']; cbn [snd] in *.
  - exact Hm.
  - now rewrite Hk.
Qed.

End Emits.

Create HintDb cache.

#[local] Hint Resolve keeps_cache_ret keeps_cache_throw keeps_cache_lift keeps_cache_await
  keeps_cache_await_all3 keeps_cache_submit keeps_cache_wallet_add keeps_cache_wallet_remove
  : cache.

(** Splits a [keeps_cache] goal along the structure of the code. *)
Ltac cache_step :=
  match goal with
  | |- keeps_cache (_ ≫= _) => apply keeps_cache_bind; [| intros ?]
  | |- keeps_cache (try_catchM _ _) => apply keeps_cache_try_catchM; [| intros ?]
  | |- keeps_cache (if ?b then _ else _) => destruct b
  | |- keeps_cache (match ?x with _ => _ end) => destruct x
  | |- keeps_cache (let '(_, _) := ?p in _) => destruct p
  | |- keeps_cache _ => solve [auto with cache]
  end.

Ltac cache_auto := repeat cache_step.

Section Cache.

Variable w : World.

Lemma keeps_cache_getTokenInfo (a : string) : keeps_cache (getTokenInfo w a).
Proof. unfold getTokenInfo. cache_auto. Qed.

Lemma keeps_cache_checkFeeTier (a b : string) (st : TierSearch) (fee : Z) :
  keeps_cache (checkFeeTier w a b st fee).
Proof. unfold checkFeeTier. cache_auto. Qed.

Lemma keeps_cache_checkFeeTiers (a b : string) (fees : list Z) (st : TierSearch) :
  keeps_cache (checkFeeTiers w a b st fees).
Proof.
  revert st. induction fees as [| fee rest IH]; intros st; cbn [checkFeeTiers].
  - auto with cache.
  - apply keeps_cache_bind; [apply keeps_cache_checkFeeTier | intros ?; apply IH].
Qed.

Lemma keeps_cache_firstExistingPool (a b : string) (fees : list Z) :
  keeps_cache (firstExistingPool w a b fees).
Proof.
  induction fees as [| fee rest IH]; cbn [firstExistingPool]; [auto with cache |].
  apply keeps_cache_bind; [cache_auto | intros []; [auto with cache | exact IH]].
Qed.

Lemma keeps_cache_findBestFeeTier (a b : string) : keeps_cache (findBestFeeTier w a b).
Proof.
  unfold findBestFeeTier. apply keeps_cache_try_catchM; [| intros; auto with cache].
  apply keeps_cache_bind; [apply keeps_cache_checkFeeTiers |].
  intros st. destruct (maxLiquidity st =? 0);
    [apply keeps_cache_firstExistingPool | auto with cache].
Qed.

Lemma keeps_cache_newContract (a : string) : keeps_cache (newContract w a).
Proof. unfold newContract. cache_auto. Qed.

Lemma keeps_cache_checkForHoneypot (a : string) : keeps_cache (checkForHoneypot w a).
Proof.
  unfold checkForHoneypot. apply keeps_cache_try_catchM; [| intros; auto with cache].
  apply keeps_cache_bind; [apply keeps_cache_newContract | intros ?]. cache_auto.
Qed.

Lemma keeps_cache_validatePancakeV3Pool (a : string) (fee : Z) :
  keeps_cache (validatePancakeV3Pool w a fee).
Proof. unfold validatePancakeV3Pool. cache_auto. Qed.

Lemma keeps_cache_firstValidPool (a : string) (fees : list Z) :
  keeps_cache (firstValidPool w a fees).
Proof.
  induction fees as [| fee rest IH]; cbn [firstValidPool]; [auto with cache |].
  apply keeps_cache_bind; [apply keeps_cache_validatePancakeV3Pool |].
  intros []; [auto with cache | exact IH].
Qed.

Lemma keeps_cache_validOrAlternativeFeeTier (a : string) (fee : Z) :
  keeps_cache (validOrAlternativeFeeTier w a fee).
Proof.
  unfold validOrAlternativeFeeTier.
  apply keeps_cache_bind; [apply keeps_cache_validatePancakeV3Pool |].
  intros []; cbn [negb]; [auto with cache |].
  apply keeps_cache_bind; [apply keeps_cache_firstValidPool | intros []; auto with cache].
Qed.

Lemma keeps_cache_quoterAttempt (path amountIn : string) :
  keeps_cache (quoterAttempt w path amountIn).
Proof. unfold quoterAttempt. cache_auto. Qed.

Lemma keeps_cache_expectedOutput estimate (a : string) (fee : Z) (path amountIn : string) :
  keeps_cache (expectedOutput w estimate a fee path amountIn).
Proof.
  unfold expectedOutput.
  apply keeps_cache_try_catchM; [apply keeps_cache_quoterAttempt | intros ?]. cache_auto.
Qed.

Lemma keeps_cache_expectedOutput_pinned estimate (a : string) (fee : Z)
    (path amountIn : string) :
  keeps_cache (expectedOutput_pinned w estimate a fee path amountIn).
Proof.
  unfold expectedOutput_pinned.
  apply keeps_cache_try_catchM; [apply keeps_cache_quoterAttempt | intros ?]. cache_auto.
Qed.

Lemma keeps_cache_fromWei_in_log (text : string) : keeps_cache (fromWei_in_log text).
Proof. unfold fromWei_in_log. cache_auto. Qed.

Lemma keeps_cache_resolve (scope : list string) (ident : string) :
  keeps_cache (resolve scope ident).
Proof. unfold resolve. cache_auto. Qed.

Lemma keeps_cache_approveIfNeeded (tokenAddress walletAddress units : string) (nonce : Z) :
  keeps_cache (approveIfNeeded w tokenAddress walletAddress units nonce).
Proof. unfold approveIfNeeded. cache_auto. Qed.

Lemma keeps_cache_executeSwap (walletAddress path amountIn amountOutMin : string)
    (value : option string) (nonce : Z) :
  keeps_cache (executeSwap w walletAddress path amountIn amountOutMin value nonce).
Proof.
  unfold executeSwap. cbn zeta.
  apply keeps_cache_bind; [auto with cache | intros ?].
  apply keeps_cache_bind; [auto with cache | intros ?].
  apply keeps_cache_bind; [cache_auto | intros ?].
  apply keeps_cache_bind; [apply keeps_cache_fromWei_in_log | intros ?]. cache_auto.
Qed.

Lemma keeps_cache_cleanup_and_rethrow {A} (privateKey : string) (e : Error) :
  keeps_cache (@cleanup_and_rethrow w A privateKey e).
Proof. unfold cleanup_and_rethrow. cache_auto. Qed.


End Cache.

(** * Fee-tier discovery on any node *)

Section AnyNode.

Variable w : World.

Lemma checkFeeTier_returns (tokenA tokenB : string) (st : TierSearch) (fee : Z) (s : State) :
  exists st',
    fst (run (checkFeeTier w tokenA tokenB st fee) s) = Ok st' /\
    (bestFeeTier st' = fee \/ bestFeeTier st' = bestFeeTier st).
Proof.
  unfold checkFeeTier. rewrite run_try_catchM, run_bind. unfold await at 1. cbn [run].
  destruct (factory_getPool w (clock s) tokenA tokenB fee) as [pool | e];
    [| exists st; now split; [| right]].
  destruct (String.eqb pool ZERO_ADDRESS); cbn [negb]; [exists st; now split; [| right] |].
  rewrite run_try_catchM, run_bind. unfold await at 1. cbn [run].
  destruct (pool_liquidity w _ pool) as [text | e]; cbn [maxLiquidity].
  - destruct (_ <? _); eexists; (split; [reflexivity |]); cbn [bestFeeTier]; auto.
  - eexists; (split; [reflexivity |]); cbn [bestFeeTier]; auto.
Qed.

Lemma checkFeeTiers_returns (tokenA tokenB : string) (fees : list Z) (st : TierSearch)
    (s : State) :
  exists st',
    fst (run (checkFeeTiers w tokenA tokenB st fees) s) = Ok st' /\
    (In (bestFeeTier st') fees \/ bestFeeTier st' = bestFeeTier st).
Proof.
  revert st s. induction fees as [| fee rest IH]; intros st s; cbn [checkFeeTiers].
  - exists st. now split; [| right].
  - rewrite run_bind.
    destruct (checkFeeTier_returns tokenA tokenB st fee s) as (st1 & H1 & Hb1).
    destruct (run (checkFeeTier w tokenA tokenB st fee) s) as [[st1' | e] s1];
      cbn [fst] in H1; [| discriminate H1]. injection H1 as ->.
    destruct (IH st1 s1) as (st' & H' & Hb'). exists st'. split; [exact H' |].
    cbn [In]. destruct Hb' as [Hin | Heq]; [auto |]. rewrite Heq.
    destruct Hb1 as [-> | ->]; auto.
Qed.

Lemma firstExistingPool_returns (tokenA tokenB : string) (fees : list Z) (s : State) :
  exists fee,
    fst (run (firstExistingPool w tokenA tokenB fees) s) = Ok fee /\
    (In fee fees \/ fee = FEE_TIERS_MEDIUM).
Proof.
  revert s. induction fees as [| fee rest IH]; intros s; cbn [firstExistingPool].
  - exists FEE_TIERS_MEDIUM. now split; [| right].
  - rewrite run_bind, run_try_catchM, run_bind. unfold await at 1. cbn [run].
    destruct (factory_getPool w (clock s) tokenA tokenB fee) as [pool | e]; cbn [run mret M_ret].
    + destruct (negb (String.eqb pool ZERO_ADDRESS)).
      * exists fee. cbn. auto.
      * destruct (IH (tick s)) as (f & Hf & Hin). exists f. split; [exact Hf |].
        cbn [In]. tauto.
    + destruct (IH (tick s)) as (f & Hf & Hin). exists f. split; [exact Hf |].
      cbn [In]. tauto.
Qed.

Lemma findBestFeeTier_returns (tokenA tokenB : string) (s : State) :
  exists fee, fst (run (findBestFeeTier w tokenA tokenB) s) = Ok fee /\ In fee feeTiers.
Proof.
  unfold findBestFeeTier. rewrite run_try_catchM, run_bind.
  set (st0 := {| bestFeeTier := FEE_TIERS_MEDIUM; maxLiquidity := _; poolsFound := false |}).
  destruct (checkFeeTiers_returns tokenA tokenB feeTiers st0 s) as (st & Hst & Hb).
  destruct (run (checkFeeTiers w tokenA tokenB st0 feeTiers) s) as [[st' | e] s1];
    cbn [fst] in Hst; [| discriminate Hst]. injection Hst as ->.
  assert (In FEE_TIERS_MEDIUM feeTiers) as Hmedium by (cbn; auto).
  destruct (maxLiquidity st =? 0).
  - destruct (firstExistingPool_returns tokenA tokenB feeTiers s1) as (fee & Hfee & Hin).
    destruct (run (firstExistingPool w tokenA tokenB feeTiers) s1) as [[fee' | e] s2];
      cbn [fst] in Hfee; [| discriminate Hfee]. injection Hfee as ->.
    exists fee. split; [reflexivity |]. destruct Hin as [Hin | ->]; assumption.
  - exists (bestFeeTier st). split; [reflexivity |].
    destruct Hb as [Hin | ->]; assumption.
Qed.

Lemma firstValidPool_returns (tokenAddress : string) (fees : list Z) (s : State) (found : option Z) :
  fst (run (firstValidPool w tokenAddress fees) s) = Ok found ->
  match found with Some fee => In fee fees | None => True end.
Proof.
  revert s. induction fees as [| fee rest IH]; intros s; cbn [firstValidPool].
  - cbn. now intros [= <-].
  - rewrite run_bind.
    destruct (run (validatePancakeV3Pool w tokenAddress fee) s) as [[[] | e] s1];
      [| | discriminate].
    + cbn. intros [= <-]. now left.
    + intros H. specialize (IH s1 H). destruct found; [now right | exact I].
Qed.

Lemma validOrAlternativeFeeTier_returns (tokenAddress : string) (feeTier : Z) (s : State)
    (fee : Z) :
  fst (run (validOrAlternativeFeeTier w tokenAddress feeTier) s) = Ok fee ->
  fee = feeTier \/ In fee feeTiers.
Proof.
  unfold validOrAlternativeFeeTier. rewrite run_bind.
  destruct (run (validatePancakeV3Pool w tokenAddress feeTier) s) as [[[] | e] s1];
    cbn [negb]; [| | discriminate].
  - cbn. intros [= <-]. now left.
  - rewrite run_bind.
    pose proof (firstValidPool_returns tokenAddress
                  (List.filter (fun fee => negb (fee =? feeTier)) feeTiers) s1) as Hfirst.
    destruct (run (firstValidPool w tokenAddress _) s1) as [[[alt |] | e] s2];
      [| discriminate | discriminate].
    cbn. intros [= <-]. right. specialize (Hfirst (Some alt) eq_refl).
    now apply filter_In in Hfirst.
Qed.

Lemma firstValidPool_validated (tokenAddress : string) (fees : list Z) (s : State) (fee : Z) :
  fst (run (firstValidPool w tokenAddress fees) s) = Ok (Some fee) ->
  validated w tokenAddress fee.
Proof.
  revert s. induction fees as [| fee' rest IH]; intros s; cbn [firstValidPool].
  - cbn. discriminate.
  - rewrite run_bind.
    destruct (run (validatePancakeV3Pool w tokenAddress fee') s) as [[[] | e] s1] eqn:E;
      [| | discriminate].
    + cbn. intros [= <-]. exists s. now rewrite E.
    + apply IH.
Qed.

Lemma validOrAlternativeFeeTier_validated (tokenAddress : string) (feeTier : Z) (s : State)
    (fee : Z) :
  fst (run (validOrAlternativeFeeTier w tokenAddress feeTier) s) = Ok fee ->
  validated w tokenAddress fee.
Proof.
  unfold validOrAlternativeFeeTier. rewrite run_bind.
  destruct (run (validatePancakeV3Pool w tokenAddress feeTier) s) as [[[] | e] s1] eqn:E;
    cbn [negb]; [| | discriminate].
  - cbn. intros [= <-]. exists s. now rewrite E.
  - rewrite run_bind.
    pose proof (firstValidPool_validated tokenAddress
                  (List.filter (fun fee => negb (fee =? feeTier)) feeTiers) s1) as Hfirst.
    destruct (run (firstValidPool w tokenAddress _) s1) as [[[alt |] | e'] s2];
      [| discriminate | discriminate].
    cbn. intros [= <-]. now apply Hfirst.
Qed.

End AnyNode.

(** Whatever the node answers, fee-tier discovery returns one of the four
    fee tiers: it never raises, it leaves the nonce cache alone and it hands
    nothing to the node. *)
Theorem findBestFeeTier_returns_a_tier (w : World) (tokenA tokenB : string) (s : State) :
  let result := run (findBestFeeTier w tokenA tokenB) s in
  (exists fee, fst result = Ok fee /\ In fee feeTiers) /\
  nonceCache (snd result) = nonceCache s /\
  submitted (snd result) = submitted s.
Proof.
  cbn zeta. split; [apply findBestFeeTier_returns |].
  split; [apply keeps_cache_findBestFeeTier | apply quiet_findBestFeeTier].
Qed.

(** * Orders *)

Section EmitsLemmas.

Lemma emits_throw {A} (Q : Outcome A -> list Submission -> Prop) (e : Error) :
  Q (Throw e) [] -> emits Q (throw e).
Proof. intros H s. exists []. cbn. now rewrite app_nil_r. Qed.

Lemma emits_weaken {A} (Q Q' : Outcome A -> list Submission -> Prop) (m : M A) :
  (forall o l, Q o l -> Q' o l) -> emits Q m -> emits Q' m.
Proof. intros HQ Hm s. destruct (Hm s) as (l & Hl & Hq). exists l. auto. Qed.

Lemma emits_quiet_bind {A B} (Q : Outcome B -> list Submission -> Prop) (m : M A)
    (k : A -> M B) (R : A -> Prop) :
  quiet m -> (forall e, Q (Throw e) []) ->
  (forall s a, fst (run m s) = Ok a -> R a) ->
  (forall a, R a -> emits Q (k a)) ->
  emits Q (m ≫= k).
Proof.
  intros Hm Hq HR Hk s. rewrite run_bind. specialize (Hm s). specialize (HR s).
  destruct (run m s) as [[a | e] s1]; cbn [fst snd] in *.
  - destruct (Hk a (HR a eq_refl) s1) as (l & Hl & HQ). exists l. now rewrite Hl, Hm.
  - exists []. now rewrite app_nil_r.
Qed.

Lemma emits_bind {A B} (Q : Outcome B -> list Submission -> Prop) (m : M A) (k : A -> M B) :
  quiet m -> (forall e, Q (Throw e) []) -> (forall a, emits Q (k a)) -> emits Q (m ≫= k).
Proof.
  intros Hm Hq Hk. apply emits_quiet_bind with (R := fun _ => True); auto.
Qed.

Lemma emits_lift_bind {A B} (Q : Outcome B -> list Submission -> Prop) (o : Outcome A)
    (k : A -> M B) :
  (forall e, Q (Throw e) []) -> (forall a, o = Ok a -> emits Q (k a)) ->
  emits Q (lift o ≫= k).
Proof.
  intros Hq Hk. apply emits_quiet_bind with (R := fun a => o = Ok a);
    [apply quiet_lift | exact Hq | | exact Hk].
  intros s a H. exact H.
Qed.

End EmitsLemmas.

Section Orders.

Variable w : World.

Lemma emits_cleanup {A} (Q : Outcome A -> list Submission -> Prop) (privateKey : string)
    (body : M A) :
  emits Q body -> emits Q (try_catchM body (cleanup_and_rethrow w privateKey)).
Proof.
  intros Hb s. rewrite run_try_catchM. destruct (Hb s) as (l & Hl & HQ).
  destruct (run body s) as [[a | e] s1]; cbn [fst snd] in *; [now exists l |].
  destruct (cleanup_and_rethrow_run w (A := A) privateKey e s1) as (Hr & Hs & _).
  exists l. now rewrite Hr, Hs.
Qed.

(** [executeSwap], request by request. *)
Lemma executeSwap_run (walletAddress route amount amountOutMin : string)
    (value : option string) (nonce : Z) (s : State) :
  run (executeSwap w walletAddress route amount amountOutMin value nonce) s =
  match getGasPrice w (clock s) with
  | Throw e => (Throw e, tick s)
  | Ok gasPrice =>
      let params := {| path := route; recipient := walletAddress;
                       deadline := Date_now w / 1000 + 60 * 20;
                       amountIn := amount; amountOutMinimum := amountOutMin |} in
      match exactInput_encodeABI w params with
      | Throw e => (Throw e, tick s)
      | Ok _ =>
          let estimatedGas :=
            match router_estimateGas w (S (clock s)) params walletAddress value with
            | Ok estimate => estimate
            | Throw _ => 500000%float
            end in
          match numberToBN gasPrice with
          | Throw e => (Throw e, tick (tick s))
          | Ok _ =>
              let tx := swap_transaction w walletAddress route amount amountOutMin value
                          nonce gasPrice estimatedGas in
              match sendTransaction w (S (S (clock s))) tx with
              | Ok hash =>
                  (Ok hash,
                   {| clock := S (S (S (clock s))); nonceCache := nonceCache s;
                      wallet := filter (fun a => a ≠ walletAddress) (wallet s);
                      submitted := (submitted s ++ [SubmitSwap tx])%list |})
              | Throw e =>
                  (Throw e,
                   {| clock := S (S (S (clock s))); nonceCache := nonceCache s;
                      wallet := wallet s;
                      submitted := (submitted s ++ [SubmitSwap tx])%list |})
              end
          end
      end
  end.
Proof.
  unfold executeSwap, fromWei_in_log, swap_transaction. cbn zeta.
  rewrite run_bind. unfold await at 1. cbn [run].
  destruct (getGasPrice w (clock s)) as [gasPrice | e]; [| reflexivity].
  rewrite run_bind. unfold lift at 1. cbn [run].
  destruct (exactInput_encodeABI w _) as [swapData | e]; [| reflexivity].
  rewrite run_bind, run_try_catchM. unfold await at 1. cbn [run clock tick].
  destruct (router_estimateGas w (S (clock s)) _ walletAddress value) as [estimate | e];
    cbn [run mret M_ret];
    (rewrite run_bind, run_bind; unfold lift at 1; cbn [run];
     destruct (numberToBN gasPrice) as [g | e']; [| reflexivity];
     cbn [run mret M_ret]; rewrite run_bind; unfold submit at 1; cbn [run clock];
     destruct (sendTransaction w _ _); reflexivity).
Qed.

(** [executeSwap] hands one swap to the node and returns the node's answer
    to it, or hands over none when it raises before sending. *)
Lemma executeSwap_emits (walletAddress route amount amountOutMin : string)
    (value : option string) (nonce : Z) :
  emits (fun outcome l =>
           (l = [] /\ is_ok outcome = false) \/
           exists gasPrice estimatedGas t,
             let tx := swap_transaction w walletAddress route amount amountOutMin value nonce
                         gasPrice estimatedGas in
             l = [SubmitSwap tx] /\ outcome = sendTransaction w t tx)
        (executeSwap w walletAddress route amount amountOutMin value nonce).
Proof.
  intros s. rewrite executeSwap_run.
  destruct (getGasPrice w (clock s)) as [gasPrice | e];
    [| exists []; cbn; rewrite app_nil_r; auto].
  cbn zeta. destruct (exactInput_encodeABI w _) as [swapData | e];
    [| exists []; cbn; rewrite app_nil_r; auto].
  destruct (numberToBN gasPrice) as [g | e];
    [| exists []; cbn; rewrite app_nil_r; auto].
  eexists. destruct (sendTransaction w _ _) eqn:E; cbn [fst snd submitted];
    (split; [reflexivity | right; eexists _, _, _; split; [reflexivity | now rewrite E]]).
Qed.

(** What an [emits] goal needs of the steps before the first transaction. *)
Lemma emits_bind_run {A B} (Q : Outcome B -> list Submission -> Prop) (m : M A)
    (k : A -> M B) :
  quiet m -> (forall e, Q (Throw e) []) ->
  (forall a, (exists s, fst (run m s) = Ok a) -> emits Q (k a)) ->
  emits Q (m ≫= k).
Proof.
  intros Hm Hq Hk. apply emits_quiet_bind with (R := fun a => exists s, fst (run m s) = Ok a);
    [exact Hm | exact Hq | | exact Hk].
  intros s a H. now exists s.
Qed.

Lemma compare_outcome (x y : string) (r : bool) :
  (a ← toBN (JsString x); b ← toBN (JsString y); Ok (a <? b)) = Ok r ->
  exists a b, toBN (JsString x) = Ok a /\ toBN (JsString y) = Ok b /\ r = (a <? b).
Proof.
  destruct (toBN (JsString x)) as [a |]; [| discriminate].
  destruct (toBN (JsString y)) as [b |]; [| discriminate].
  cbn. intros [= <-]. now exists a, b.
Qed.

Lemma covered_by (read : nat -> Outcome string) (balance amount : string) (s : State) :
  fst (run (await read) s) = Ok balance ->
  (a ← toBN (JsString balance); b ← toBN (JsString amount); Ok (a <? b)) = Ok false ->
  covered read amount.
Proof.
  cbn. intros Hread Hcmp. apply compare_outcome in Hcmp as (a & b & Ha & Hb & Hlt).
  exists (clock s), balance, a, b. repeat split; try assumption.
  symmetry in Hlt. now apply Z.ltb_ge in Hlt.
Qed.

End Orders.

Section BuyOrders.

Variable w : World.

Lemma swap_transaction_swap_by (account route amount amountOutMin : string)
    (value : option string) (nonce : Z) (gasPrice : string) (estimatedGas : float) :
  swap_by w account route amount value
    (swap_transaction w account route amount amountOutMin value nonce gasPrice estimatedGas).
Proof. repeat split. Qed.

Lemma try_catch_ok {A} (body : Outcome A) (handler : Error -> Outcome A) (a : A) :
  (forall e, handler e <> Ok a) -> try_catch body handler = Ok a -> body = Ok a.
Proof. destruct body as [b | e]; cbn; [trivial | intros H E; now apply H in E]. Qed.

Lemma swaps_ask_nil (minimum : string -> Prop) : swaps_ask minimum [].
Proof. intros tx []. Qed.

Lemma swaps_ask_swap (minimum : string -> Prop) (tx : Transaction) :
  minimum (amountOutMinimum (tx_data tx)) -> swaps_ask minimum [SubmitSwap tx].
Proof. intros H tx' [[= <-] | []]. exact H. Qed.

Lemma buyToken_emits (privateKey tokenAddress bnbAmount : string) (slippagePercent : float) :
  emits (fun outcome l =>
           buy_emission w privateKey tokenAddress bnbAmount (fun fee => In fee feeTiers)
             outcome l /\
           swaps_ask (fun minimum => exists expected,
                          quoted w tokenAddress expected /\
                          minimum = amountOutMin_guarded expected slippagePercent) l)
        (buyToken w privateKey tokenAddress bnbAmount slippagePercent).
Proof.
  unfold buyToken. apply emits_cleanup. cbn zeta.
  match goal with
  | |- emits ?Q _ => assert (forall e, Q (Throw e) []) as Hthrow
                       by (intros e; split; [now left | apply swaps_ask_nil])
  end.
  apply emits_lift_bind; [exact Hthrow | intros account Haccount].
  apply emits_bind; [auto with quiet | exact Hthrow | intros _].
  apply emits_bind_run; [auto with quiet | exact Hthrow | intros bnbBalance [s0 Hbalance]].
  apply emits_lift_bind; [exact Hthrow | intros wei Hwei].
  apply try_catch_ok in Hwei; [| discriminate].
  apply emits_bind; [auto with quiet | exact Hthrow | intros _].
  apply emits_lift_bind; [exact Hthrow | intros short Hshort].
  destruct short; [apply emits_throw, Hthrow |].
  pose proof (covered_by _ _ _ _ Hbalance Hshort) as Hcovered.
  apply emits_bind; [auto with quiet | exact Hthrow | intros tokenInfo].
  apply emits_quiet_bind with (R := fun fee => In fee feeTiers);
    [auto with quiet | exact Hthrow | | intros best Hbest].
  { intros s fee H. destruct (findBestFeeTier_returns w WBNB_ADDRESS tokenAddress s)
      as (fee' & H' & Hin). congruence. }
  apply emits_quiet_bind
    with (R := fun fee => In fee feeTiers /\ validated w tokenAddress fee);
    [auto with quiet | exact Hthrow | | intros fee [Hfee Hvalid]].
  { intros s fee H. split; [| now apply validOrAlternativeFeeTier_validated in H].
    apply validOrAlternativeFeeTier_returns in H as [-> | H]; assumption. }
  apply emits_bind_run; [auto with quiet | exact Hthrow | intros isHoneypot Hcleared].
  destruct isHoneypot; [apply emits_throw, Hthrow |].
  apply emits_lift_bind; [exact Hthrow | intros route Hroute].
  apply emits_bind_run;
    [auto with quiet | exact Hthrow | intros expectedOutputAmount [s1 Hexpected]].
  apply emits_bind; [auto with quiet | exact Hthrow | intros nonce].
  eapply emits_weaken; [| apply executeSwap_emits].
  intros outcome l [[-> Hnone] | (gasPrice & estimatedGas & t & -> & ->)].
  - split; [now left | apply swaps_ask_nil].
  - split.
    + right. eexists _, account, wei, fee, route.
      repeat split; try eassumption; try reflexivity; eauto.
    + apply swaps_ask_swap. exists expectedOutputAmount. split; [| reflexivity].
      eexists _, _, _, _, s1. exact Hexpected.
Qed.

Lemma buyTokenWithFeeTier_emits (privateKey tokenAddress bnbAmount : string)
    (slippagePercent : float) (specificFeeTier : Z) :
  emits (fun outcome l =>
           buy_emission w privateKey tokenAddress bnbAmount
             (fun fee => fee = specificFeeTier) outcome l /\
           swaps_ask (fun minimum => exists expected,
                          quoted_pinned w tokenAddress expected /\
                          amountOutMin_pinned expected slippagePercent = Ok minimum) l)
        (buyTokenWithFeeTier w privateKey tokenAddress bnbAmount slippagePercent
           specificFeeTier).
Proof.
  unfold buyTokenWithFeeTier. apply emits_cleanup. cbn zeta.
  match goal with
  | |- emits ?Q _ => assert (forall e, Q (Throw e) []) as Hthrow
                       by (intros e; split; [now left | apply swaps_ask_nil])
  end.
  apply emits_lift_bind; [exact Hthrow | intros account Haccount].
  apply emits_bind; [auto with quiet | exact Hthrow | intros _].
  apply emits_bind_run; [auto with quiet | exact Hthrow | intros bnbBalance [s0 Hbalance]].
  apply emits_lift_bind; [exact Hthrow | intros wei Hwei].
  apply emits_bind; [auto with quiet | exact Hthrow | intros _].
  apply emits_lift_bind; [exact Hthrow | intros short Hshort].
  destruct short; [apply emits_throw, Hthrow |].
  pose proof (covered_by _ _ _ _ Hbalance Hshort) as Hcovered.
  apply emits_bind; [auto with quiet | exact Hthrow | intros tokenInfo].
  apply emits_bind_run; [auto with quiet | exact Hthrow | intros isPoolValid Hvalid].
  destruct isPoolValid; cbn [negb]; [| apply emits_throw, Hthrow].
  apply emits_bind_run; [auto with quiet | exact Hthrow | intros isHoneypot Hcleared].
  destruct isHoneypot; [apply emits_throw, Hthrow |].
  apply emits_lift_bind; [exact Hthrow | intros route Hroute].
  apply emits_bind_run;
    [auto with quiet | exact Hthrow | intros expectedOutputAmount [s1 Hexpected]].
  apply emits_lift_bind; [exact Hthrow | intros amountOutMin HamountOutMin].
  apply emits_bind; [auto with quiet | exact Hthrow | intros nonce].
  eapply emits_weaken; [| apply executeSwap_emits].
  intros outcome l [[-> Hnone] | (gasPrice & estimatedGas & t & -> & ->)].
  - split; [now left | apply swaps_ask_nil].
  - split.
    + right. eexists _, account, wei, specificFeeTier, route.
      repeat split; try eassumption; try reflexivity; eauto.
    + apply swaps_ask_swap. exists expectedOutputAmount. split; [| exact HamountOutMin].
      eexists _, _, _, _, s1. exact Hexpected.
Qed.

(** When the quoter answers, its answer is the expected output. *)
Lemma quoterAttempt_quotes (amountOut route amount : string) (s : State) :
  quotes w amountOut -> String.eqb amountOut EmptyString = false ->
  run (quoterAttempt w route amount) s = (Ok amountOut, tick s).
Proof.
  intros Hq Hne. unfold quoterAttempt. rewrite run_bind. unfold await at 1. cbn [run].
  rewrite Hq, Hne. reflexivity.
Qed.

Lemma quoted_quotes (amountOut tokenAddress expected : string) :
  quotes w amountOut -> String.eqb amountOut EmptyString = false ->
  quoted w tokenAddress expected -> expected = amountOut.
Proof.
  intros Hq Hne (estimate & fee & route & amount & s & H).
  unfold expectedOutput in H.
  rewrite run_try_catchM, (quoterAttempt_quotes amountOut) in H by assumption.
  cbn in H. congruence.
Qed.

Lemma quoted_pinned_quotes (amountOut tokenAddress expected : string) :
  quotes w amountOut -> String.eqb amountOut EmptyString = false ->
  quoted_pinned w tokenAddress expected -> expected = amountOut.
Proof.
  intros Hq Hne (estimate & fee & route & amount & s & H).
  unfold expectedOutput_pinned in H.
  rewrite run_try_catchM, (quoterAttempt_quotes amountOut) in H by assumption.
  cbn in H. congruence.
Qed.

End BuyOrders.



(** A buy order hands a swap to the node only after the account's balance
    covered the amount, validation accepted the pool at the fee tier of the
    swap's path, and the honeypot heuristic answered [false] for the
    token. *)
Theorem buy_swaps_only_after_checks (w : World) (privateKey tokenAddress bnbAmount : string)
    (slippagePercent : float) (specificFeeTier : Z) (s : State) :
  let checked (result : Outcome string * State) (allowed : Z -> Prop) :=
    submitted (snd result) = submitted s \/
    exists tx account wei fee,
      submitted (snd result) = (submitted s ++ [SubmitSwap tx])%list /\
      privateKeyToAccount w privateKey = Ok account /\
      toWei w bnbAmount "ether" = Ok wei /\
      allowed fee /\
      encodePath [WBNB_ADDRESS; tokenAddress] [fee] = Ok (path (tx_data tx)) /\
      covered (fun t => getBalance w t account) wei /\
      validated w tokenAddress fee /\
      cleared w tokenAddress in
  checked (run (buyToken w privateKey tokenAddress bnbAmount slippagePercent) s)
          (fun fee => In fee feeTiers) /\
  checked (run (buyTokenWithFeeTier w privateKey tokenAddress bnbAmount slippagePercent
                  specificFeeTier) s)
          (fun fee => fee = specificFeeTier).
Proof.
  cbn zeta. split.
  - destruct (buyToken_emits w privateKey tokenAddress bnbAmount slippagePercent s)
      as (l & Hl & [[-> Hnone] | (tx & account & wei & fee & route & -> & H)] & _).
    + left. now rewrite app_nil_r in Hl.
    + right. exists tx, account, wei, fee.
      destruct H as (? & ? & ? & Hroute & Hswap & ? & ? & ? & ?).
      destruct Hswap as (_ & _ & _ & <- & _) in Hroute. tauto.
  - destruct (buyTokenWithFeeTier_emits w privateKey tokenAddress bnbAmount slippagePercent
                specificFeeTier s)
      as (l & Hl & [[-> Hnone] | (tx & account & wei & fee & route & -> & H)] & _).
    + left. now rewrite app_nil_r in Hl.
    + right. exists tx, account, wei, fee.
      destruct H as (? & ? & ? & Hroute & Hswap & ? & ? & ? & ?).
      destruct Hswap as (_ & _ & _ & <- & _) in Hroute. tauto.
Qed.


Section SellOrders.

Variable w : World.

Lemma emits_then {A B} (Q1 : Outcome A -> list Submission -> Prop)
    (Q2 : A -> Outcome B -> list Submission -> Prop)
    (Q : Outcome B -> list Submission -> Prop) (m : M A) (k : A -> M B) :
  emits Q1 m -> (forall a, emits (Q2 a) (k a)) ->
  (forall e l, Q1 (Throw e) l -> Q (Throw e) l) ->
  (forall a l1 o l2, Q1 (Ok a) l1 -> Q2 a o l2 -> Q o (l1 ++ l2)%list) ->
  emits Q (m ≫= k).
Proof.
  intros Hm Hk Hthrow Hseq s. rewrite run_bind. destruct (Hm s) as (l1 & Hl1 & H1).
  destruct (run m s) as [[a | e] s1]; cbn [fst snd] in *.
  - destruct (Hk a s1) as (l2 & Hl2 & H2). exists (l1 ++ l2)%list.
    split; [now rewrite Hl2, Hl1, app_assoc | eauto].
  - exists l1. auto.
Qed.

(** [approveIfNeeded], request by request. *)
Lemma approveIfNeeded_run (tokenAddress walletAddress units : string) (nonce : Z)
    (s : State) :
  run (approveIfNeeded w tokenAddress walletAddress units nonce) s =
  let failed e := Throw (JsErrorWith "Token approval failed" e) in
  match erc20_allowance w (clock s) tokenAddress walletAddress PANCAKESWAP_ROUTER_ADDRESS with
  | Throw e => (failed e, tick s)
  | Ok allowance =>
      match (a ← toBN (JsString allowance); b ← toBN (JsString units); Ok (a <? b)) with
      | Throw e => (failed e, tick s)
      | Ok false => (Ok nonce, tick s)
      | Ok true =>
          match getGasPrice w (S (clock s)) with
          | Throw e => (failed e, tick (tick s))
          | Ok gasPrice =>
              let approval := approval_request tokenAddress walletAddress nonce gasPrice in
              (match erc20_approve w (S (S (clock s))) approval with
               | Ok _ => Ok (nonce + 1)
               | Throw e => failed e
               end,
               {| clock := S (S (S (clock s))); nonceCache := nonceCache s;
                  wallet := wallet s;
                  submitted := (submitted s ++ [SubmitApproval approval])%list |})
          end
      end
  end.
Proof.
  unfold approveIfNeeded, approval_request. cbn zeta.
  rewrite run_try_catchM, run_bind. unfold await at 1. cbn [run].
  destruct (erc20_allowance w (clock s) tokenAddress walletAddress _) as [allowance | e];
    [| reflexivity].
  rewrite run_bind. unfold lift at 1. cbn [run].
  destruct (_ ← toBN (JsString allowance); _) as [[] | e]; [| reflexivity | reflexivity].
  rewrite run_bind. unfold await at 1. cbn [run clock tick].
  destruct (getGasPrice w (S (clock s))) as [gasPrice | e]; [| reflexivity].
  rewrite run_bind. unfold submit at 1. cbn [run clock].
  destruct (erc20_approve w _ _); reflexivity.
Qed.

Lemma compare_covered (read : nat -> Outcome string) (t : nat) (balance amount : string) :
  read t = Ok balance ->
  (a ← toBN (JsString balance); b ← toBN (JsString amount); Ok (a <? b)) = Ok false ->
  covered read amount.
Proof.
  intros Hread Hcmp. apply compare_outcome in Hcmp as (a & b & Ha & Hb & Hlt).
  exists t, balance, a, b. repeat split; try assumption.
  symmetry in Hlt. now apply Z.ltb_ge in Hlt.
Qed.

Lemma compare_short (read : nat -> Outcome string) (t : nat) (balance amount : string) :
  read t = Ok balance ->
  (a ← toBN (JsString balance); b ← toBN (JsString amount); Ok (a <? b)) = Ok true ->
  short_of read amount.
Proof.
  intros Hread Hcmp. apply compare_outcome in Hcmp as (a & b & Ha & Hb & Hlt).
  exists t, balance, a, b. repeat split; try assumption.
  symmetry in Hlt. now apply Z.ltb_lt in Hlt.
Qed.

Lemma approveIfNeeded_emits (tokenAddress walletAddress units : string) (nonce : Z) :
  let allowance t :=
    erc20_allowance w t tokenAddress walletAddress PANCAKESWAP_ROUTER_ADDRESS in
  emits (fun outcome l =>
           (l = [] /\
            ((outcome = Ok nonce /\ covered allowance units) \/ is_ok outcome = false)) \/
           exists gasPrice,
             l = [SubmitApproval (approval_request tokenAddress walletAddress nonce gasPrice)]
             /\ short_of allowance units
             /\ (outcome = Ok (nonce + 1) \/ is_ok outcome = false))
        (approveIfNeeded w tokenAddress walletAddress units nonce).
Proof.
  intros allowance s. rewrite approveIfNeeded_run. cbn zeta.
  destruct (erc20_allowance w (clock s) tokenAddress walletAddress _) as [held | e] eqn:Hheld;
    [| exists []; cbn; rewrite app_nil_r; auto].
  destruct (_ ← toBN (JsString held); _) as [[] | e] eqn:Hcmp;
    [| exists []; cbn; rewrite app_nil_r; (split; [reflexivity |]);
       left; (split; [reflexivity |]) ..].
  - destruct (getGasPrice w (S (clock s))) as [gasPrice | e];
      [| exists []; cbn; rewrite app_nil_r; auto].
    eexists. cbn [fst snd submitted]. split; [reflexivity |]. right. exists gasPrice.
    split; [reflexivity |]. split; [exact (compare_short allowance _ _ _ Hheld Hcmp) |].
    destruct (erc20_approve w _ _); auto.
  - left. split; [reflexivity | exact (compare_covered allowance _ _ _ Hheld Hcmp)].
  - now right.
Qed.

Lemma approval_request_unlimited (tokenAddress walletAddress : string) (nonce : Z)
    (gasPrice : string) :
  unlimited_approval tokenAddress walletAddress
    (approval_request tokenAddress walletAddress nonce gasPrice).
Proof. repeat split. Qed.

Lemma swaps_ask_approval (minimum : string -> Prop) (ap : Approval) :
  swaps_ask minimum [SubmitApproval ap].
Proof. intros tx [[=] | []]. Qed.

Lemma swaps_ask_approval_swap (minimum : string -> Prop) (ap : Approval) (tx : Transaction) :
  minimum (amountOutMinimum (tx_data tx)) ->
  swaps_ask minimum [SubmitApproval ap; SubmitSwap tx].
Proof. intros H tx' [[=] | [[= <-] | []]]. exact H. Qed.

Lemma sellTokenWithFeeTier_emits (privateKey tokenAddress tokenAmount : string)
    (slippagePercent : float) (specificFeeTier : Z) :
  emits (fun outcome l =>
           sell_emission w privateKey tokenAddress tokenAmount specificFeeTier outcome l /\
           sell_checks w privateKey tokenAddress tokenAmount specificFeeTier l /\
           swaps_ask (fun minimum => exists expected,
                          quoted_pinned w tokenAddress expected /\
                          amountOutMin_pinned expected slippagePercent = Ok minimum) l)
        (sellTokenWithFeeTier w privateKey tokenAddress tokenAmount slippagePercent
           specificFeeTier).
Proof.
  unfold sellTokenWithFeeTier. apply emits_cleanup. cbn zeta.
  match goal with
  | |- emits ?Q _ =>
      assert (forall e, Q (Throw e) []) as Hthrow
        by (intros e; split; [now left | split; [now left | apply swaps_ask_nil]])
  end.
  apply emits_lift_bind; [exact Hthrow | intros account Haccount].
  apply emits_bind; [auto with quiet | exact Hthrow | intros _].
  apply emits_bind; [auto with quiet | exact Hthrow | intros tokenInfo].
  apply emits_bind; [auto with quiet | exact Hthrow | intros _].
  apply emits_lift_bind; [exact Hthrow | intros units Hunits].
  apply emits_bind; [auto with quiet | exact Hthrow | intros _].
  apply emits_bind_run; [auto with quiet | exact Hthrow | intros tokenBalance [s0 Hbalance]].
  apply emits_lift_bind; [exact Hthrow | intros short Hshort].
  destruct short; [apply emits_throw, Hthrow |].
  pose proof (covered_by _ _ _ _ Hbalance Hshort) as Hcovered.
  apply emits_bind_run; [auto with quiet | exact Hthrow | intros isPoolValid Hvalid].
  destruct isPoolValid; cbn [negb]; [| apply emits_throw, Hthrow].
  apply emits_lift_bind; [exact Hthrow | intros route Hroute].
  apply emits_bind_run;
    [auto with quiet | exact Hthrow | intros expectedOutputAmount [s1 Hexpected]].
  apply emits_lift_bind; [exact Hthrow | intros amountOutMin HamountOutMin].
  apply emits_bind; [auto with quiet | exact Hthrow | intros _].
  apply emits_bind; [auto with quiet | exact Hthrow | intros _].
  apply emits_bind; [auto with quiet | exact Hthrow | intros nonce].
  apply emits_bind; [auto with quiet | exact Hthrow | intros _].
  assert (exists expected,
             quoted_pinned w tokenAddress expected /\
             amountOutMin_pinned expected slippagePercent = Ok amountOutMin) as Hminimum.
  { exists expectedOutputAmount. split; [| exact HamountOutMin].
    eexists _, _, _, _, s1. exact Hexpected. }
  eapply emits_then;
    [apply approveIfNeeded_emits | intros nonce'; apply executeSwap_emits | |].
  - (* the approval step raised *)
    intros e l [[-> _] | (gasPrice & -> & Hshortfall & _)]; [apply Hthrow |].
    split; [right | split; [right | apply swaps_ask_approval]].
    + exists account, units, route, (decimals tokenInfo).
      repeat split; try assumption. left. eexists. split; [reflexivity |].
      split; [apply approval_request_unlimited | reflexivity].
    + exists account, units, (decimals tokenInfo).
      repeat split; try assumption. left. eexists. now split.
  - intros nonce' l1 outcome l2 Happrove Hswap.
    destruct Happrove as [[-> Hn] | (gasPrice & -> & Hshortfall & Hn)];
      [destruct Hn as [[[= ->] Hallowed] | Hn]; [| discriminate Hn]
      | destruct Hn as [[= ->] | Hn]; [| discriminate Hn]];
      destruct Hswap as [[-> Hnone] | (gasPrice' & estimatedGas & t & -> & ->)]; cbn [app].
    + split; [now left | split; [now left | apply swaps_ask_nil]].
    + split; [right | split; [right | now apply swaps_ask_swap]].
      * exists account, units, route, (decimals tokenInfo).
        repeat split; try assumption. right. left. eexists. split; [reflexivity |].
        split; [apply swap_transaction_swap_by | now exists t].
      * exists account, units, (decimals tokenInfo).
        repeat split; try assumption. right. left. eexists. now split.
    + split; [right | split; [right | apply swaps_ask_approval]].
      * exists account, units, route, (decimals tokenInfo).
        repeat split; try assumption. left. eexists. split; [reflexivity |].
        split; [apply approval_request_unlimited | exact Hnone].
      * exists account, units, (decimals tokenInfo).
        repeat split; try assumption. left. eexists. now split.
    + split; [right | split; [right | now apply swaps_ask_approval_swap]].
      * exists account, units, route, (decimals tokenInfo).
        repeat split; try assumption. right. right. eexists _, _. split; [reflexivity |].
        split; [apply approval_request_unlimited |].
        split; [apply swap_transaction_swap_by |]. split; [reflexivity | now exists t].
      * exists account, units, (decimals tokenInfo).
        repeat split; try assumption. right. right. eexists _, _. now split.
Qed.

End SellOrders.


(** [sellTokenWithFeeTier] hands a transaction to the node only after the
    account's token balance covered the amount and validation accepted the
    pool at the given fee tier.  It sends an approval only when the router's
    allowance fell short of the amount, and a swap without approval only
    when the allowance covered it. *)
Theorem sellTokenWithFeeTier_checks_before_sending (w : World)
    (privateKey tokenAddress tokenAmount : string) (slippagePercent : float)
    (specificFeeTier : Z) (s : State) :
  let result := run (sellTokenWithFeeTier w privateKey tokenAddress tokenAmount
                       slippagePercent specificFeeTier) s in
  exists l,
    submitted (snd result) = (submitted s ++ l)%list /\
    sell_checks w privateKey tokenAddress tokenAmount specificFeeTier l.
Proof.
  cbn zeta.
  destruct (sellTokenWithFeeTier_emits w privateKey tokenAddress tokenAmount slippagePercent
              specificFeeTier s) as (l & Hl & _ & Hchecks & _).
  now exists l.
Qed.

(** When the quoter answers every request with the same amount, the swap of
    an order asks for a minimum output computed from that amount by the
    slippage rule of its entry point: the guarded rule in [buyToken], the
    unguarded one in [buyTokenWithFeeTier] and [sellTokenWithFeeTier]. *)
Theorem swap_minimum_output_from_quote (w : World)
    (privateKey tokenAddress amount amountOut : string) (slippagePercent : float)
    (specificFeeTier : Z) (s : State) :
  quotes w amountOut ->
  String.eqb amountOut EmptyString = false ->
  let asks (result : Outcome string * State) (minimum : string -> Prop) :=
    exists l,
      submitted (snd result) = (submitted s ++ l)%list /\
      forall tx, In (SubmitSwap tx) l -> minimum (amountOutMinimum (tx_data tx)) in
  asks (run (buyToken w privateKey tokenAddress amount slippagePercent) s)
       (fun minimum => minimum = amountOutMin_guarded amountOut slippagePercent) /\
  asks (run (buyTokenWithFeeTier w privateKey tokenAddress amount slippagePercent
               specificFeeTier) s)
       (fun minimum => amountOutMin_pinned amountOut slippagePercent = Ok minimum) /\
  asks (run (sellTokenWithFeeTier w privateKey tokenAddress amount slippagePercent
               specificFeeTier) s)
       (fun minimum => amountOutMin_pinned amountOut slippagePercent = Ok minimum).
Proof.
  intros Hq Hne. cbn zeta. repeat split.
  - destruct (buyToken_emits w privateKey tokenAddress amount slippagePercent s)
      as (l & Hl & _ & Hasks).
    exists l. split; [exact Hl |]. intros tx Hin.
    destruct (Hasks tx Hin) as (expected & Hquoted & ->).
    now rewrite (quoted_quotes w amountOut tokenAddress expected Hq Hne Hquoted).
  - destruct (buyTokenWithFeeTier_emits w privateKey tokenAddress amount slippagePercent
                specificFeeTier s) as (l & Hl & _ & Hasks).
    exists l. split; [exact Hl |]. intros tx Hin.
    destruct (Hasks tx Hin) as (expected & Hquoted & Hmin).
    now rewrite <- (quoted_pinned_quotes w amountOut tokenAddress expected Hq Hne Hquoted).
  - destruct (sellTokenWithFeeTier_emits w privateKey tokenAddress amount slippagePercent
                specificFeeTier s) as (l & Hl & _ & _ & Hasks).
    exists l. split; [exact Hl |]. intros tx Hin.
    destruct (Hasks tx Hin) as (expected & Hquoted & Hmin).
    now rewrite <- (quoted_pinned_quotes w amountOut tokenAddress expected Hq Hne Hquoted).
Qed.

Lemma swap_minimum_output_from_quote_witness :
  let w := live_world_with "0x6080604052600436106100" "5000000000" (Ok 210000%float) in
  let asks (result : Outcome string * State) (minimum : string -> Prop) :=
    exists l,
      submitted (snd result) = (submitted initial_state ++ l)%list /\
      forall tx, In (SubmitSwap tx) l -> minimum (amountOutMinimum (tx_data tx)) in
  asks (run (buyToken w "key" TOKEN "0.1" 0.5) initial_state)
       (fun minimum => minimum = amountOutMin_guarded "7000000" 0.5) /\
  asks (run (buyTokenWithFeeTier w "key" TOKEN "0.1" 0.5 2500) initial_state)
       (fun minimum => amountOutMin_pinned "7000000" 0.5 = Ok minimum) /\
  asks (run (sellTokenWithFeeTier w "key" TOKEN "0.1" 0.5 2500) initial_state)
       (fun minimum => amountOutMin_pinned "7000000" 0.5 = Ok minimum).
Proof.
  apply (swap_minimum_output_from_quote
           (live_world_with "0x6080604052600436106100" "5000000000" (Ok 210000%float))
           "key" TOKEN "0.1" "7000000" 0.5 2500 initial_state);
    [intros t route amount; reflexivity | reflexivity].
Defined.

(** * The wallet *)

Section Wallet.

Variable w : World.

Lemma not_in_wallet_after_remove (account : string) (l : list string) :
  account ∉ filter (fun a => a ≠ account) l.
Proof. rewrite list_elem_of_filter. intros [H _]. now apply H. Qed.

Lemma returns_without_throw {A} (account : string) (e : Error) :
  returns_without account (@throw A e).
Proof. intros s H. discriminate H. Qed.

Lemma returns_without_bind {A B} (account : string) (m : M A) (k : A -> M B) :
  (forall a, returns_without account (k a)) -> returns_without account (m ≫= k).
Proof.
  intros Hk s. rewrite run_bind. destruct (run m s) as [[a | e] s1]; [apply Hk |].
  intros H. discriminate H.
Qed.

Lemma returns_without_lift_bind {A B} (account : string) (o : Outcome A) (k : A -> M B) :
  (forall a, o = Ok a -> returns_without account (k a)) ->
  returns_without account (lift o ≫= k).
Proof.
  intros Hk s. rewrite run_bind. unfold lift at 1. cbn [run].
  destruct o as [a | e]; [now apply Hk |]. intros H. discriminate H.
Qed.

Lemma returns_without_executeSwap (walletAddress route amount amountOutMin : string)
    (value : option string) (nonce : Z) :
  returns_without walletAddress
    (executeSwap w walletAddress route amount amountOutMin value nonce).
Proof.
  intros s. rewrite executeSwap_run.
  destruct (getGasPrice w (clock s)); [| discriminate]. cbn zeta.
  destruct (exactInput_encodeABI w _); [| discriminate].
  destruct (numberToBN _); [| discriminate].
  destruct (sendTransaction w _ _); [| discriminate].
  intros _. apply not_in_wallet_after_remove.
Qed.

(** An entry point whose body returns without the account leaves the wallet
    without it, however it ends. *)
Lemma cleanup_leaves_wallet_without {A} (privateKey account : string) (body : M A)
    (s : State) :
  privateKeyToAccount w privateKey = Ok account ->
  returns_without account body ->
  account ∉ wallet (snd (run (try_catchM body (cleanup_and_rethrow w privateKey)) s)).
Proof.
  intros Hkey Hbody. rewrite run_try_catchM. specialize (Hbody s).
  destruct (run body s) as [[a | e] s1]; cbn [fst snd] in *; [now apply Hbody |].
  destruct (cleanup_and_rethrow_run w (A := A) privateKey e s1) as (_ & _ & _ & _ & ->).
  rewrite Hkey. apply not_in_wallet_after_remove.
Qed.

End Wallet.

(** Walks a [returns_without] goal down the code to [executeSwap]. *)
Ltac returns_without_step Hkey :=
  lazymatch goal with
  | |- returns_without _ (throw _) => apply returns_without_throw
  | |- returns_without _ (executeSwap _ _ _ _ _ _ _) => apply returns_without_executeSwap
  | |- returns_without _ (lift (privateKeyToAccount _ _) ≫= _) =>
      apply returns_without_lift_bind; intros ? Hsame; rewrite Hkey in Hsame;
      injection Hsame as <-
  | |- returns_without _ (if ?b then _ else _) => destruct b
  | |- returns_without _ (_ ≫= _) => apply returns_without_bind; intros ?
  end.

(** Whatever happens during an order, the account of the key is not in the
    wallet when the entry point is left, by return or by exception. *)
Theorem orders_leave_wallet_without_key (w : World)
    (privateKey tokenAddress amount : string) (slippagePercent : float)
    (specificFeeTier : Z) (s : State) (account : string) :
  privateKeyToAccount w privateKey = Ok account ->
  (account ∉ wallet (snd (run (buyToken w privateKey tokenAddress amount slippagePercent) s)))
  /\ (account ∉ wallet (snd (run (sellToken w privateKey tokenAddress amount slippagePercent) s)))
  /\ (account ∉ wallet (snd (run (buyTokenWithFeeTier w privateKey tokenAddress amount
                                    slippagePercent specificFeeTier) s)))
  /\ (account ∉ wallet (snd (run (sellTokenWithFeeTier w privateKey tokenAddress amount
                                    slippagePercent specificFeeTier) s))).
Proof.
  intros Hkey. repeat split.
  - unfold buyToken. apply cleanup_leaves_wallet_without; [exact Hkey |]. cbn zeta.
    repeat returns_without_step Hkey.
  - unfold sellToken. apply cleanup_leaves_wallet_without; [exact Hkey |]. cbn zeta.
    repeat returns_without_step Hkey.
  - unfold buyTokenWithFeeTier. apply cleanup_leaves_wallet_without; [exact Hkey |]. cbn zeta.
    repeat returns_without_step Hkey.
  - unfold sellTokenWithFeeTier. apply cleanup_leaves_wallet_without; [exact Hkey |]. cbn zeta.
    repeat returns_without_step Hkey.
Qed.

Lemma orders_leave_wallet_without_key_witness :
  ("0x1111111111111111111111111111111111111111"
     ∉ wallet (snd (run (buyToken live_world "0xkey" TOKEN "0.1" 1%float) initial_state)))
  /\ ("0x1111111111111111111111111111111111111111"
        ∉ wallet (snd (run (sellToken live_world "0xkey" TOKEN "0.1" 1%float) initial_state)))
  /\ ("0x1111111111111111111111111111111111111111"
        ∉ wallet (snd (run (buyTokenWithFeeTier live_world "0xkey" TOKEN "0.1" 1%float
                              FEE_TIERS_MEDIUM) initial_state)))
  /\ ("0x1111111111111111111111111111111111111111"
        ∉ wallet (snd (run (sellTokenWithFeeTier live_world "0xkey" TOKEN "0.1" 1%float
                              FEE_TIERS_MEDIUM) initial_state))).
Proof.
  apply (orders_leave_wallet_without_key live_world "0xkey" TOKEN "0.1" 1%float
           FEE_TIERS_MEDIUM initial_state).
  reflexivity.
Defined.

(** A key that the library rejects ends every entry point at once, with the
    library's error: no request is made and nothing changes. *)
Theorem orders_refuse_rejected_key (w : World)
    (privateKey tokenAddress amount : string) (slippagePercent : float)
    (specificFeeTier : Z) (s : State) (e : Error) :
  privateKeyToAccount w privateKey = Throw e ->
  run (buyToken w privateKey tokenAddress amount slippagePercent) s = (Throw e, s) /\
  run (sellToken w privateKey tokenAddress amount slippagePercent) s = (Throw e, s) /\
  run (buyTokenWithFeeTier w privateKey tokenAddress amount slippagePercent specificFeeTier) s
    = (Throw e, s) /\
  run (sellTokenWithFeeTier w privateKey tokenAddress amount slippagePercent specificFeeTier) s
    = (Throw e, s).
Proof.
  intros Hkey.
  assert (forall A, run (@cleanup_and_rethrow w A privateKey e) s = (Throw e, s)) as Hc.
  { intros A. unfold cleanup_and_rethrow. rewrite run_bind, run_try_catchM, run_bind.
    unfold lift at 1. cbn [run]. rewrite Hkey. reflexivity. }
  repeat split;
    [unfold buyToken | unfold sellToken | unfold buyTokenWithFeeTier
     | unfold sellTokenWithFeeTier];
    rewrite run_try_catchM, run_bind; unfold lift at 1; cbn [run]; rewrite Hkey; apply Hc.
Qed.

Lemma orders_refuse_rejected_key_witness :
  run (buyToken offline "0xkey" TOKEN "0.1" 1%float) initial_state
    = (Throw (LibError "connection refused"), initial_state) /\
  run (sellToken offline "0xkey" TOKEN "0.1" 1%float) initial_state
    = (Throw (LibError "connection refused"), initial_state) /\
  run (buyTokenWithFeeTier offline "0xkey" TOKEN "0.1" 1%float FEE_TIERS_MEDIUM) initial_state
    = (Throw (LibError "connection refused"), initial_state) /\
  run (sellTokenWithFeeTier offline "0xkey" TOKEN "0.1" 1%float FEE_TIERS_MEDIUM) initial_state
    = (Throw (LibError "connection refused"), initial_state).
Proof.
  apply (orders_refuse_rejected_key offline "0xkey" TOKEN "0.1" 1%float FEE_TIERS_MEDIUM
           initial_state).
  reflexivity.
Defined.

(** * Refusals before trading *)

Section Refusals.

Variable w : World.

Lemma run_lift_bind {A B} (o : Outcome A) (k : A -> M B) (s : State) (a : A) :
  o = Ok a -> run (lift o ≫= k) s = run (k a) s.
Proof. intros ->. reflexivity. Qed.

Lemma run_await_bind {A B} (request : nat -> Outcome A) (k : A -> M B) (s : State) (a : A) :
  request (clock s) = Ok a -> run (await request ≫= k) s = run (k a) (tick s).
Proof. intros H. rewrite run_bind. unfold await at 1. cbn [run]. now rewrite H. Qed.

(** An entry point whose body raises [e] raises [e], after the same
    requests and with the same transactions handed to the node. *)
Lemma cleanup_rethrows {A} (privateKey : string) (body : M A) (s s1 : State) (e : Error) :
  run body s = (Throw e, s1) ->
  fst (run (try_catchM body (cleanup_and_rethrow w privateKey)) s) = Throw e /\
  submitted (snd (run (try_catchM body (cleanup_and_rethrow w privateKey)) s)) = submitted s1 /\
  clock (snd (run (try_catchM body (cleanup_and_rethrow w privateKey)) s)) = clock s1.
Proof.
  intros H. rewrite run_try_catchM, H.
  destruct (cleanup_and_rethrow_run w (A := A) privateKey e s1) as (Hr & Hs & _ & Hc & _).
  auto.
Qed.

Lemma cleanup_rethrows_quiet {A} (privateKey : string) (body : M A) (s s1 : State)
    (e : Error) :
  run body s = (Throw e, s1) -> submitted s1 = submitted s ->
  fst (run (try_catchM body (cleanup_and_rethrow w privateKey)) s) = Throw e /\
  submitted (snd (run (try_catchM body (cleanup_and_rethrow w privateKey)) s)) = submitted s.
Proof.
  intros H Hs. destruct (cleanup_rethrows privateKey body s s1 e H) as (Hr & Hs' & _).
  split; [exact Hr | congruence].
Qed.

End Refusals.

(** An order for more BNB than the account holds is refused after the
    balance request, the only request made, and nothing is handed to the
    node. *)
Theorem buy_refuses_insufficient_balance (w : World)
    (privateKey tokenAddress bnbAmount : string) (slippagePercent : float)
    (specificFeeTier : Z) (s : State) (account balance wei : string) (held asked : Z) :
  privateKeyToAccount w privateKey = Ok account ->
  getBalance w (clock s) account = Ok balance ->
  toWei w bnbAmount "ether" = Ok wei ->
  toBN (JsString balance) = Ok held ->
  toBN (JsString wei) = Ok asked ->
  held < asked ->
  let refused (result : Outcome string * State) :=
    fst result = Throw (JsError "Insufficient BNB balance") /\
    submitted (snd result) = submitted s /\
    clock (snd result) = S (clock s) in
  refused (run (buyToken w privateKey tokenAddress bnbAmount slippagePercent) s) /\
  refused (run (buyTokenWithFeeTier w privateKey tokenAddress bnbAmount slippagePercent
                  specificFeeTier) s).
Proof.
  intros Hkey Hbalance Hwei Hheld Hasked Hlt. cbn zeta.
  assert ((held <? asked) = true) as Hshort by now apply Z.ltb_lt.
  split.
  - unfold buyToken.
    eapply (cleanup_rethrows w privateKey _ s
              {| clock := S (clock s); nonceCache := nonceCache s;
                 wallet := account :: wallet s; submitted := submitted s |}).
    rewrite (run_lift_bind _ _ _ account Hkey). cbn zeta. rewrite run_bind.
    cbn [run wallet_add]. rewrite (run_await_bind _ _ _ balance) by exact Hbalance.
    rewrite (run_lift_bind _ _ _ wei) by (now rewrite Hwei).
    unfold fromWei_in_log. rewrite run_bind.
    rewrite (run_lift_bind _ _ _ held) by exact Hheld. cbn [run mret M_ret].
    rewrite (run_lift_bind _ _ _ true) by (now rewrite Hheld, Hasked; cbn; rewrite Hshort).
    reflexivity.
  - unfold buyTokenWithFeeTier.
    eapply (cleanup_rethrows w privateKey _ s
              {| clock := S (clock s); nonceCache := nonceCache s;
                 wallet := account :: wallet s; submitted := submitted s |}).
    rewrite (run_lift_bind _ _ _ account Hkey). cbn zeta. rewrite run_bind.
    cbn [run wallet_add]. rewrite (run_await_bind _ _ _ balance) by exact Hbalance.
    rewrite (run_lift_bind _ _ _ wei) by exact Hwei.
    unfold fromWei_in_log. rewrite run_bind.
    rewrite (run_lift_bind _ _ _ held) by exact Hheld. cbn [run mret M_ret].
    rewrite (run_lift_bind _ _ _ true) by (now rewrite Hheld, Hasked; cbn; rewrite Hshort).
    reflexivity.
Qed.

Lemma buy_refuses_insufficient_balance_witness :
  fst (run (buyToken live_world "0xkey" TOKEN "2.5" 1%float) initial_state)
    = Throw (JsError "Insufficient BNB balance") /\
  fst (run (buyTokenWithFeeTier live_world "0xkey" TOKEN "2.5" 1%float FEE_TIERS_MEDIUM)
           initial_state)
    = Throw (JsError "Insufficient BNB balance").
Proof.
  destruct (buy_refuses_insufficient_balance live_world "0xkey" TOKEN "2.5" 1%float
              FEE_TIERS_MEDIUM initial_state "0x1111111111111111111111111111111111111111"
              "1000000000000000000" "2500000000000000000"
              1000000000000000000 2500000000000000000)
    as [(H1 & _) (H2 & _)]; try reflexivity.
  split; [exact H1 | exact H2].
Defined.

(** A sale of more tokens than the account holds is refused after the
    token's description and the balance have been read, and nothing is
    handed to the node. *)
Theorem sellTokenWithFeeTier_refuses_insufficient_balance (w : World)
    (privateKey tokenAddress tokenAmount : string) (slippagePercent : float)
    (specificFeeTier : Z) (s s1 : State) (account units balance : string)
    (tokenInfo : TokenInfo) (held asked : Z) :
  privateKeyToAccount w privateKey = Ok account ->
  run (getTokenInfo w tokenAddress) (snd (run (wallet_add account) s)) = (Ok tokenInfo, s1) ->
  isAddress w tokenAddress = true ->
  toTokenUnits (toWei w) tokenAmount (decimals tokenInfo) = Ok units ->
  erc20_balanceOf w (clock s1) tokenAddress account = Ok balance ->
  toBN (JsString balance) = Ok held ->
  toBN (JsString units) = Ok asked ->
  held < asked ->
  let result := run (sellTokenWithFeeTier w privateKey tokenAddress tokenAmount
                       slippagePercent specificFeeTier) s in
  fst result = Throw (JsError "Insufficient token balance") /\
  submitted (snd result) = submitted s.
Proof.
  intros Hkey Hinfo Haddress Hunits Hbalance Hheld Hasked Hlt. cbn zeta.
  assert ((held <? asked) = true) as Hshort by now apply Z.ltb_lt.
  pose proof (quiet_getTokenInfo w tokenAddress (snd (run (wallet_add account) s))) as Hq.
  rewrite Hinfo in Hq. cbn [snd run wallet_add submitted] in Hq.
  unfold sellTokenWithFeeTier.
  apply cleanup_rethrows_quiet with (s1 := tick s1); [| exact Hq].
  rewrite (run_lift_bind _ _ _ account Hkey). cbn zeta. rewrite run_bind.
  change (run (wallet_add account) s) with (Ok tt, snd (run (wallet_add account) s)).
  cbv beta iota. rewrite run_bind, Hinfo. cbv beta iota.
  unfold newContract. rewrite Haddress, run_bind. cbn [run mret M_ret].
  rewrite (run_lift_bind _ _ _ units Hunits).
  rewrite run_bind.
  change (run (resolve sellTokenWithFeeTier_scope "tokenContract") s1) with (Ok tt, s1).
  cbv beta iota.
  rewrite (run_await_bind _ _ _ balance) by exact Hbalance.
  rewrite (run_lift_bind _ _ _ true) by (now rewrite Hheld, Hasked; cbn; rewrite Hshort).
  reflexivity.
Qed.

Lemma sellTokenWithFeeTier_refuses_insufficient_balance_witness :
  fst (run (sellTokenWithFeeTier live_world "0xkey" TOKEN "7.25" 1%float FEE_TIERS_MEDIUM)
           initial_state)
    = Throw (JsError "Insufficient token balance") /\
  submitted (snd (run (sellTokenWithFeeTier live_world "0xkey" TOKEN "7.25" 1%float
                         FEE_TIERS_MEDIUM) initial_state))
    = submitted initial_state.
Proof.
  eapply (sellTokenWithFeeTier_refuses_insufficient_balance live_world "0xkey" TOKEN "7.25"
            1%float FEE_TIERS_MEDIUM initial_state _
            "0x1111111111111111111111111111111111111111" "7250000000" "5000000000"
            {| address := Some TOKEN; symbol := "TKN"; name := "Token"; decimals := 9 |}
            5000000000 7250000000); reflexivity.
Defined.

(** * The description of a token *)

(** [getTokenInfo] answers for ["bnb"], in any mix of cases, without asking
    the node; it refuses an address that the library does not accept, again
    without asking; whatever it raises is wrapped as "Failed to get token
    info"; and what it returns for a token carries the address it was given
    and the decimals the contract reported. *)
Theorem getTokenInfo_outcomes (w : World) (tokenAddress : string) (s : State) :
  let result := run (getTokenInfo w tokenAddress) s in
  (map_chars to_lower tokenAddress = "bnb" -> result = (Ok BNB_TOKEN_INFO, s)) /\
  (map_chars to_lower tokenAddress <> "bnb" -> isAddress w tokenAddress = false ->
   result = (Throw (JsErrorWith "Failed to get token info" (JsError "Invalid token address")),
             s)) /\
  (forall e, fst result = Throw e ->
     exists cause, e = JsErrorWith "Failed to get token info" cause) /\
  (forall tokenInfo, fst result = Ok tokenInfo ->
     map_chars to_lower tokenAddress <> "bnb" ->
     address tokenInfo = Some tokenAddress /\
     erc20_decimals w (S (S (clock s))) tokenAddress = Ok (decimals tokenInfo)).
Proof.
  cbn zeta. unfold getTokenInfo.
  destruct (String.eqb_spec (map_chars to_lower tokenAddress) "bnb") as [Hbnb | Hbnb].
  - split; [reflexivity |]. split; [contradiction |].
    split; [intros e H; discriminate H | intros info _ H; contradiction].
  - split; [contradiction |]. rewrite run_try_catchM.
    destruct (isAddress w tokenAddress); cbn [negb].
    + split; [discriminate |]. rewrite run_bind. unfold await_all3. cbn [run].
      destruct (erc20_symbol w (clock s) tokenAddress) as [sym | e1];
        destruct (erc20_name w (S (clock s)) tokenAddress) as [nm | e2];
        destruct (erc20_decimals w (S (S (clock s))) tokenAddress) as [dec | e3];
        cbn; (split; [intros e H; inversion H; eauto | intros info H _; inversion H; auto]).
    + split; [reflexivity |]. cbn.
      split; [intros e H; inversion H; eauto | intros info H; discriminate H].
Qed.

(** * The honeypot heuristic on bytecode *)

Section Bytecode.

Lemma includes_owner_needs_o (code : string) :
  all_chars (fun c => negb (Ascii.eqb c "o")) code = true -> includes "owner" code = false.
Proof.
  induction code as [| c code IH]; [reflexivity |]. cbn [all_chars]. intros H.
  apply andb_true_iff in H as [Hc Hrest]. cbn [includes]. rewrite (IH Hrest), orb_false_r.
  cbn [String.prefix]. destruct (ascii_dec "o" c) as [<- | _]; [discriminate Hc | reflexivity].
Qed.

Lemma hex_is_not_o (s : string) :
  all_chars is_hex s = true -> all_chars (fun c => negb (Ascii.eqb c "o")) s = true.
Proof.
  induction s as [| c s IH]; [reflexivity |]. cbn [all_chars]. intros H.
  apply andb_true_iff in H as [Hc Hs]. rewrite (IH Hs), andb_true_r.
  destruct c as [[] [] [] [] [] [] [] []]; try reflexivity; discriminate Hc.
Qed.

Lemma bytecode_has_no_owner (code : string) :
  is_bytecode code = true -> includes "owner" code = false.
Proof.
  unfold is_bytecode. intros H. apply andb_true_iff in H as [Hp Hhex].
  apply includes_owner_needs_o.
  destruct code as [| a code]; [discriminate Hp |]. cbn [String.prefix] in Hp.
  destruct (ascii_dec "0" a) as [<- | _]; [| discriminate Hp].
  destruct code as [| b code]; [discriminate Hp |]. cbn [String.prefix] in Hp.
  destruct (ascii_dec "x" b) as [<- | _]; [| discriminate Hp].
  cbn [drop] in Hhex. cbn [all_chars]. now rewrite hex_is_not_o.
Qed.

End Bytecode.

(** On bytecode as a node reports it, ["0x"] followed by hex digits, the
    three words the heuristic looks for cannot occur, since no hex digit is
    the letter o: the verdict is the size test alone. *)
Theorem checkForHoneypot_on_bytecode (w : World) (tokenAddress code : string) (s : State) :
  isAddress w tokenAddress = true ->
  getCode w (clock s) tokenAddress = Ok code ->
  is_bytecode code = true ->
  fst (run (checkForHoneypot w tokenAddress) s) = Ok (50000 <? Z.of_nat (String.length code)).
Proof.
  intros Haddress Hcode Hhex.
  rewrite (checkForHoneypot_run w tokenAddress code s Haddress Hcode).
  rewrite (bytecode_has_no_owner code Hhex). cbn [andb]. now rewrite orb_false_r.
Qed.

Lemma checkForHoneypot_on_bytecode_witness :
  fst (run (checkForHoneypot (live_world_with "0x6080604052600436106100" "0" (Ok 210000%float))
              TOKEN) initial_state)
  = Ok false.
Proof.
  apply (checkForHoneypot_on_bytecode
           (live_world_with "0x6080604052600436106100" "0" (Ok 210000%float))
           TOKEN "0x6080604052600436106100" initial_state); reflexivity.
Defined.

(** * Sending the swap *)

(** A gas estimate that fails does not stop the order: when the ABI coder
    has accepted the parameters, the swap is handed to the node with a gas
    limit of 550000, under the nonce and with the minimum output it was
    given, and its hash or the node's refusal is the result. *)
Theorem executeSwap_survives_failed_gas_estimate (w : World)
    (walletAddress route amount amountOutMin : string) (value : option string) (nonce : Z)
    (s : State) (gasPrice swapData : string) (price : Z) (e : Error) :
  let params := {| path := route; recipient := walletAddress;
                   deadline := Date_now w / 1000 + 60 * 20;
                   amountIn := amount; amountOutMinimum := amountOutMin |} in
  getGasPrice w (clock s) = Ok gasPrice ->
  numberToBN gasPrice = Ok price ->
  exactInput_encodeABI w params = Ok swapData ->
  router_estimateGas w (S (clock s)) params walletAddress value = Throw e ->
  let result := run (executeSwap w walletAddress route amount amountOutMin value nonce) s in
  exists tx,
    submitted (snd result) = (submitted s ++ [SubmitSwap tx])%list /\
    tx_gas tx = 550000%float /\
    tx_nonce tx = nonce /\
    tx_data tx = params /\
    fst result = sendTransaction w (S (S (clock s))) tx.
Proof.
  cbn zeta. intros Hprice Hnumber Hdata Hestimate.
  rewrite executeSwap_run, Hprice. cbn zeta. rewrite Hdata, Hestimate, Hnumber.
  exists (swap_transaction w walletAddress route amount amountOutMin value nonce gasPrice
            500000%float).
  destruct (sendTransaction w _ _); cbn [fst snd submitted]; repeat split.
Qed.

Lemma executeSwap_survives_failed_gas_estimate_witness :
  let w := live_world_with "0x" "0" (Throw (LibError "execution reverted")) in
  let account := "0x1111111111111111111111111111111111111111" in
  let route :=
    "0xbb4CdB9CBd36B01bD1cBaEBF2De08d9173bc095c0009c4F8A0BF9cF54Bb92F17374d9e9A321E6a111a51bD" in
  exists tx,
    submitted (snd (run (executeSwap w account route "100000000000000000" "6930000"
                           (Some "100000000000000000") 7) initial_state))
      = (submitted initial_state ++ [SubmitSwap tx])%list /\
    tx_gas tx = 550000%float /\
    tx_nonce tx = 7 /\
    tx_data tx = {| path := route; recipient := account;
                    deadline := Date_now w / 1000 + 60 * 20;
                    amountIn := "100000000000000000"; amountOutMinimum := "6930000" |} /\
    fst (run (executeSwap w account route "100000000000000000" "6930000"
                (Some "100000000000000000") 7) initial_state)
      = sendTransaction w 2 tx.
Proof.
  cbv zeta.
  eapply (executeSwap_survives_failed_gas_estimate
            (live_world_with "0x" "0" (Throw (LibError "execution reverted")))
            "0x1111111111111111111111111111111111111111"
            "0xbb4CdB9CBd36B01bD1cBaEBF2De08d9173bc095c0009c4F8A0BF9cF54Bb92F17374d9e9A321E6a111a51bD"
            "100000000000000000" "6930000" (Some "100000000000000000") 7
            initial_state "3000000000" _ 3000000000 (LibError "execution reverted"));
    reflexivity.
Defined.

(** * The two ways of computing the minimum output *)

(** Wherever the computation of [buyTokenWithFeeTier] and
    [sellTokenWithFeeTier] gives a minimum output, the guarded computation of
    [buyToken] and [sellToken] gives the same one. *)
Theorem amountOutMin_guarded_agrees_with_pinned (expectedOutputAmount minimum : string)
    (slippagePercent : float) :
  amountOutMin_pinned expectedOutputAmount slippagePercent = Ok minimum ->
  amountOutMin_guarded expectedOutputAmount slippagePercent = minimum.
Proof.
  unfold amountOutMin_pinned, amountOutMin_guarded. intros H.
  destruct (toBN (JsString expectedOutputAmount)) as [expected |] eqn:He; [| discriminate H].
  destruct (toBN (JsNumber (slippageFactor slippagePercent))) as [factor |] eqn:Hf;
    [| discriminate H].
  rewrite (safeBN_text_numberToBN _ _ He : safeBN (JsString expectedOutputAmount) = expected).
  rewrite (safeBN_text_numberToBN _ _ Hf
             : safeBN (JsNumber (slippageFactor slippagePercent)) = factor).
  change (toBN (JsNumber 10000)) with (@Ok Z 10000) in H.
  change (safeBN (JsNumber 10000)) with 10000.
  cbn [mbind Outcome_bind obind Z.eqb] in *.
  destruct (BN_div (expected * factor) 10000); [now injection H | discriminate H].
Qed.

Lemma amountOutMin_guarded_agrees_with_pinned_witness :
  amountOutMin_guarded "10000" 1 = "9900".
Proof. apply amountOutMin_guarded_agrees_with_pinned. reflexivity. Defined.

(** * The nonce after an approval *)

(** [approveIfNeeded] sends the approval under the nonce that [getNextNonce]
    issued and returns the next number for the swap, but the cache keeps the
    issued one.  At the next order [getNextNonce] issues the swap's nonce
    again, unless the node by then counts both transactions. *)
Theorem getNextNonce_reissues_swap_nonce_after_approval (w : World)
    (tokenAddress account units : string) (s s1 s2 s3 : State) (n count : Z) :
  is_ok (getTransactionCount w (clock s) account) = true ->
  run (getNextNonce w account) s = (Ok n, s1) ->
  run (approveIfNeeded w tokenAddress account units n) s1 = (Ok (n + 1), s2) ->
  nonceCache s3 = nonceCache s2 ->
  getTransactionCount w (clock s3) account = Ok count ->
  count <= n + 1 ->
  nonceCache s2 !! account = Some n /\
  fst (run (getNextNonce w account) s3) = Ok (n + 1).
Proof.
  intros Hok Hnonce Happrove Hcache Hcount Hle.
  destruct (getNextNonce_fresh w account s n Hok) as [Hcached _];
    [now rewrite Hnonce |].
  rewrite Hnonce in Hcached. cbn [snd] in Hcached.
  pose proof (keeps_cache_approveIfNeeded w tokenAddress account units n s1) as Hkeep.
  rewrite Happrove in Hkeep. cbn [snd] in Hkeep.
  assert (nonceCache s3 !! account = Some n) as Hc3 by congruence.
  split; [congruence |].
  rewrite getNextNonce_run, Hcount, Hc3. cbn [fst].
  destruct (Z.ltb_spec n count); f_equal; lia.
Qed.

Lemma getNextNonce_reissues_swap_nonce_after_approval_witness :
  fst (run (getNextNonce (live_world_with "0x" "0" (Ok 210000%float))
              "0x1111111111111111111111111111111111111111")
           (snd (run (approveIfNeeded (live_world_with "0x" "0" (Ok 210000%float)) TOKEN
                        "0x1111111111111111111111111111111111111111" "3500000000" 7)
                     (snd (run (getNextNonce (live_world_with "0x" "0" (Ok 210000%float))
                                  "0x1111111111111111111111111111111111111111")
                               initial_state)))))
  = Ok 8.
Proof.
  refine (proj2 (getNextNonce_reissues_swap_nonce_after_approval
                   (live_world_with "0x" "0" (Ok 210000%float)) TOKEN
                   "0x1111111111111111111111111111111111111111" "3500000000"
                   initial_state _ _ _ 7 7 _ _ _ _ _ _)); try reflexivity.
  lia.
Defined.

(** * The estimate from the pool's price *)

Section Estimate.

(** The exponent of the decimal adjustment and the divisor's exponent, for
    every number of decimals a token can report (a [uint8]). *)
Lemma decimals_table :
  forallb (fun d => match toBN (JsNumber (18 - Number_of_nat d)%float) with
                    | Ok n => n =? 18 - Z.of_nat d
                    | Throw _ => false
                    end
                    && match toBN (JsNumber (Number_of_nat d - 18)%float) with
                       | Ok n => n =? Z.of_nat d - 18
                       | Throw _ => false
                       end
                    && (safeBN (JsNumber (Number_of_nat d)) =? Z.of_nat d))
          (seq 0 256) = true.
Proof. vm_compute. reflexivity. Qed.

Lemma decimals_exponents (d : nat) :
  (d <= 255)%nat ->
  toBN (JsNumber (18 - Number_of_nat d)%float) = Ok (18 - Z.of_nat d) /\
  toBN (JsNumber (Number_of_nat d - 18)%float) = Ok (Z.of_nat d - 18) /\
  safeBN (JsNumber (Number_of_nat d)) = Z.of_nat d.
Proof.
  intros Hd. pose proof decimals_table as H. rewrite forallb_forall in H.
  specialize (H d). rewrite in_seq in H. specialize (H ltac:(lia)).
  apply andb_true_iff in H as [H H3]. apply andb_true_iff in H as [H1 H2].
  destruct (toBN (JsNumber (18 - Number_of_nat d)%float)); [| discriminate H1].
  destruct (toBN (JsNumber (Number_of_nat d - 18)%float)); [| discriminate H2].
  apply Z.eqb_eq in H1, H2, H3. repeat split; congruence.
Qed.

Lemma safeBN_constants :
  safeBN (JsNumber 10) = 10 /\ safeBN (JsNumber 18) = 18 /\
  safeBN (JsNumber 90) = 90 /\ safeBN (JsNumber 100) = 100.
Proof. vm_compute. auto. Qed.

(** A price of zero gives an estimate of zero. *)
Lemma zero_price_estimate (adjustment inputAmount divisionFactor : Z) :
  divisionFactor <> 0 ->
  (roughOutputAmount ← BN_div (inputAmount * (0 * adjustment)) divisionFactor;
   roughOutputAmount ← BN_div (roughOutputAmount * 90) 100;
   Ok (BN_toString roughOutputAmount)) = Ok "0".
Proof.
  intros Hd. unfold BN_div. destruct (Z.eqb_spec divisionFactor 0); [contradiction |].
  rewrite Z.mul_0_l, Z.mul_0_r, Z.quot_0_l by exact Hd. reflexivity.
Qed.

Lemma inverse_price_zero (square : Z) :
  2 ^ 192 < square ->
  (if square =? 0 then Throw (JsError "Price calculation failed: sqrtPriceSquared is zero")
   else BN_div (Q96 * Q96) square) = Ok 0.
Proof.
  intros H. unfold BN_div. destruct (Z.eqb_spec square 0); [lia |].
  change (Q96 * Q96) with (2 ^ 192). now rewrite Z.quot_small by lia.
Qed.

Lemma direct_price_zero (square : Z) :
  0 <= square < 2 ^ 192 -> BN_div square (Q96 * Q96) = Ok 0.
Proof.
  intros H. unfold BN_div. change (Q96 * Q96) with (2 ^ 192).
  change (2 ^ 192 =? 0) with false. cbv iota. now rewrite Z.quot_small by lia.
Qed.

End Estimate.

(** When the quoter has failed and the pool's price, taken in the direction
    the code takes it, is below one, the integer division leaves a price of
    zero: the estimate is ["0"], on the buy side and on the sell side, and the
    minimum output computed from it is ["0"] at every slippage tolerance. *)
Theorem estimateFromPool_truncates_to_zero (tokenAddress bnbAmountWei tokenAmountInUnits
    token0 : string) (tokenInfo : TokenInfo) (slot0 : Slot0) :
  (decimals tokenInfo <= 255)%nat ->
  let sqrtPrice := safeBN (JsString (sqrtPriceX96 slot0)) in
  (token0 = WBNB_ADDRESS -> 2 ^ 192 < sqrtPrice * sqrtPrice ->
   estimateFromPool_buy tokenInfo bnbAmountWei token0 slot0 = Ok "0") /\
  (token0 <> WBNB_ADDRESS -> sqrtPrice * sqrtPrice < 2 ^ 192 ->
   estimateFromPool_buy tokenInfo bnbAmountWei token0 slot0 = Ok "0") /\
  (token0 = tokenAddress -> 2 ^ 192 < sqrtPrice * sqrtPrice ->
   estimateFromPool_sell tokenAddress tokenInfo tokenAmountInUnits token0 slot0 = Ok "0") /\
  (token0 <> tokenAddress -> sqrtPrice * sqrtPrice < 2 ^ 192 ->
   estimateFromPool_sell tokenAddress tokenInfo tokenAmountInUnits token0 slot0 = Ok "0") /\
  (forall slippagePercent, amountOutMin_guarded "0" slippagePercent = "0").
Proof.
  intros Hd. cbn zeta.
  destruct (decimals_exponents (decimals tokenInfo) Hd) as (Hbuy & Hsell & Hdiv).
  destruct safeBN_constants as (H10 & H18 & H90 & H100).
  set (sqrtPrice := safeBN (JsString (sqrtPriceX96 slot0))).
  assert (Q96 * Q96 = 2 ^ 192) as HQ by reflexivity.
  assert (forall n, 0 <= n -> BN_pow 10 n <> 0) as Hpow
    by (intros n Hn; unfold BN_pow; apply Z.pow_nonzero; lia).
  assert (0 <= sqrtPrice * sqrtPrice) as Hsq by nia.
  repeat split.
  - intros Htoken Hlarge. unfold estimateFromPool_buy. fold sqrtPrice.
    apply String.eqb_eq in Htoken. rewrite Htoken, inverse_price_zero by exact Hlarge.
    cbn [mbind Outcome_bind obind]. rewrite Hbuy. cbn [mbind Outcome_bind obind].
    rewrite H10, H18, H90, H100.
    destruct (Z.eqb_spec (BN_pow 10 18) 0) as [H0 | _]; [discriminate H0 |].
    apply zero_price_estimate. discriminate.
  - intros Htoken Hsmall. unfold estimateFromPool_buy. fold sqrtPrice.
    apply String.eqb_neq in Htoken. rewrite Htoken, direct_price_zero by lia.
    cbn [mbind Outcome_bind obind]. rewrite Hbuy. cbn [mbind Outcome_bind obind].
    rewrite H10, H18, H90, H100.
    destruct (Z.eqb_spec (BN_pow 10 18) 0) as [H0 | _]; [discriminate H0 |].
    apply zero_price_estimate. discriminate.
  - intros Htoken Hlarge. unfold estimateFromPool_sell. fold sqrtPrice.
    apply String.eqb_eq in Htoken. rewrite Htoken, inverse_price_zero by exact Hlarge.
    cbn [mbind Outcome_bind obind]. rewrite Hsell. cbn [mbind Outcome_bind obind].
    rewrite H10, Hdiv, H90, H100.
    destruct (Z.eqb_spec (BN_pow 10 (Z.of_nat (decimals tokenInfo))) 0) as [H0 | Hne];
      [now apply Hpow in H0; [| lia] |].
    now apply zero_price_estimate.
  - intros Htoken Hsmall. unfold estimateFromPool_sell. fold sqrtPrice.
    apply String.eqb_neq in Htoken. rewrite Htoken, direct_price_zero by lia.
    cbn [mbind Outcome_bind obind]. rewrite Hsell. cbn [mbind Outcome_bind obind].
    rewrite H10, Hdiv, H90, H100.
    destruct (Z.eqb_spec (BN_pow 10 (Z.of_nat (decimals tokenInfo))) 0) as [H0 | Hne];
      [now apply Hpow in H0; [| lia] |].
    now apply zero_price_estimate.
Qed.

Lemma estimateFromPool_truncates_to_zero_witness :
  estimateFromPool_buy {| address := Some TOKEN; symbol := "TKN"; name := "Token";
                          decimals := 9 |}
    "100000000000000000" TOKEN {| sqrtPriceX96 := "2505414483750479311864138015" |}
  = Ok "0".
Proof.
  refine (proj1 (proj2 (estimateFromPool_truncates_to_zero TOKEN "100000000000000000"
                          "3500000000" TOKEN
                          {| address := Some TOKEN; symbol := "TKN"; name := "Token";
                             decimals := 9 |}
                          {| sqrtPriceX96 := "2505414483750479311864138015" |} _)) _ _).
  - cbn. lia.
  - discriminate.
  - vm_compute. reflexivity.
Defined.

(** * Choosing a pool that validates *)

Section StablePools.

Variable w : World.
Variable tokenAddress : string.

(** The factory and the pools answer the same throughout. *)
Hypothesis stable_factory :
  forall t token0 token1 fee,
    factory_getPool w t token0 token1 fee = factory_getPool w 0 token0 token1 fee.
Hypothesis stable_pool_liquidity :
  forall t poolAddress, pool_liquidity w t poolAddress = pool_liquidity w 0 poolAddress.
Hypothesis stable_pool_slot0 :
  forall t poolAddress, pool_slot0 w t poolAddress = pool_slot0 w 0 poolAddress.

Lemma validatePancakeV3Pool_stable (fee : Z) (s : State) :
  fst (run (validatePancakeV3Pool w tokenAddress fee) s) = Ok (pool_valid w tokenAddress fee).
Proof.
  unfold pool_valid. rewrite !validatePancakeV3Pool_run. cbn [clock initial_state].
  destruct (sortedTokens w tokenAddress) as [[token0 token1] | e]; [| reflexivity].
  rewrite (stable_factory (clock s)).
  destruct (factory_getPool w 0 token0 token1 fee) as [pool | e]; [| reflexivity].
  rewrite (stable_pool_liquidity (S (clock s))), (stable_pool_liquidity 1).
  rewrite (stable_pool_slot0 (S (S (clock s)))), (stable_pool_slot0 2).
  reflexivity.
Qed.

Lemma firstValidPool_stable (fees : list Z) (s : State) :
  fst (run (firstValidPool w tokenAddress fees) s)
  = Ok (List.find (pool_valid w tokenAddress) fees).
Proof.
  revert s. induction fees as [| fee rest IH]; intros s; [reflexivity |].
  cbn [firstValidPool List.find]. rewrite run_bind.
  pose proof (validatePancakeV3Pool_stable fee s) as Hv.
  destruct (run (validatePancakeV3Pool w tokenAddress fee) s) as [[valid | e] s1];
    cbn [fst] in Hv; [| discriminate Hv]. injection Hv as ->.
  destruct (pool_valid w tokenAddress fee); [reflexivity | apply IH].
Qed.

(** On a node whose answers do not change, the fee tier kept for the order
    is the one proposed when its pool validates, otherwise the lowest of the
    other tiers whose pool validates; the order is refused only when no tier
    has a pool that validates. *)
Theorem validOrAlternativeFeeTier_chooses_valid_pool (feeTier : Z) (s : State) :
  fst (run (validOrAlternativeFeeTier w tokenAddress feeTier) s) =
  if pool_valid w tokenAddress feeTier then Ok feeTier
  else
    match List.find (pool_valid w tokenAddress)
            (List.filter (fun fee => negb (fee =? feeTier)) feeTiers) with
    | Some alternativeFee => Ok alternativeFee
    | None => Throw (JsError "No valid PancakeSwap V3 pool found with sufficient liquidity. Trading may not be possible at this time.")
    end.
Proof.
  unfold validOrAlternativeFeeTier. rewrite run_bind.
  pose proof (validatePancakeV3Pool_stable feeTier s) as Hv.
  destruct (run (validatePancakeV3Pool w tokenAddress feeTier) s) as [[valid | e] s1];
    cbn [fst] in Hv; [| discriminate Hv]. injection Hv as ->.
  destruct (pool_valid w tokenAddress feeTier); cbn [negb]; [reflexivity |].
  rewrite run_bind.
  pose proof (firstValidPool_stable
                (List.filter (fun fee => negb (fee =? feeTier)) feeTiers) s1) as Hf.
  destruct (run (firstValidPool w tokenAddress _) s1) as [[found | e] s2];
    cbn [fst] in Hf; [| discriminate Hf]. injection Hf as ->.
  destruct (List.find _ _); reflexivity.
Qed.

End StablePools.

Lemma validOrAlternativeFeeTier_chooses_valid_pool_witness :
  fst (run (validOrAlternativeFeeTier live_world TOKEN FEE_TIERS_HIGH) initial_state)
    = Ok FEE_TIERS_HIGH /\
  fst (run (validOrAlternativeFeeTier four_pools_world TOKEN FEE_TIERS_MEDIUM) initial_state)
    = Throw (JsError "No valid PancakeSwap V3 pool found with sufficient liquidity. Trading may not be possible at this time.").
Proof.
  split.
  - rewrite (validOrAlternativeFeeTier_chooses_valid_pool live_world TOKEN) by reflexivity.
    reflexivity.
  - rewrite (validOrAlternativeFeeTier_chooses_valid_pool four_pools_world TOKEN)
      by reflexivity.
    reflexivity.
Defined.

(** * The nonce cache across orders *)

Section OwnNonce.

Variable w : World.

Lemma touches_only_keeps_cache {A} (account : string) (m : M A) :
  keeps_cache m -> touches_only account m.
Proof. intros H s address _. now rewrite H. Qed.

Lemma touches_only_bind {A B} (account : string) (m : M A) (k : A -> M B) :
  touches_only account m -> (forall a, touches_only account (k a)) ->
  touches_only account (m ≫= k).
Proof.
  intros Hm Hk s address Hne. rewrite run_bind. specialize (Hm s address Hne).
  destruct (run m s) as [[a | e] s1]; cbn [snd] in *; [| exact Hm].
  now rewrite Hk.
Qed.

Lemma touches_only_try_catchM {A} (account : string) (body : M A) (handler : Error -> M A) :
  touches_only account body -> (forall e, touches_only account (handler e)) ->
  touches_only account (try_catchM body handler).
Proof.
  intros Hm Hk s address Hne. rewrite run_try_catchM. specialize (Hm s address Hne).
  destruct (run body s) as [[a | e] s1]; cbn [snd] in *; [exact Hm |].
  now rewrite Hk.
Qed.

Lemma touches_only_getNextNonce (account : string) :
  touches_only account (getNextNonce w account).
Proof.
  intros s address Hne. rewrite getNextNonce_run.
  destruct (getTransactionCount w (clock s) account); cbn [snd nonceCache tick];
    [| reflexivity].
  now rewrite lookup_insert_ne by congruence.
Qed.

Lemma touches_only_lift_bind {A B} (account : string) (o : Outcome A) (k : A -> M B) :
  (forall a, o = Ok a -> touches_only account (k a)) ->
  touches_only account (lift o ≫= k).
Proof.
  intros Hk s address Hne. rewrite run_bind. unfold lift at 1. cbn [run].
  destruct o as [a | e]; [now apply Hk | reflexivity].
Qed.

End OwnNonce.

#[local] Hint Resolve keeps_cache_getTokenInfo keeps_cache_findBestFeeTier
  keeps_cache_newContract keeps_cache_checkForHoneypot keeps_cache_validatePancakeV3Pool
  keeps_cache_validOrAlternativeFeeTier keeps_cache_expectedOutput
  keeps_cache_expectedOutput_pinned keeps_cache_fromWei_in_log keeps_cache_resolve
  keeps_cache_approveIfNeeded keeps_cache_executeSwap keeps_cache_cleanup_and_rethrow : cache.

(** Walks a [touches_only] goal down the code. *)
Ltac touches_only_step Hkey :=
  lazymatch goal with
  | |- touches_only _ (getNextNonce _ _ ≫= _) =>
      apply touches_only_bind; [apply touches_only_getNextNonce | intros ?]
  | |- touches_only _ (lift (privateKeyToAccount _ _) ≫= _) =>
      apply touches_only_lift_bind; intros ? Hsame; rewrite Hkey in Hsame;
      injection Hsame as <-
  | |- touches_only _ (if ?b then _ else _) => destruct b
  | |- touches_only _ (_ ≫= _) =>
      apply touches_only_bind; [apply touches_only_keeps_cache; solve [auto with cache] | intros ?]
  | |- touches_only _ _ => apply touches_only_keeps_cache; solve [auto with cache]
  end.

(** An order changes the nonce cache at most at the entry of the key's own
    account: what is cached for any other address stays as it was. *)
Theorem orders_touch_only_own_nonce (w : World)
    (privateKey tokenAddress amount : string) (slippagePercent : float)
    (specificFeeTier : Z) (s : State) (account address : string) :
  privateKeyToAccount w privateKey = Ok account ->
  address <> account ->
  nonceCache (snd (run (buyToken w privateKey tokenAddress amount slippagePercent) s))
    !! address = nonceCache s !! address /\
  nonceCache (snd (run (sellToken w privateKey tokenAddress amount slippagePercent) s))
    !! address = nonceCache s !! address /\
  nonceCache (snd (run (buyTokenWithFeeTier w privateKey tokenAddress amount slippagePercent
                          specificFeeTier) s))
    !! address = nonceCache s !! address /\
  nonceCache (snd (run (sellTokenWithFeeTier w privateKey tokenAddress amount slippagePercent
                          specificFeeTier) s))
    !! address = nonceCache s !! address.
Proof.
  intros Hkey Hne.
  assert (forall e, touches_only account (@cleanup_and_rethrow w string privateKey e)) as Hc
    by (intros e; apply touches_only_keeps_cache, keeps_cache_cleanup_and_rethrow).
  repeat split.
  - apply (touches_only_try_catchM account); [| exact Hc | exact Hne].
    cbn zeta. repeat touches_only_step Hkey.
  - apply (touches_only_try_catchM account); [| exact Hc | exact Hne].
    cbn zeta. repeat touches_only_step Hkey.
  - apply (touches_only_try_catchM account); [| exact Hc | exact Hne].
    cbn zeta. repeat touches_only_step Hkey.
  - apply (touches_only_try_catchM account); [| exact Hc | exact Hne].
    cbn zeta. repeat touches_only_step Hkey.
Qed.

Lemma orders_touch_only_own_nonce_witness :
  nonceCache (snd (run (buyToken live_world "0xkey" TOKEN "0.1" 1%float)
                     (snd (run (getNextNonce live_world "0xother") initial_state))))
    !! "0xother" = Some 7.
Proof.
  refine (eq_trans
            (proj1 (orders_touch_only_own_nonce live_world "0xkey" TOKEN "0.1" 1%float
                      FEE_TIERS_MEDIUM
                      (snd (run (getNextNonce live_world "0xother") initial_state))
                      "0x1111111111111111111111111111111111111111" "0xother" _ _)) _).
  - reflexivity.
  - discriminate.
  - reflexivity.
Defined.

(** With an output of 10000 and a factor of 9900 the minimum is 9900. *)
Lemma amountOutMin_guarded_floor_witness :
  amountOutMin_guarded (BN_toString 10000) 1
  = BN_toString (10000 * safeBN (JsNumber (slippageFactor 1)) / 10000).
Proof. apply amountOutMin_guarded_floor; vm_compute; discriminate. Defined.
